(** * libmemc: a shallow embedding of [libmemc.c]

    The client library of memcachetest talks to a pool of memcached servers
    over the textual and the binary protocol.  This development embeds the
    functions of [libmemc.c] as executable Rocq functions and proves the
    properties of the routing, byte-swapping, reliable I/O and codec layers.

    Conventions of the embedding.

    - C integers are [Z]; where a C operation can wrap, the wrap-around is
      written out ([u16], [u32], [u64], [s64]).
    - Memory is bytes: a [char*] is the list of bytes from the pointed
      address to the end of its allocation.  Reading or writing past that
      end is undefined behaviour ([Undef]).
    - The socket is a script of what the next [recv] and [writev] calls
      will do; when the receive script is exhausted the peer has closed the
      stream and [recv] returns 0.
    - Loops whose number of iterations depends on the transport take fuel;
      [OutOfFuel] means the loop was still running when the fuel ran out.
    - The host is little-endian (the [#ifndef __sparc] branch of [swap64]). *)

From Stdlib Require Import ZArith List Lia Bool.
From Stdlib Require Import Strings.Byte Strings.Ascii Strings.String DecimalString.
Import ListNotations.

Local Open Scope Z_scope.

(** ** Outcomes of running C code *)

Inductive outcome (A : Type) : Type :=
| Ret (a : A)      (* the call returned *)
| Abort            (* abort() or a failed assert() *)
| Undef            (* undefined behaviour: out-of-bounds access *)
| OutOfFuel.       (* a loop was still running when the fuel ran out *)

Arguments Ret {A} a.
Arguments Abort {A}.
Arguments Undef {A}.
Arguments OutOfFuel {A}.

Definition bind {A B : Type} (m : outcome A) (k : A -> outcome B) : outcome B :=
  match m with
  | Ret a => k a
  | Abort => Abort
  | Undef => Undef
  | OutOfFuel => OutOfFuel
  end.

Declare Scope outcome_scope.
Delimit Scope outcome_scope with outcome.
Notation "x <- m ;; k" := (bind m (fun x => k))
  (at level 100, m at next level, right associativity) : outcome_scope.
Notation "' p <- m ;; k" := (bind m (fun p => k))
  (at level 100, p pattern, m at next level, right associativity) : outcome_scope.
Local Open Scope outcome_scope.

(** ** Fixed-width integers *)

Definition u16 (z : Z) : Z := z mod 2 ^ 16.
Definition u32 (z : Z) : Z := z mod 2 ^ 32.
Definition u64 (z : Z) : Z := z mod 2 ^ 64.
Definition s64 (z : Z) : Z := (z + 2 ^ 63) mod 2 ^ 64 - 2 ^ 63.

(** [(size_t)-1], what [server_receive] returns on failure. *)
Definition SIZE_MAX : Z := 2 ^ 64 - 1.

Definition in_s64 (z : Z) : Prop := - 2 ^ 63 <= z < 2 ^ 63.

(** The [i]-th byte of an integer, counted from the least significant. *)
Definition byte_at (i : Z) (x : Z) : Z := Z.land (Z.shiftr x (8 * i)) 255.

(** ** Bytes and C strings *)

Definition NUL : byte := x00.
Definition CR : byte := x0d.
Definition LF : byte := x0a.

Definition byte_val (b : byte) : Z := Z.of_N (Byte.to_N b).

(** The value of a [char] read from memory; whether [char] is signed is
    up to the platform. *)
Definition char_val (char_signed : bool) (b : byte) : Z :=
  if char_signed && (128 <=? byte_val b) then byte_val b - 256 else byte_val b.

(** ** Byte swap a 64-bit number

<<
    int64_t rv = 0;
    for(i = 0; i < 8; i++) {
       rv = (rv << 8) | (in & 0xff);
       in >>= 8;
    }
    return rv;
>> *)

Fixpoint swap64_loop (i : nat) (rv inp : Z) : Z :=
  match i with
  | O => rv
  | S i' =>
      swap64_loop i' (s64 (Z.lor (Z.shiftl rv 8) (Z.land inp 255))) (Z.shiftr inp 8)
  end.

Definition swap64 (inp : Z) : Z := swap64_loop 8 0 inp.

(** The 32-bit swap the specification warns against: the two halves
    exchanged, bytes inside each half left in place. *)
Definition swap_halves (x : Z) : Z :=
  s64 (Z.lor (Z.shiftl (Z.land x (2 ^ 32 - 1)) 32) (Z.land (Z.shiftr x 32) (2 ^ 32 - 1))).

(** [htons], [htonl] and [ntohl] of a little-endian host. *)
Definition htons (x : Z) : Z :=
  Z.lor (Z.shiftl (byte_at 0 x) 8) (byte_at 1 x).

Definition htonl (x : Z) : Z :=
  Z.lor (Z.lor (Z.shiftl (byte_at 0 x) 24) (Z.shiftl (byte_at 1 x) 16))
        (Z.lor (Z.shiftl (byte_at 2 x) 8) (byte_at 3 x)).

Definition ntohl (x : Z) : Z := htonl x.

(** ** Key hashing

<<
    static uint32_t simplehash(const char *key) {
       if (key == 0) return 0;
       uint32_t ret = 0;
       for (ret = *key; *key != 0; ++key)
          ret = (ret << 4) + *key;
       return ret;
    }
>>
    A key pointer is [None] (the null pointer) or the memory it points to. *)

Definition cptr : Type := option (list byte).

Section Hash.

Variable char_signed : bool.

Fixpoint simplehash_loop (ret : Z) (key : list byte) : outcome Z :=
  match key with
  | [] => Undef
  | c :: key' =>
      if Byte.eqb c NUL then Ret ret
      else simplehash_loop (u32 (u32 (Z.shiftl ret 4) + char_val char_signed c)) key'
  end.

Definition simplehash (key : cptr) : outcome Z :=
  match key with
  | None => Ret 0
  | Some [] => Undef
  | Some (c :: rest) => simplehash_loop (u32 (char_val char_signed c)) (c :: rest)
  end.

End Hash.

(** ** Data model

    [struct Server] (the [addrinfo] field plays no part in the functions
    embedded here and is left out). *)

Record Server : Type := mkServer {
  sock : Z;
  errmsg : option string;
  peername : string;
  buffer : list byte;
  buffersize : Z
}.

Definition set_sock (s : Server) (fd : Z) : Server :=
  mkServer fd (errmsg s) (peername s) (buffer s) (buffersize s).

Definition set_errmsg (s : Server) (msg : string) : Server :=
  mkServer (sock s) (Some msg) (peername s) (buffer s) (buffersize s).

Definition set_buffer (s : Server) (buf : list byte) : Server :=
  mkServer (sock s) (errmsg s) (peername s) buf (buffersize s).

Inductive StoreCommand : Type := add | set | replace.

(** Modelled from the spec: [enum Protocol] is declared in [libmemc.h],
    which is not part of the sources; the specification names a protocol
    selector with the two variants Binary and Textual. *)
Inductive Protocol : Type := Binary | Textual.

Record Memcache : Type := mkMemcache {
  servers : list Server;
  protocol : Protocol;
  no_servers : Z
}.

(** Modelled from the spec: [struct Item] is declared in [libmemc.h], which
    is not part of the sources.  The specification lists a key with an
    explicit length, an opaque data buffer with a size, 32-bit flags, an
    expiration time and a 64-bit cas token; [libmemc.c] reads and writes
    [key], [keylen], [data], [size], [exptime] and [cas_id].  [data] is
    [None] for the null pointer, else the whole allocation. *)
Record Item : Type := mkItem {
  key : cptr;
  keylen : Z;
  data : option (list byte);
  size : Z;
  flags : Z;
  exptime : Z;
  cas_id : Z
}.

Definition set_data (it : Item) (d : option (list byte)) : Item :=
  mkItem (key it) (keylen it) d (size it) (flags it) (exptime it) (cas_id it).

Definition set_size (it : Item) (n : Z) : Item :=
  mkItem (key it) (keylen it) (data it) n (flags it) (exptime it) (cas_id it).

Definition set_cas_id (it : Item) (c : Z) : Item :=
  mkItem (key it) (keylen it) (data it) (size it) (flags it) (exptime it) c.

(** ** Server selection

<<
    static struct Server *get_server(struct Memcache *handle, const char *key) {
       if (handle->no_servers == 1) {
          return handle->servers[0];
       } else if (handle->no_servers > 0) {
          int idx = simplehash(key) % handle->no_servers;
          return handle->servers[idx];
       } else {
          return NULL;
       }
    }
>>
    The result is the selected slot of the server array, [None] for the
    null pointer. *)

Definition array_get {A : Type} (a : list A) (idx : Z) : outcome A :=
  if idx <? 0 then Undef
  else match nth_error a (Z.to_nat idx) with
       | Some x => Ret x
       | None => Undef
       end.

Definition get_server (char_signed : bool) (handle : Memcache) (k : cptr)
  : outcome (option Server) :=
  if no_servers handle =? 1 then
    s <- array_get (servers handle) 0 ;; Ret (Some s)
  else if 0 <? no_servers handle then
    h <- simplehash char_signed k ;;
    let idx := h mod no_servers handle in
    s <- array_get (servers handle) idx ;; Ret (Some s)
  else Ret None.

(** The handle invariant kept by [libmemc_create] and
    [libmemc_add_server]: [no_servers] counts the filled slots. *)
Definition handle_ok (handle : Memcache) : Prop :=
  no_servers handle = Z.of_nat (List.length (servers handle)).

(** ** Memory *)

Definition len {A : Type} (l : list A) : Z := Z.of_nat (List.length l).

(** Read [n] bytes at offset [off] of an allocation. *)
Definition mem_read (mem : list byte) (off n : Z) : outcome (list byte) :=
  if (0 <=? off) && (0 <=? n) && (off + n <=? len mem)
  then Ret (firstn (Z.to_nat n) (skipn (Z.to_nat off) mem))
  else Undef.

(** Write [bs] at offset [off] of an allocation. *)
Definition mem_write (mem : list byte) (off : Z) (bs : list byte) : outcome (list byte) :=
  if (0 <=? off) && (off + len bs <=? len mem)
  then Ret (firstn (Z.to_nat off) mem ++ bs ++ skipn (Z.to_nat (off + len bs)) mem)
  else Undef.

(** [p + n]: the pointer may move up to one past the end of the allocation. *)
Definition ptr_add (mem : list byte) (n : Z) : outcome (list byte) :=
  if (0 <=? n) && (n <=? len mem) then Ret (skipn (Z.to_nat n) mem) else Undef.

(** [strchr(s, c)] for [c] other than NUL: the offset of the first [c]
    before the terminator, scanning byte by byte. *)
Fixpoint strchr (s : list byte) (c : byte) : outcome (option Z) :=
  match s with
  | [] => Undef
  | b :: s' =>
      if Byte.eqb b c then Ret (Some 0)
      else if Byte.eqb b NUL then Ret None
      else r <- strchr s' c ;; Ret (option_map Z.succ r)
  end.

(** Does the string at [s] start with [needle] (which holds no NUL)? *)
Fixpoint has_prefix (needle s : list byte) : outcome bool :=
  match needle with
  | [] => Ret true
  | n :: needle' =>
      match s with
      | [] => Undef
      | b :: s' => if Byte.eqb n b then has_prefix needle' s' else Ret false
      end
  end.

(** [strstr(s, needle)]: the offset of the first occurrence. *)
Fixpoint strstr (s needle : list byte) : outcome (option Z) :=
  p <- has_prefix needle s ;;
  if (p : bool) then Ret (Some 0)
  else match s with
       | [] => Undef
       | b :: s' =>
           if Byte.eqb b NUL then Ret None
           else r <- strstr s' needle ;; Ret (option_map Z.succ r)
       end.

(** [strstr(s, needle) == s] *)
Definition strstr_at_start (s needle : list byte) : outcome bool :=
  r <- strstr s needle ;;
  Ret (match r with Some 0 => true | _ => false end).

(** ** The transport *)

Definition EINTR : Z := 4.
Definition EBADF : Z := 9.
Definition EPIPE : Z := 32.
Definition ECONNRESET : Z := 104.

(** The C library's [strerror]: the texts of the GNU C library on Linux
    for the error numbers it knows, and its text for the others. *)
Definition strerror_table : list (Z * string) :=
  [(0, "Success"); (1, "Operation not permitted"); (2, "No such file or directory");
   (3, "No such process"); (4, "Interrupted system call"); (5, "Input/output error");
   (6, "No such device or address"); (7, "Argument list too long");
   (8, "Exec format error"); (9, "Bad file descriptor"); (10, "No child processes");
   (11, "Resource temporarily unavailable"); (12, "Cannot allocate memory");
   (13, "Permission denied"); (14, "Bad address"); (15, "Block device required");
   (16, "Device or resource busy"); (17, "File exists"); (18, "Invalid cross-device link");
   (19, "No such device"); (20, "Not a directory"); (21, "Is a directory");
   (22, "Invalid argument"); (23, "Too many open files in system");
   (24, "Too many open files"); (25, "Inappropriate ioctl for device");
   (26, "Text file busy"); (27, "File too large"); (28, "No space left on device");
   (29, "Illegal seek"); (30, "Read-only file system"); (31, "Too many links");
   (32, "Broken pipe"); (33, "Numerical argument out of domain");
   (34, "Numerical result out of range"); (35, "Resource deadlock avoided");
   (36, "File name too long"); (37, "No locks available");
   (38, "Function not implemented"); (39, "Directory not empty");
   (40, "Too many levels of symbolic links"); (42, "No message of desired type");
   (43, "Identifier removed"); (44, "Channel number out of range");
   (45, "Level 2 not synchronized"); (46, "Level 3 halted"); (47, "Level 3 reset");
   (48, "Link number out of range"); (49, "Protocol driver not attached");
   (50, "No CSI structure available"); (51, "Level 2 halted"); (52, "Invalid exchange");
   (53, "Invalid request descriptor"); (54, "Exchange full"); (55, "No anode");
   (56, "Invalid request code"); (57, "Invalid slot"); (59, "Bad font file format");
   (60, "Device not a stream"); (61, "No data available"); (62, "Timer expired");
   (63, "Out of streams resources"); (64, "Machine is not on the network");
   (65, "Package not installed"); (66, "Object is remote"); (67, "Link has been severed");
   (68, "Advertise error"); (69, "Srmount error"); (70, "Communication error on send");
   (71, "Protocol error"); (72, "Multihop attempted"); (73, "RFS specific error");
   (74, "Bad message"); (75, "Value too large for defined data type");
   (76, "Name not unique on network"); (77, "File descriptor in bad state");
   (78, "Remote address changed"); (79, "Can not access a needed shared library");
   (80, "Accessing a corrupted shared library"); (81, ".lib section in a.out corrupted");
   (82, "Attempting to link in too many shared libraries");
   (83, "Cannot exec a shared library directly");
   (84, "Invalid or incomplete multibyte or wide character");
   (85, "Interrupted system call should be restarted"); (86, "Streams pipe error");
   (87, "Too many users"); (88, "Socket operation on non-socket");
   (89, "Destination address required"); (90, "Message too long");
   (91, "Protocol wrong type for socket"); (92, "Protocol not available");
   (93, "Protocol not supported"); (94, "Socket type not supported");
   (95, "Operation not supported"); (96, "Protocol family not supported");
   (97, "Address family not supported by protocol"); (98, "Address already in use");
   (99, "Cannot assign requested address"); (100, "Network is down");
   (101, "Network is unreachable"); (102, "Network dropped connection on reset");
   (103, "Software caused connection abort"); (104, "Connection reset by peer");
   (105, "No buffer space available"); (106, "Transport endpoint is already connected");
   (107, "Transport endpoint is not connected");
   (108, "Cannot send after transport endpoint shutdown");
   (109, "Too many references: cannot splice"); (110, "Connection timed out");
   (111, "Connection refused"); (112, "Host is down"); (113, "No route to host");
   (114, "Operation already in progress"); (115, "Operation now in progress");
   (116, "Stale file handle"); (117, "Structure needs cleaning");
   (118, "Not a XENIX named type file"); (119, "No XENIX semaphores available");
   (120, "Is a named type file"); (121, "Remote I/O error"); (122, "Disk quota exceeded");
   (123, "No medium found"); (124, "Wrong medium type"); (125, "Operation canceled");
   (126, "Required key not available"); (127, "Key has expired");
   (128, "Key has been revoked"); (129, "Key was rejected by service");
   (130, "Owner died"); (131, "State not recoverable");
   (132, "Operation not possible due to RF-kill"); (133, "Memory page has hardware error")]%string.

Definition strerror (e : Z) : string :=
  match find (fun row => fst row =? e) strerror_table with
  | Some row => snd row
  | None => "Unknown error " ++ DecimalString.NilZero.string_of_int (Z.to_int e)
  end.

Inductive recv_event : Type :=
| RecvData (bs : list byte)   (* these bytes arrive *)
| RecvErr (e : Z).            (* the call fails with this errno *)

Inductive send_event : Type :=
| SendAccept (n : Z)          (* the transport takes up to [n] bytes *)
| SendErr (e : Z).            (* the call fails with this errno *)

Record World : Type := mkWorld {
  net_in : list recv_event;   (* what the next receive calls will see *)
  net_out : list send_event;  (* what the next send calls will do *)
  wire : list byte;           (* the bytes delivered to the peer so far *)
  errno : Z;
  malloc_limit : Z            (* malloc(n) succeeds when n <= malloc_limit *)
}.

Definition set_errno (w : World) (e : Z) : World :=
  mkWorld (net_in w) (net_out w) (wire w) e (malloc_limit w).

Definition set_net_in (w : World) (evs : list recv_event) : World :=
  mkWorld evs (net_out w) (wire w) (errno w) (malloc_limit w).

Definition set_net_out (w : World) (evs : list send_event) : World :=
  mkWorld (net_in w) evs (wire w) (errno w) (malloc_limit w).

Definition deliver (w : World) (bs : list byte) : World :=
  mkWorld (net_in w) (net_out w) (wire w ++ bs) (errno w) (malloc_limit w).

(** [recv(fd, buf, n, 0)]: the return value and the bytes placed at [buf]. *)
Definition recv (w : World) (fd : Z) (n : Z) : Z * list byte * World :=
  if fd <? 0 then (-1, [], set_errno w EBADF)
  else match net_in w with
       | [] => (0, [], w)
       | RecvErr e :: rest => (-1, [], set_errno (set_net_in w rest) e)
       | RecvData bs :: rest =>
           let got := firstn (Z.to_nat n) bs in
           let left := skipn (Z.to_nat n) bs in
           (len got, got,
            set_net_in w (match left with [] => rest | _ => RecvData left :: rest end))
       end.

(** [send(fd, bs, |bs|, 0)] once the bytes to send are known. *)
Definition sock_send (w : World) (fd : Z) (bs : list byte) : Z * World :=
  if fd <? 0 then (-1, set_errno w EBADF)
  else match net_out w with
       | [] => (len bs, deliver w bs)
       | SendErr e :: rest => (-1, set_errno (set_net_out w rest) e)
       | SendAccept n :: rest =>
           let acc := firstn (Z.to_nat n) bs in
           (len acc, deliver (set_net_out w rest) acc)
       end.

Record iovec : Type := mkIovec {
  iov_base : list byte;
  iov_len : Z
}.

Fixpoint gather (iov : list iovec) : outcome (list byte) :=
  match iov with
  | [] => Ret []
  | v :: rest =>
      bs <- mem_read (iov_base v) 0 (iov_len v) ;;
      tl <- gather rest ;;
      Ret (bs ++ tl)
  end.

(** [writev(fd, iov, iovcnt)]; [iovcnt] is the length of [iov]. *)
Definition writev (w : World) (fd : Z) (iov : list iovec) : outcome (Z * World) :=
  bs <- gather iov ;; Ret (sock_send w fd bs).

(** [malloc(n)]: a fresh allocation of [n] bytes or the null pointer. *)
Definition malloc (w : World) (n : Z) : option (list byte) :=
  if n <=? malloc_limit w then Some (repeat NUL (Z.to_nat n)) else None.

(** ** Reliable I/O layer *)

(**
<<
    static void server_disconnect(struct Server *server) {
       if (server->sock != -1) {
          (void)close(server->sock);
          server->sock = -1;
       }
    }
>> *)
Definition server_disconnect (server : Server) : Server :=
  if negb (sock server =? -1) then set_sock server (-1) else server.

Definition send_failed (server : Server) (w : World) : Server :=
  server_disconnect
    (set_errmsg server ("Failed to send data to server: " ++ strerror (errno w))).

Definition receive_failed (server : Server) (w : World) : Server :=
  server_disconnect
    (set_errmsg server ("Failed to receive data from server: " ++ strerror (errno w))).

Definition protocol_error (server : Server) : Server :=
  server_disconnect (set_errmsg server "Protocol error").

(**
<<
    size_t offset = 0;
    do {
       ssize_t sent = send(server->sock, data + offset, size - offset, 0);
       if (sent == -1) {
          if (errno != EINTR) { ...errmsg...; server_disconnect(server); return -1; }
       } else {
          offset += sent;
       }
    } while (offset < size);
    return 0;
>> *)
Fixpoint server_send_loop (fuel : nat) (server : Server) (dat : list byte)
    (sz offset : Z) (w : World) : outcome (Z * Server * World) :=
  match fuel with
  | O => OutOfFuel
  | S fuel' =>
      bs <- mem_read dat offset (sz - offset) ;;
      let '(sent, w1) := sock_send w (sock server) bs in
      if sent =? -1 then
        if negb (errno w1 =? EINTR) then Ret (-1, send_failed server w1, w1)
        else if offset <? sz then server_send_loop fuel' server dat sz offset w1
        else Ret (0, server, w1)
      else
        let offset1 := offset + sent in
        if offset1 <? sz then server_send_loop fuel' server dat sz offset1 w1
        else Ret (0, server, w1)
  end.

Definition server_send (fuel : nat) (server : Server) (dat : list byte) (sz : Z)
    (w : World) : outcome (Z * Server * World) :=
  server_send_loop fuel server dat sz 0 w.

(** The inner loop of [server_sendv], which steps over what was sent:
<<
    for (int ii = 0; ii < iovcnt && sent > 0; ++ii) {
       if (iov[ii].iov_len < sent) {
          size -= iov[ii].iov_len;
          sent -= iov[ii].iov_len;
          iov[ii].iov_len = 0;
       } else {
          iov[ii].iov_base += sent;
          iov[ii].iov_len -= sent;
          size -= sent;
          break;
       }
    }
>> *)
Fixpoint sendv_advance (iov : list iovec) (sent sz : Z) : list iovec * Z :=
  match iov with
  | [] => ([], sz)
  | v :: rest =>
      if 0 <? sent then
        if iov_len v <? sent then
          let '(rest1, sz1) := sendv_advance rest (sent - iov_len v) (sz - iov_len v) in
          (mkIovec (iov_base v) 0 :: rest1, sz1)
        else
          (mkIovec (skipn (Z.to_nat sent) (iov_base v)) (iov_len v - sent) :: rest,
           sz - sent)
      else (iov, sz)
  end.

(** [size_t size = 0; for (...) size += iov[ii].iov_len;] *)
Definition iov_total (iov : list iovec) : Z :=
  fold_left (fun acc v => acc + iov_len v) iov 0.

(**
<<
    do {
       ssize_t sent = writev(server->sock, iov, iovcnt);
       if (sent == -1) {
          if (errno != EINTR) { ...errmsg...; server_disconnect(server); return -1; }
       } else {
          if (sent == size) return 0;
          ...step over what was sent...
       }
    } while (size > 0);
    return 0;
>> *)
Fixpoint server_sendv_loop (fuel : nat) (server : Server) (iov : list iovec)
    (sz : Z) (w : World) : outcome (Z * Server * World) :=
  match fuel with
  | O => OutOfFuel
  | S fuel' =>
      '(sent, w1) <- writev w (sock server) iov ;;
      if sent =? -1 then
        if negb (errno w1 =? EINTR) then Ret (-1, send_failed server w1, w1)
        else if 0 <? sz then server_sendv_loop fuel' server iov sz w1
        else Ret (0, server, w1)
      else if sent =? sz then Ret (0, server, w1)
      else
        let '(iov1, sz1) := sendv_advance iov sent sz in
        if 0 <? sz1 then server_sendv_loop fuel' server iov1 sz1 w1
        else Ret (0, server, w1)
  end.

Definition server_sendv (fuel : nat) (server : Server) (iov : list iovec)
    (w : World) : outcome (Z * Server * World) :=
  server_sendv_loop fuel server iov (iov_total iov) w.

(**
<<
    size_t offset = 0;
    int stop = 0;
    do {
       ssize_t nread = recv(server->sock, data + offset, size - offset, 0);
       if (nread == -1) {
          if (errno != EINTR) { ...errmsg...; server_disconnect(server); return -1; }
       } else {
          if (line) {
             if (strchr(data + offset, '\r') != 0) stop = 1;
          }
          offset += nread;
       }
    } while (offset < size && !stop);

    if (line && !stop) {
       server->errmsg = strdup("Protocol error");
       server_disconnect(server);
       return -1;
    }
    return offset;
>>
    The result carries the destination allocation as the call leaves it. *)
Definition server_receive_end (server : Server) (dat : list byte) (line : bool)
    (offset : Z) (stop : bool) (w : World) : outcome (Z * Server * list byte * World) :=
  if line && negb stop then Ret (SIZE_MAX, protocol_error server, dat, w)
  else Ret (offset, server, dat, w).

Fixpoint server_receive_loop (fuel : nat) (server : Server) (dat : list byte)
    (sz : Z) (line : bool) (offset : Z) (stop : bool) (w : World)
  : outcome (Z * Server * list byte * World) :=
  match fuel with
  | O => OutOfFuel
  | S fuel' =>
      let '(nread, bs, w1) := recv w (sock server) (sz - offset) in
      if nread =? -1 then
        if negb (errno w1 =? EINTR) then
          Ret (SIZE_MAX, receive_failed server w1, dat, w1)
        else if (offset <? sz) && negb stop
        then server_receive_loop fuel' server dat sz line offset stop w1
        else server_receive_end server dat line offset stop w1
      else
        dat1 <- mem_write dat offset bs ;;
        stop1 <- (if line then
                    p <- ptr_add dat1 offset ;;
                    r <- strchr p CR ;;
                    Ret (match r with Some _ => true | None => stop end)
                  else Ret stop) ;;
        let offset1 := offset + nread in
        if (offset1 <? sz) && negb stop1
        then server_receive_loop fuel' server dat1 sz line offset1 stop1 w1
        else server_receive_end server dat1 line offset1 stop1 w1
  end.

Definition server_receive (fuel : nat) (server : Server) (dat : list byte)
    (sz : Z) (line : bool) (w : World) : outcome (Z * Server * list byte * World) :=
  server_receive_loop fuel server dat sz line 0 false w.

(** ** Textual protocol *)

Definition bytes (s : string) : list byte := list_byte_of_string s.

(** A string literal in memory: its characters and the terminator. *)
Definition literal (s : string) : list byte := bytes s ++ [NUL].

Definition CRLF : list byte := [CR; LF].

Definition ULONG_MAX : Z := 2 ^ 64 - 1.

Definition isspace (b : byte) : bool :=
  Byte.eqb b x20 || Byte.eqb b x09 || Byte.eqb b x0a
  || Byte.eqb b x0b || Byte.eqb b x0c || Byte.eqb b x0d.

Definition digit_val (b : byte) : option Z :=
  let v := byte_val b - 48 in
  if (0 <=? v) && (v <=? 9) then Some v else None.

Fixpoint skip_space (s : list byte) : outcome Z :=
  match s with
  | [] => Undef
  | b :: s' => if isspace b then n <- skip_space s' ;; Ret (n + 1) else Ret 0
  end.

Fixpoint scan_digits (s : list byte) (acc n : Z) : outcome (Z * Z) :=
  match s with
  | [] => Undef
  | b :: s' =>
      match digit_val b with
      | Some d => scan_digits s' (acc * 10 + d) (n + 1)
      | None => Ret (acc, n)
      end
  end.

(** [strtoul(s, &end, 10)] of the C library: the value and [end - s].
    Leading white space and a sign are skipped; without a digit nothing is
    converted and [end = s]; a value that does not fit is [ULONG_MAX]. *)
Definition strtoul (s : list byte) : outcome (Z * Z) :=
  sp <- skip_space s ;;
  rest <- ptr_add s sp ;;
  let '(neg, sgn) :=
    match rest with
    | b :: _ => if Byte.eqb b "-" then (true, 1)
                else if Byte.eqb b "+" then (false, 1) else (false, 0)
    | [] => (false, 0)
    end in
  digits <- ptr_add rest sgn ;;
  '(v, n) <- scan_digits digits 0 0 ;;
  if n =? 0 then Ret (0, 0)
  else Ret (if ULONG_MAX <? v then ULONG_MAX else if neg then u64 (- v) else v,
            sp + sgn + n).

(**
<<
    char *end = strchr(header, ' ');
    if (end == 0) return -1;
    char *start = end + 1;
    *flag = (uint32_t)strtoul(start, &end, 10);
    if (start == end) return -1;
    start = end + 1;
    *size = (size_t)strtoul(start, &end, 10);
    if (start == end) return -1;
    if (strstr(end, "\r\n") != end) return -1;
    *data = end + 2;
    return 0;
>>
    [None] stands for the return value -1; otherwise the flag, the size
    and the offset of [*data] from [header]. *)
Definition parse_value_line (header : list byte) : outcome (option (Z * Z * Z)) :=
  sp <- strchr header " " ;;
  match sp with
  | None => Ret None
  | Some e =>
      let start := e + 1 in
      m1 <- ptr_add header start ;;
      '(v1, n1) <- strtoul m1 ;;
      let flag := u32 v1 in
      if n1 =? 0 then Ret None
      else
        let start2 := start + n1 + 1 in
        m2 <- ptr_add header start2 ;;
        '(v2, n2) <- strtoul m2 ;;
        if n2 =? 0 then Ret None
        else
          let e2 := start2 + n2 in
          m3 <- ptr_add header e2 ;;
          crlf <- strstr_at_start m3 CRLF ;;
          if negb crlf then Ret None
          else Ret (Some (flag, v2, e2 + 2))
  end.

Definition key_mem (item : Item) : list byte :=
  match key item with Some m => m | None => [] end.

(** [memcpy(item->data, src, item->size)] *)
Definition memcpy_to_item (item : Item) (src : list byte) : outcome Item :=
  bs <- mem_read src 0 (size item) ;;
  match data item with
  | Some d => d1 <- mem_write d 0 bs ;; Ret (set_data item (Some d1))
  | None => if size item =? 0 then Ret item else Undef
  end.

(**
<<
    void *result = ptr;
    if (elemsize > item->size) {
       if (item->data != 0) free(item->data);
       item->size = elemsize;
       item->data = malloc(item->size);
       if (item->data == 0) { item->size = 0; return -1; }
    }
    memcpy(item->data, result, item->size);
    return 0;
>> *)
Definition textual_get_copy (item : Item) (result : list byte) (elemsize : Z)
    (w : World) : outcome (Z * Item) :=
  if size item <? elemsize then
    let item1 := set_data (set_size item elemsize) (malloc w elemsize) in
    match data item1 with
    | None => Ret (-1, set_size item1 0)
    | Some _ => item2 <- memcpy_to_item item1 result ;; Ret (0, item2)
    end
  else item2 <- memcpy_to_item item result ;; Ret (0, item2).

(** What [textual_get] does once the response line is in the scratch
    buffer ([nread] is what the line-mode [server_receive] returned). *)
Definition textual_get_decode (fuel : nat) (server : Server) (item : Item)
    (nread : Z) (w : World) : outcome (Z * Server * Item * World) :=
  isvalue <- strstr_at_start (buffer server) (bytes "VALUE ") ;;
  if (isvalue : bool) then
    header <- ptr_add (buffer server) 6 ;;
    parsed <- parse_value_line header ;;
    match parsed with
    | None => Ret (-1, protocol_error server, item, w)
    | Some (flag, elemsize, off) =>
        let headsize := 6 + off in
        let chunk := u64 (nread - headsize) in
        '(server1, w1) <-
          (if chunk <? u64 (elemsize + 7) then
             dst <- ptr_add (buffer server) nread ;;
             '(_, s, dst1, w1) <-
               server_receive fuel server dst (u64 (u64 (elemsize - chunk) + 7)) false w ;;
             Ret (set_buffer s (firstn (Z.to_nat nread) (buffer server) ++ dst1), w1)
           else Ret (server, w)) ;;
        result <- ptr_add (buffer server1) headsize ;;
        '(r, item1) <- textual_get_copy item result elemsize w1 ;;
        Ret (r, server1, item1, w1)
    end
  else
    isend <- strstr_at_start (buffer server) (bytes "END") ;;
    if (isend : bool) then Ret (-1, server, item, w)
    else Abort.

(**
<<
    iovec[0] = "get ", 4; iovec[1] = item->key, item->keylen; iovec[2] = "\r\n", 2;
    server_sendv(server, iovec, 3);
    size_t nread = server_receive(server, server->buffer, server->buffersize, 1);
    ...
>> *)
Definition textual_get_iovec (item : Item) : list iovec :=
  [mkIovec (literal "get ") 4;
   mkIovec (key_mem item) (keylen item);
   mkIovec (CRLF ++ [NUL]) 2].

Definition textual_get (fuel : nat) (server : Server) (item : Item) (w : World)
  : outcome (Z * Server * Item * World) :=
  '(_, server1, w1) <- server_sendv fuel server (textual_get_iovec item) w ;;
  '(nread, server2, buf, w2) <-
    server_receive fuel server1 (buffer server1) (buffersize server1) true w1 ;;
  textual_get_decode fuel (set_buffer server2 buf) item nread w2.

(** [" %d %ld %ld\r\n"] printed for [flags], [exptime] and [size]. *)
Definition dec (z : Z) : list byte :=
  bytes (DecimalString.NilZero.string_of_int (Z.to_int z)).

Definition store_header (flags_ exptime_ size_ : Z) : list byte :=
  bytes " " ++ dec flags_ ++ bytes " " ++ dec exptime_ ++ bytes " " ++ dec size_ ++ CRLF.

Definition commands (cmd : StoreCommand) : string :=
  match cmd with
  | add => "add "
  | set => "set "
  | replace => "replace "
  end.

Definition strlen_literal (s : string) : Z := len (bytes s).

Definition lost_contact (server : Server) : Server :=
  server_disconnect (set_errmsg server "Lost contact with server").

Definition out_of_sync (server : Server) : Server :=
  server_disconnect (set_errmsg server "Out of sync with server...").

(** The response loop of [textual_store]:
<<
    size_t offset = 0;
    do {
       len = recv(server->sock, server->buffer + offset, server->buffersize - offset, 0);
       if (len == -1) {
          if (errno != EINTR) { ...errmsg...; server_disconnect(server); return -1; }
       } else if (len == 0) {
          server->errmsg = strdup("Lost contact with server");
          server_disconnect(server);
          return -1;
       } else {
          offset += len;
          if (strchr(server->buffer, '\r') != 0) {
             if (strstr(server->buffer, "STORED\r\n") == server->buffer) {
                return 0;
             } else if (strstr(server->buffer, "NOT_STORED\r\n") == server->buffer) {
                server->errmsg = strdup("Item NOT stored");
                return -1;
             }
          }
       }
       if (offset == server->buffersize) {
          server->errmsg = strdup("Out of sync with server...");
          server_disconnect(server);
          return -1;
       }
    } while (1);
>> *)
Fixpoint textual_store_loop (fuel : nat) (server : Server) (offset : Z) (w : World)
  : outcome (Z * Server * World) :=
  match fuel with
  | O => OutOfFuel
  | S fuel' =>
      let '(n, bs, w1) := recv w (sock server) (buffersize server - offset) in
      if n =? -1 then
        if negb (errno w1 =? EINTR) then Ret (-1, receive_failed server w1, w1)
        else if offset =? buffersize server then Ret (-1, out_of_sync server, w1)
        else textual_store_loop fuel' server offset w1
      else if n =? 0 then Ret (-1, lost_contact server, w1)
      else
        buf1 <- mem_write (buffer server) offset bs ;;
        let server1 := set_buffer server buf1 in
        let offset1 := offset + n in
        cr <- strchr buf1 CR ;;
        stored <- (match cr with
                   | Some _ => strstr_at_start buf1 (bytes "STORED" ++ CRLF)
                   | None => Ret false
                   end) ;;
        if (stored : bool) then Ret (0, server1, w1)
        else
          not_stored <- (match cr with
                         | Some _ => strstr_at_start buf1 (bytes "NOT_STORED" ++ CRLF)
                         | None => Ret false
                         end) ;;
          if (not_stored : bool) then Ret (-1, set_errmsg server1 "Item NOT stored", w1)
          else if offset1 =? buffersize server1 then Ret (-1, out_of_sync server1, w1)
          else textual_store_loop fuel' server1 offset1 w1
  end.

(**
<<
    uint32_t flags = 0;
    ssize_t len = sprintf(server->buffer, " %d %ld %ld\r\n",
                          flags, (long)item->exptime, (long)item->size);
    iovec[0] = commands[cmd], strlen(commands[cmd]);
    iovec[1] = item->key, item->keylen;
    iovec[2] = server->buffer, len;
    iovec[3] = item->data, item->size;
    iovec[4] = "\r\n", 2;
    server_sendv(server, iovec, 5);
    ...the response loop...
>> *)
Definition textual_store (fuel : nat) (server : Server) (cmd : StoreCommand)
    (item : Item) (w : World) : outcome (Z * Server * World) :=
  let line := store_header 0 (s64 (exptime item)) (s64 (size item)) in
  buf <- mem_write (buffer server) 0 (line ++ [NUL]) ;;
  let server0 := set_buffer server buf in
  let iov := [mkIovec (literal (commands cmd)) (strlen_literal (commands cmd));
              mkIovec (key_mem item) (keylen item);
              mkIovec buf (len line);
              mkIovec (match data item with Some d => d | None => [] end) (size item);
              mkIovec (CRLF ++ [NUL]) 2] in
  '(_, server1, w1) <- server_sendv fuel server0 iov w ;;
  textual_store_loop fuel server1 0 w1.

(** ** Binary protocol

    The frames of [<memcached/protocol_binary.h>]: a 24-byte header whose
    multi-byte fields travel in network byte order.  A record holds the
    fields as the host has them in memory; [le_bytes] lays a field out as a
    little-endian host does. *)

Definition byte_of_Z (z : Z) : byte :=
  match Byte.of_N (Z.to_N (z mod 256)) with
  | Some b => b
  | None => NUL
  end.

Fixpoint le_bytes (n : nat) (v : Z) : list byte :=
  match n with
  | O => []
  | S n' => byte_of_Z v :: le_bytes n' (Z.shiftr v 8)
  end.

Fixpoint le_val (bs : list byte) : Z :=
  match bs with
  | [] => 0
  | b :: bs' => byte_val b + 256 * le_val bs'
  end.

Definition slice (bs : list byte) (off n : nat) : list byte :=
  firstn n (skipn off bs).

Definition PROTOCOL_BINARY_REQ : Z := 128.
Definition PROTOCOL_BINARY_CMD_GET : Z := 0.
Definition PROTOCOL_BINARY_CMD_SET : Z := 1.
Definition PROTOCOL_BINARY_CMD_ADD : Z := 2.
Definition PROTOCOL_BINARY_CMD_REPLACE : Z := 3.
Definition PROTOCOL_BINARY_RAW_BYTES : Z := 0.

Record request_header : Type := mkRequestHeader {
  req_magic : Z;
  req_opcode : Z;
  req_keylen : Z;
  req_extlen : Z;
  req_datatype : Z;
  req_reserved : Z;
  req_bodylen : Z;
  req_opaque : Z;
  req_cas : Z
}.

Definition request_header_bytes (h : request_header) : list byte :=
  le_bytes 1 (req_magic h) ++ le_bytes 1 (req_opcode h) ++ le_bytes 2 (req_keylen h)
  ++ le_bytes 1 (req_extlen h) ++ le_bytes 1 (req_datatype h)
  ++ le_bytes 2 (req_reserved h) ++ le_bytes 4 (req_bodylen h)
  ++ le_bytes 4 (req_opaque h) ++ le_bytes 8 (req_cas h).

(** [protocol_binary_request_set]: the header and the [flags] and
    [expiration] of the body. *)
Record request_set : Type := mkRequestSet {
  set_header : request_header;
  body_flags : Z;
  body_expiration : Z
}.

Definition request_set_bytes (r : request_set) : list byte :=
  request_header_bytes (set_header r)
  ++ le_bytes 4 (body_flags r) ++ le_bytes 4 (body_expiration r).

Record response_header : Type := mkResponseHeader {
  rsp_magic : Z;
  rsp_opcode : Z;
  rsp_keylen : Z;
  rsp_extlen : Z;
  rsp_datatype : Z;
  rsp_status : Z;
  rsp_bodylen : Z;
  rsp_opaque : Z;
  rsp_cas : Z
}.

(** The fields of [response.message.header.response] read from
    [response.bytes]. *)
Definition response_of_bytes (bs : list byte) : response_header :=
  mkResponseHeader
    (le_val (slice bs 0 1)) (le_val (slice bs 1 1)) (le_val (slice bs 2 2))
    (le_val (slice bs 4 1)) (le_val (slice bs 5 1)) (le_val (slice bs 6 2))
    (le_val (slice bs 8 4)) (le_val (slice bs 12 4)) (le_val (slice bs 16 8)).

Definition nl : string := String (ascii_of_nat 10) EmptyString.

Definition allocation_failed (server : Server) : Server :=
  server_disconnect (set_errmsg server ("failed to allocate memory" ++ nl)).

Definition unexpected_data (server : Server) : Server :=
  server_disconnect (set_errmsg server ("Unexpected data returned" ++ nl)).

(** The request of [binary_store]:
<<
    protocol_binary_request_set request = { .bytes = {0} };
    request.message.header.request.magic = PROTOCOL_BINARY_REQ;
    switch (cmd) { case add: opcode = PROTOCOL_BINARY_CMD_ADD; ... }
    uint16_t keylen = item->keylen;
    request.message.header.request.keylen = htons(keylen);
    request.message.header.request.extlen = 8;
    request.message.header.request.datatype = 0;
    request.message.header.request.reserved = 0;
    request.message.header.request.bodylen = htonl(keylen + item->size + 8);
    request.message.header.request.opaque = 0;
    request.message.header.request.cas = swap64(item->cas_id);
    request.message.body.flags = 0;
    request.message.body.expiration = htonl(item->exptime);
>> *)
Definition store_opcode (cmd : StoreCommand) : Z :=
  match cmd with
  | add => PROTOCOL_BINARY_CMD_ADD
  | set => PROTOCOL_BINARY_CMD_SET
  | replace => PROTOCOL_BINARY_CMD_REPLACE
  end.

Definition binary_store_request (cmd : StoreCommand) (item : Item) : request_set :=
  let keylen_ := u16 (keylen item) in
  mkRequestSet
    (mkRequestHeader PROTOCOL_BINARY_REQ (store_opcode cmd) (htons keylen_) 8 0 0
       (htonl (u32 (keylen_ + size item + 8))) 0
       (u64 (swap64 (s64 (cas_id item)))))
    0
    (htonl (u32 (exptime item))).

Definition binary_store_iovec (cmd : StoreCommand) (item : Item) : list iovec :=
  [mkIovec (request_set_bytes (binary_store_request cmd item)) 32;
   mkIovec (key_mem item) (u16 (keylen item));
   mkIovec (match data item with Some d => d | None => [] end) (size item)].

(** The response half of [binary_store], once the header has been read:
<<
    if (response.message.header.response.status == 0 &&
        response.message.header.response.bodylen != 0) {
       server->errmsg = strdup("Unexpected data returned\n");
       server_disconnect(server);
       return -1;
    } else if (response.message.header.response.bodylen != 0) {
       uint32_t len = ntohl(response.message.header.response.bodylen);
       char* buffer = malloc(len);
       if (buffer == 0) { ...errmsg...; server_disconnect(server); return -1; }
       size_t nread = server_receive(server, buffer, len, 0);
       free(buffer);
    }
    return (response.message.header.response.status == 0) ? 0 : -1;
>> *)
Definition binary_store_response (fuel : nat) (server : Server)
    (response : response_header) (w : World) : outcome (Z * Server * World) :=
  if (rsp_status response =? 0) && negb (rsp_bodylen response =? 0) then
    Ret (-1, unexpected_data server, w)
  else if negb (rsp_bodylen response =? 0) then
    let n := ntohl (rsp_bodylen response) in
    match malloc w n with
    | None => Ret (-1, allocation_failed server, w)
    | Some buf =>
        '(_, server1, _, w1) <- server_receive fuel server buf n false w ;;
        Ret (if rsp_status response =? 0 then 0 else -1, server1, w1)
    end
  else Ret (if rsp_status response =? 0 then 0 else -1, server, w).

(**
<<
    server_sendv(server, iovec, 3);
    protocol_binary_response_set response;
    size_t nread = server_receive(server, response.bytes,
                                  sizeof(response.bytes), 0);
    if (nread != sizeof(response)) {
       server->errmsg = strdup("Protocol error");
       server_disconnect(server);
       return -1;
    }
    ...the response half...
>> *)
Definition binary_store (fuel : nat) (server : Server) (cmd : StoreCommand)
    (item : Item) (w : World) : outcome (Z * Server * World) :=
  '(_, server1, w1) <- server_sendv fuel server (binary_store_iovec cmd item) w ;;
  '(nread, server2, rbytes, w2) <-
    server_receive fuel server1 (repeat NUL 24) 24 false w1 ;;
  if negb (nread =? 24) then Ret (-1, protocol_error server2, w2)
  else binary_store_response fuel server2 (response_of_bytes rbytes) w2.

(** [readv(fd, iovec, 2)] into a 4-byte [flags] and [item->data]: the
    return value and the bytes that land in [item->data]. *)
Definition readv_flags_data (w : World) (fd : Z) (n : Z) : Z * list byte * World :=
  let '(nread, bs, w1) := recv w fd (4 + n) in
  (nread, skipn 4 bs, w1).

(** The string a [char*] points to, up to its terminator. *)
Fixpoint c_string (mem : list byte) : list byte :=
  match mem with
  | [] => []
  | b :: mem' => if Byte.eqb b NUL then [] else b :: c_string mem'
  end.

Definition binary_get_request (item : Item) : request_header :=
  let keylen_ := u16 (keylen item) in
  mkRequestHeader PROTOCOL_BINARY_REQ PROTOCOL_BINARY_CMD_GET (htons keylen_) 0
    PROTOCOL_BINARY_RAW_BYTES 0 (htonl keylen_) 0 0.

(** The payload of a successful [binary_get] response:
<<
    if (response.message.header.response.extlen != 0) {
       assert(response.message.header.response.extlen == 4);
       uint32_t flags;
       iovec[0] = &flags, sizeof(flags); iovec[1] = item->data, item->size;
       ssize_t nread = readv(server->sock, iovec, 2);
       if (nread < bodylen) {
          // partial read.. read the rest!
          nread -= 4;
          size_t left = item->size - nread;
          if (server_receive(server, item->data + nread, left, 0) != left) abort();
       }
    } else {
       size_t nread = server_receive(server, item->data, item->size, 0);
       assert(nread == item->size);
    }
>> *)
Definition binary_get_payload (fuel : nat) (server : Server) (item : Item)
    (mem : list byte) (extlen bodylen : Z) (w : World)
  : outcome (Server * list byte * World) :=
  if negb (extlen =? 0) then
    if negb (extlen =? 4) then Abort
    else
      let '(nread, bs, w1) := readv_flags_data w (sock server) (size item) in
      mem1 <- mem_write mem 0 bs ;;
      if nread <? bodylen then
        let nread1 := nread - 4 in
        let left := u64 (size item - nread1) in
        dst <- ptr_add mem1 nread1 ;;
        '(r, server1, dst1, w2) <- server_receive fuel server dst left false w1 ;;
        if negb (r =? left) then Abort
        else Ret (server1, firstn (Z.to_nat nread1) mem1 ++ dst1, w2)
      else Ret (server, mem1, w1)
  else
    '(nread, server1, mem1, w1) <- server_receive fuel server mem (size item) false w ;;
    if negb (nread =? size item) then Abort
    else Ret (server1, mem1, w1).

(** The response half of [binary_get], once the header has been read:
<<
    bodylen = ntohl(response.message.header.response.bodylen);
    if (response.message.header.response.status == 0) {
       if (item->data != NULL) {
          if ((bodylen-response.message.header.response.extlen) > item->size) {
             free(item->data);
             item->data = NULL;
          }
       }
       if (item->data == NULL) {
          item->size = bodylen - response.message.header.response.extlen;
          item->data = malloc(item->size);
          if (item->data == NULL) { ...errmsg...; server_disconnect(server); return -1; }
       }
       ...the payload...
       item->cas_id = swap64(response.message.header.response.cas);
    } else {
       char *buffer = malloc(bodylen + 1);
       if (buffer == NULL) { ...errmsg...; server_disconnect(server); return -1; }
       buffer[bodylen] = '\0';
       server_receive(server, buffer, bodylen, 0);
       server->errmsg = buffer;
       return -1;
    }
    return 0;
>> *)
Definition binary_get_response (fuel : nat) (server : Server) (item : Item)
    (response : response_header) (w : World) : outcome (Z * Server * Item * World) :=
  let bodylen := ntohl (rsp_bodylen response) in
  let extlen := rsp_extlen response in
  if rsp_status response =? 0 then
    let item1 :=
      match data item with
      | Some _ => if size item <? u32 (bodylen - extlen) then set_data item None else item
      | None => item
      end in
    let item2 :=
      match data item1 with
      | None =>
          let item' := set_size item1 (u32 (bodylen - extlen)) in
          set_data item' (malloc w (size item'))
      | Some _ => item1
      end in
    match data item2 with
    | None => Ret (-1, allocation_failed server, item2, w)
    | Some mem =>
        '(server1, mem1, w1) <- binary_get_payload fuel server item2 mem extlen bodylen w ;;
        Ret (0, server1,
             set_cas_id (set_data item2 (Some mem1)) (u64 (swap64 (s64 (rsp_cas response)))),
             w1)
    end
  else
    match malloc w (u32 (bodylen + 1)) with
    | None => Ret (-1, allocation_failed server, item, w)
    | Some buf =>
        buf1 <- mem_write buf bodylen [NUL] ;;
        '(_, server1, buf2, w1) <- server_receive fuel server buf1 bodylen false w ;;
        Ret (-1, set_errmsg server1 (string_of_list_byte (c_string buf2)), item, w1)
    end.

(**
<<
    uint16_t keylen = item->keylen;
    uint32_t bodylen = keylen;
    protocol_binary_request_get request = { .bytes = {0} };
    ...magic, opcode, keylen, datatype, bodylen...
    iovec[0] = &request, sizeof(request); iovec[1] = item->key, keylen;
    server_sendv(server, iovec, 2);
    protocol_binary_response_set response;
    size_t nread = server_receive(server, response.bytes, sizeof(response.bytes), 0);
    if (nread != sizeof(response)) {
       server->errmsg = strdup("Protocol error");
       server_disconnect(server);
       return -1;
    }
    ...the response half...
>> *)
Definition binary_get (fuel : nat) (server : Server) (item : Item) (w : World)
  : outcome (Z * Server * Item * World) :=
  let iov := [mkIovec (request_header_bytes (binary_get_request item)) 24;
              mkIovec (key_mem item) (u16 (keylen item))] in
  '(_, server1, w1) <- server_sendv fuel server iov w ;;
  '(nread, server2, rbytes, w2) <-
    server_receive fuel server1 (repeat NUL 24) 24 false w1 ;;
  if negb (nread =? 24) then Ret (-1, protocol_error server2, item, w2)
  else binary_get_response fuel server2 item (response_of_bytes rbytes) w2.

(** ** Sample data for the worked examples *)

Definition two_servers : Memcache :=
  mkMemcache [mkServer 3 None "a:11211" [] 0; mkServer 4 None "b:11211" [] 0] Textual 2.


Definition sample_item : Item :=
  mkItem (Some (literal "k")) 1 (Some (bytes "hello")) 5 7 60 72623859790382856.

(** ** Vocabulary of the statements *)

(** An [iovec] entry lies inside its allocation. *)
Definition iov_ok (v : iovec) : Prop := 0 <= iov_len v <= len (iov_base v).

(** The bytes an entry designates, and the logical message of a gathered
    write. *)
Definition iov_data (v : iovec) : list byte :=
  firstn (Z.to_nat (iov_len v)) (iov_base v).

Definition message (iov : list iovec) : list byte := List.concat (map iov_data iov).

(** A send call that is not a hard error: it takes some bytes, or it is
    interrupted. *)
Definition send_soft (e : send_event) : Prop :=
  match e with
  | SendAccept _ => True
  | SendErr e => e = EINTR
  end.

(** The same, on a transport that takes at least one byte per call. *)
Definition send_positive (e : send_event) : Prop :=
  match e with
  | SendAccept n => 1 <= n
  | SendErr e => e = EINTR
  end.

(** A receive call that is not a hard error. *)
Definition recv_soft (e : recv_event) : Prop :=
  match e with
  | RecvData _ => True
  | RecvErr e => e = EINTR
  end.

(** The bytes still to arrive before the peer closes the stream. *)
Fixpoint stream_bytes (evs : list recv_event) : list byte :=
  match evs with
  | [] => []
  | RecvData bs :: rest => bs ++ stream_bytes rest
  | RecvErr _ :: rest => stream_bytes rest
  end.

Definition starts_with (prefix s : list byte) : Prop :=
  exists rest, s = prefix ++ rest.

(** The [int] a call returned, when it returned. *)
Definition ret_code {A B C : Type} (o : outcome (Z * A * B * C)) : option Z :=
  match o with
  | Ret (r, _, _, _) => Some r
  | _ => None
  end.

(** A transport that takes one byte per call, and the request of a
    textual fetch of the key [k]. *)
Definition byte_at_a_time_server : Server :=
  mkServer 3 None "localhost:11211" (repeat NUL 64) 64.

Definition byte_at_a_time_world : World :=
  mkWorld [] (repeat (SendAccept 1) 7) [] 0 1024.

Definition get_iov : list iovec :=
  [mkIovec (literal "get ") 4; mkIovec (literal "k") 1; mkIovec (CRLF ++ [NUL]) 2].

(** A connection with an 8-byte scratch buffer, and a peer that sends a
    line with no carriage return that does not fit in it. *)
Definition small_server : Server :=
  mkServer 3 None "localhost:11211" (repeat NUL 8) 8.

Definition oversized_world : World :=
  mkWorld [RecvData (bytes "aaaaaaa" ++ [NUL] ++ bytes "tail")] [] [] 0 1024.

(** A connection with a 64-byte scratch buffer, items to fetch the key
    [k] into, and what the peer may answer. *)
Definition fetch_server : Server :=
  mkServer 3 None "localhost:11211" (repeat NUL 64) 64.

(** An item with no buffer yet. *)
Definition fresh_item : Item :=
  mkItem (Some (literal "k")) 1 None 0 0 0 0.

(** An item that holds a buffer of ten bytes from an earlier fetch. *)
Definition reused_item : Item :=
  mkItem (Some (literal "k")) 1 (Some (bytes "0123456789")) 10 0 0 0.

Definition answer (response : list byte) : World :=
  mkWorld [RecvData response] [] [] 0 1024.

Definition miss_response : list byte := bytes "END" ++ CRLF.

Definition malformed_response : list byte := bytes "VALUE k x" ++ CRLF.

Definition hello_response : list byte :=
  bytes "VALUE k 0 5" ++ CRLF ++ bytes "hello" ++ CRLF ++ bytes "END" ++ CRLF.

(** What a fetch left in the item. *)
Definition fetched (o : outcome (Z * Server * Item * World))
  : option (Z * Z * option (list byte)) :=
  match o with
  | Ret (r, _, item, _) => Some (r, size item, data item)
  | _ => None
  end.

(** What a store returned and what it put on the wire. *)
Definition stored (o : outcome (Z * Server * World)) : option (Z * list byte) :=
  match o with
  | Ret (r, _, w) => Some (r, wire w)
  | _ => None
  end.

(** A binary response header with status 0 and no body. *)
Definition success_header : list byte :=
  [x81; x01; x00; x00; x00; x00; x00; x00; x00; x00; x00; x00;
   x00; x00; x00; x00; x00; x00; x00; x00; x00; x00; x00; x00].

(** ** Vocabulary of the further properties *)

(** The base-16 sum of the characters of a string, the last one weighing
    1: what [simplehash] accumulates before it wraps. *)
Definition hash_sum (char_signed : bool) (s : list byte) : Z :=
  fold_left (fun acc c => acc * 16 + char_val char_signed c) s 0.

(** A peer that sends "hello" one byte per read, with an interruption
    before each byte. *)
Definition trickle_world : World :=
  mkWorld [RecvErr EINTR; RecvData (bytes "h"); RecvErr EINTR; RecvData (bytes "e");
           RecvErr EINTR; RecvData (bytes "l"); RecvErr EINTR; RecvData (bytes "l");
           RecvErr EINTR; RecvData (bytes "o"); RecvData (bytes "next")]
    [] [] 0 1024.

(** A decimal digit, and the number a string of digits writes. *)
Definition is_digit (b : byte) : Prop := digit_val b <> None.

Definition digits_value (ds : list byte) : Z :=
  fold_left (fun acc b => acc * 10 + (byte_val b - 48)) ds 0.

Definition SP : byte := x20.

(** The line [<key> <flags> <bytes>\r\n] that follows "VALUE " in the
    response to a fetch. *)
Definition value_line (k fd sd : list byte) : list byte :=
  k ++ SP :: fd ++ SP :: sd ++ CRLF.

(** The whole response to a fetch that hits. *)
Definition value_response (k fd sd payload : list byte) : list byte :=
  bytes "VALUE " ++ value_line k fd sd ++ payload ++ CRLF ++ bytes "END" ++ CRLF.

(** The [n] low bytes of [v], most significant first: a field in network
    byte order. *)
Definition be_bytes (n : nat) (v : Z) : list byte := rev (le_bytes n v).

(** Binary response headers: a miss (status 1, a body of 9 bytes), and a
    hit with 4 bytes of extras, a value of 5 bytes and the cas token
    0x0102030405060708. *)
Definition not_found_header : list byte :=
  [x81; x00; x00; x00; x00; x00; x00; x01; x00; x00; x00; x09;
   x00; x00; x00; x00; x00; x00; x00; x00; x00; x00; x00; x00].

Definition hit_header : list byte :=
  [x81; x00; x00; x00; x04; x00; x00; x00; x00; x00; x00; x09;
   x00; x00; x00; x00; x01; x02; x03; x04; x05; x06; x07; x08].

(** A connection whose scratch buffer still holds the response of an
    earlier fetch of the key [k], which held "hello" then. *)
Definition warm_server : Server :=
  mkServer 3 None "localhost:11211"
    (value_response (bytes "k") (bytes "0") (bytes "5") (bytes "hello") ++ repeat NUL 39)
    64.

(** The key [k] now holds "bye"; the response comes in two reads, cut
    after the key. *)
Definition bye_world : World :=
  mkWorld [RecvData (bytes "VALUE k");
           RecvData (bytes " 1 3" ++ CRLF ++ bytes "bye" ++ CRLF ++ bytes "END" ++ CRLF)]
    [] [] 0 1024.

(** A read that fails or brings fewer than the 4 bytes of the flags. *)
Definition short_read (ev : recv_event) : Prop :=
  match ev with
  | RecvData bs => len bs < 4
  | RecvErr _ => True
  end.

(** A server that declines a store, and the connection after it. *)
Definition declining_world : World :=
  mkWorld [RecvData (bytes "NOT_STORED" ++ CRLF)] [] [] 0 1024.

Definition declined_server : Server :=
  mkServer 3 (Some "Item NOT stored"%string) "localhost:11211"
    (bytes "NOT_STORED" ++ CRLF ++ repeat NUL 52) 64.

Definition declined_world : World :=
  mkWorld [] [] (bytes "add k 0 60 5" ++ CRLF ++ bytes "hello" ++ CRLF) 0 1024.

(** The memory [item->data] points to (nothing for the null pointer). *)
Definition data_mem (item : Item) : list byte :=
  match data item with Some d => d | None => [] end.

(** The bytes a call put on the wire: what [w'] holds beyond [w]. *)
Definition sent (w w' : World) : list byte :=
  skipn (List.length (wire w)) (wire w').

(** The whole message of a binary store: request, key, value. *)
Definition binary_store_message (cmd : StoreCommand) (item : Item) : list byte :=
  request_set_bytes (binary_store_request cmd item)
  ++ firstn (Z.to_nat (u16 (keylen item))) (key_mem item)
  ++ firstn (Z.to_nat (size item)) (data_mem item).

(** The status and body length fields of a response header as the host
    reads them from its 24 bytes, and the body length they announce. *)
Definition status_field (hdr : list byte) : Z := le_val (slice hdr 6 2).
Definition bodylen_field (hdr : list byte) : Z := le_val (slice hdr 8 4).
Definition announced_body (hdr : list byte) : Z := ntohl (bodylen_field hdr).

(** The item with other flags. *)
Definition with_flags (it : Item) (f : Z) : Item :=
  mkItem (key it) (keylen it) (data it) (size it) f (exptime it) (cas_id it).

(** A server that rejects a store with status 1 and the 9-byte message
    "Not found"; the next response follows in the stream. *)
Definition rejecting_world : World :=
  mkWorld [RecvData not_found_header; RecvData (bytes "Not "); RecvErr EINTR;
           RecvData (bytes "foundNEXT")] [SendAccept 3] [] 0 1024.

(** A server that accepts a store, and one that answers a fetch of the
    key [k] with "hello" and the cas token 0x0102030405060708. *)
Definition accepting_world : World :=
  mkWorld [RecvData success_header] [SendAccept 3] [] 0 1024.

Definition hit_world : World :=
  mkWorld [RecvData hit_header; RecvData ([x00; x00; x00; x07] ++ bytes "he");
           RecvErr EINTR; RecvData (bytes "llo")] [] [] 0 1024.

(** A peer that floods the 8-byte buffer of [small_server] with a line of
    twelve letters, at once or in two reads, and a transport that breaks
    after three bytes. *)
Definition flood_world : World :=
  mkWorld [RecvData (bytes "aaaaaaaaaaaa")] [] [] 0 1024.

Definition trickled_flood_world : World :=
  mkWorld [RecvData (bytes "aaa"); RecvData (bytes "aaaaaaaaa")] [] [] 0 1024.

Definition broken_pipe_world : World :=
  mkWorld [RecvData (bytes "abc"); RecvErr EINTR; RecvErr ECONNRESET]
    [SendAccept 3; SendErr EINTR; SendErr EPIPE] [] 0 1024.

(** ** Connecting, and the external interface

    The functions below open connections and keep the handle.  What the
    system answers to the calls they make is an argument: one
    connection attempt and one address lookup at most happen per call of
    the interface.  The lines a call writes to [stderr] are returned with
    its result. *)

(** The results of [socket], [setsockopt] and [connect] in one
    connection attempt, each with the [errno] it leaves on failure. *)
Record attempt : Type := mkAttempt {
  socket_ret : Z;
  socket_errno : Z;
  setsockopt_ret : Z;
  setsockopt_errno : Z;
  connect_ret : Z;
  connect_errno : Z
}.

(** [perror(s)]: the line it writes. *)
Definition perror (s : string) (e : Z) : string := (s ++ ": " ++ strerror e)%string.

(**
<<
    static int server_connect(struct Server *server)
    {
       int flag = 1;
       if ((server->sock = socket(...)) == -1) {
          char errmsg[1024];
          sprintf(errmsg, "Failed to create socket: %s", strerror(errno));
          server->errmsg = strdup(errmsg);
          return -1;
       }
       if (setsockopt(server->sock, IPPROTO_TCP, TCP_NODELAY,
                      &flag, sizeof(flag)) == -1) {
          perror("Failed to set TCP_NODELAY");
       }
       if (connect(server->sock, ...) == -1) {
          char errmsg[1024];
          sprintf(errmsg, "Failed to connect socket: %s", strerror(errno));
          server->errmsg = strdup(errmsg);
          server_disconnect(server);
          return -1;
       }
       return 0;
    }
>> *)
Definition server_connect (att : attempt) (server : Server) (w : World)
  : Z * Server * World * list string :=
  let server1 := set_sock server (socket_ret att) in
  if socket_ret att =? -1 then
    let w1 := set_errno w (socket_errno att) in
    (-1, set_errmsg server1 ("Failed to create socket: " ++ strerror (errno w1)), w1, [])
  else
    let '(w1, log) :=
      if setsockopt_ret att =? -1
      then (set_errno w (setsockopt_errno att),
            [perror "Failed to set TCP_NODELAY" (setsockopt_errno att)])
      else (w, []) in
    if connect_ret att =? -1 then
      let w2 := set_errno w1 (connect_errno att) in
      (-1,
       server_disconnect
         (set_errmsg server1 ("Failed to connect socket: " ++ strerror (errno w2))),
       w2, log)
    else (0, server1, w1, log).

(** [get_server] with the index of the slot its pointer designates:
    the callers write to the server through that pointer. *)
Definition get_server_slot (char_signed : bool) (handle : Memcache) (k : cptr)
  : outcome (option (Z * Server)) :=
  if no_servers handle =? 1 then
    s <- array_get (servers handle) 0 ;; Ret (Some (0, s))
  else if 0 <? no_servers handle then
    h <- simplehash char_signed k ;;
    let idx := h mod no_servers handle in
    s <- array_get (servers handle) idx ;; Ret (Some (idx, s))
  else Ret None.

(** The handle after a write through the pointer to the slot [idx]. *)
Definition array_set {A : Type} (a : list A) (idx : Z) (x : A) : list A :=
  firstn (Z.to_nat idx) a ++ x :: skipn (S (Z.to_nat idx)) a.

Definition with_server (handle : Memcache) (idx : Z) (s : Server) : Memcache :=
  mkMemcache (array_set (servers handle) idx s) (protocol handle) (no_servers handle).

(** The string [fprintf(stderr, "%s\n", msg)] writes. *)
Definition printed (msg : option string) : string :=
  match msg with Some m => m | None => "(null)" end.

(**
<<
    int libmemc_get(struct Memcache *handle, struct Item *item) {
       struct Server* server = get_server(handle, item->key);
       if (server == NULL) {
          return -1;
       } else {
          if (server->sock == -1) {
             if (server_connect(server) == -1) {
                fprintf(stderr, "%s\n", server->errmsg);
                fflush(stderr);
                return -1;
             }
          }
          if (handle->protocol == Binary) {
             return binary_get(server, item);
          } else {
             return textual_get(server, item);
          }
       }
    }
>> *)
Definition libmemc_get (char_signed : bool) (fuel : nat) (att : attempt)
    (handle : Memcache) (item : Item) (w : World)
  : outcome (Z * Memcache * Item * World * list string) :=
  sel <- get_server_slot char_signed handle (key item) ;;
  match sel with
  | None => Ret (-1, handle, item, w, [])
  | Some (idx, server) =>
      let '(connected, server1, w1, log) :=
        if sock server =? -1 then server_connect att server w
        else (0, server, w, []) in
      if connected =? -1 then
        Ret (-1, with_server handle idx server1, item, w1,
             log ++ [printed (errmsg server1)])
      else
        '(r, server2, item1, w2) <-
          match protocol handle with
          | Binary => binary_get fuel server1 item w1
          | Textual => textual_get fuel server1 item w1
          end ;;
        Ret (r, with_server handle idx server2, item1, w2, log)
  end.

(**
<<
    static int libmemc_store(struct Memcache* handle, enum StoreCommand cmd,
                             const struct Item *item) {
       struct Server* server = get_server(handle, item->key);
       if (server == NULL) {
          return -1;
       } else {
          if (server->sock == -1) {
             if (server_connect(server) == -1) {
                return -1;
             }
          }
          if (handle->protocol == Binary) {
             return binary_store(server, cmd, item);
          } else {
             return textual_store(server, cmd, item);
          }
       }
    }
>> *)
Definition libmemc_store (char_signed : bool) (fuel : nat) (att : attempt)
    (handle : Memcache) (cmd : StoreCommand) (item : Item) (w : World)
  : outcome (Z * Memcache * World * list string) :=
  sel <- get_server_slot char_signed handle (key item) ;;
  match sel with
  | None => Ret (-1, handle, w, [])
  | Some (idx, server) =>
      let '(connected, server1, w1, log) :=
        if sock server =? -1 then server_connect att server w
        else (0, server, w, []) in
      if connected =? -1 then Ret (-1, with_server handle idx server1, w1, log)
      else
        '(r, server2, w2) <-
          match protocol handle with
          | Binary => binary_store fuel server1 cmd item w1
          | Textual => textual_store fuel server1 cmd item w1
          end ;;
        Ret (r, with_server handle idx server2, w2, log)
  end.

(** [libmemc_add], [libmemc_set] and [libmemc_replace] pass their command
    to [libmemc_store]. *)
Definition libmemc_add (char_signed : bool) (fuel : nat) (att : attempt)
    (handle : Memcache) (item : Item) (w : World) :=
  libmemc_store char_signed fuel att handle add item w.

Definition libmemc_set (char_signed : bool) (fuel : nat) (att : attempt)
    (handle : Memcache) (item : Item) (w : World) :=
  libmemc_store char_signed fuel att handle set item w.

Definition libmemc_replace (char_signed : bool) (fuel : nat) (att : attempt)
    (handle : Memcache) (item : Item) (w : World) :=
  libmemc_store char_signed fuel att handle replace item w.

(** [getaddrinfo] finds the host, or fails with the text that
    [gai_strerror] or [strerror] gives for its error. *)
Inductive lookup : Type :=
| Resolves
| LookupFails (diagnostic : string).

(**
<<
    static struct addrinfo *lookuphost(const char *hostname, in_port_t port)
    {
        struct addrinfo *ai = 0;
        ...
        if ((error = getaddrinfo(hostname, service, &hints, &ai)) != 0) {
           if (error != EAI_SYSTEM) {
              fprintf(stderr, "getaddrinfo(): %s\n", gai_strerror(error));
           } else {
              perror("getaddrinfo()");
           }
        }
        return ai;
    }
>>
    Whether the result is a non-null address list, and what was
    written to [stderr]. *)
Definition lookuphost (lk : lookup) : bool * list string :=
  match lk with
  | Resolves => (true, [])
  | LookupFails d => (false, ["getaddrinfo(): " ++ d]%string)
  end.

(** Sizes on an LP64 host, as in the rest of the model. *)
Definition INT_MAX : Z := 2 ^ 31 - 1.
Definition sizeof_Server : Z := 48.
Definition sizeof_Memcache : Z := 16.

(** [calloc(nmemb, size)] succeeds or returns the null pointer. *)
Definition calloc (w : World) (nmemb size_ : Z) : bool :=
  match malloc w (nmemb * size_) with Some _ => true | None => false end.

(**
<<
    struct Server* server_create(const char *name, in_port_t port) {
       struct addrinfo* ai = lookuphost(name, port);
       struct Server* ret = NULL;
       if (ai != NULL) {
          ret = calloc(1, sizeof(struct Server));
          if (ret != 0) {
             char buffer[1024];
             ret->sock = -1;
             ret->errmsg = 0;
             ret->addrinfo = ai;
             sprintf(buffer, "%s:%d", name, port);
             ret->peername = strdup(buffer);
             ret->buffer = malloc(65 * 1024);
             ret->buffersize = 65 * 1024;
             server_connect(ret);
             if (ret->buffer == NULL) {
                server_destroy(ret);
                ret = 0;
             }
          }
       }
       return ret;
    }
>>
    [name] is the host name as a string and [port] converts to the
    16-bit [in_port_t]; a name too long for the local [buffer] makes
    [sprintf] write past it. *)
Definition server_create (lk : lookup) (att : attempt) (name : string) (port : Z)
    (w : World) : outcome (option Server * World * list string) :=
  let '(found, log) := lookuphost lk in
  if found then
    if calloc w 1 sizeof_Server then
      let peer := (name ++ ":"
                   ++ DecimalString.NilZero.string_of_int (Z.to_int (u16 port)))%string in
      if 1024 <=? Z.of_nat (String.length peer) then Undef
      else
        let buf := malloc w (65 * 1024) in
        let ret := mkServer (-1) None peer
                     (match buf with Some b => b | None => [] end) (65 * 1024) in
        let '(_, ret1, w1, log1) := server_connect att ret w in
        match buf with
        | None => Ret (None, w1, log ++ log1)
        | Some _ => Ret (Some ret1, w1, log ++ log1)
        end
    else Ret (None, w, log)
  else Ret (None, w, log).

(**
<<
    struct Memcache* libmemc_create(enum Protocol protocol) {
       struct Memcache* ret = calloc(1, sizeof(struct Memcache));
       if (ret != NULL) {
          ret->protocol = protocol;
       }
       return ret;
    }
>> *)
Definition libmemc_create (protocol_ : Protocol) (w : World) : option Memcache :=
  if calloc w 1 sizeof_Memcache then Some (mkMemcache [] protocol_ 0) else None.

(**
<<
    int libmemc_add_server(struct Memcache *handle, const char *host, in_port_t port) {
       struct Server** servers = calloc(handle->no_servers + 1, sizeof(struct Server));
       struct Server** old = handle->servers;
       if (servers == 0) {
          return -1;
       }
       for (int ii = 0; ii < handle->no_servers; ++ii) {
          servers[ii] = handle->servers[ii];
       }
       handle->servers = servers;
       free(old);
       struct Server *server = server_create(host, port);
       if (server != NULL) {
          handle->servers[handle->no_servers++] = server;
       }
       return 0;
    }
>>
    The list [servers] holds the filled slots of the array.  The count
    converts to [size_t] for [calloc], which fails on a request that a
    negative count turns into; a count of -1 makes the last assignment
    write before the array. *)
Definition libmemc_add_server (lk : lookup) (att : attempt) (handle : Memcache)
    (host : string) (port : Z) (w : World)
  : outcome (Z * Memcache * World * list string) :=
  if INT_MAX <? no_servers handle + 1 then Undef
  else if (no_servers handle + 1 <? 0)
          || negb (calloc w (no_servers handle + 1) sizeof_Server)
  then Ret (-1, handle, w, [])
  else if len (servers handle) <? no_servers handle then Undef
  else
    let copied := firstn (Z.to_nat (no_servers handle)) (servers handle) in
    '(created, w1, log) <- server_create lk att host port w ;;
    match created with
    | Some server =>
        if no_servers handle <? 0 then Undef
        else
          Ret (0, mkMemcache (copied ++ [server]) (protocol handle) (no_servers handle + 1),
               w1, log)
    | None => Ret (0, mkMemcache copied (protocol handle) (no_servers handle), w1, log)
    end.

(** A connection attempt that fails in [socket], and one that fails in
    [connect]. *)
Definition attempt_fails (att : attempt) : Prop :=
  socket_ret att = -1 \/ connect_ret att = -1.

(** A handle with one server that is not connected. *)
Definition idle_server : Server :=
  mkServer (-1) None "localhost:11211" (repeat NUL 64) 64.

Definition idle_handle : Memcache := mkMemcache [idle_server] Textual 1.

(** An attempt whose [connect] fails. *)
Definition refused : attempt := mkAttempt 3 0 0 0 (-1) ECONNRESET.

(** A world with room for a scratch buffer, and the handle that
    [libmemc_add_server] makes of [idle_handle] there when the
    connection attempt fails. *)
Definition roomy_world : World := mkWorld [] [] [] 0 (1024 * 1024).

Definition added_server : Server :=
  mkServer (-1) (Some "Failed to connect socket: Connection reset by peer"%string)
    "cache2:11211" (repeat NUL (Z.to_nat (65 * 1024))) (65 * 1024).

Definition grown_handle : Memcache := mkMemcache [idle_server; added_server] Textual 2.

(** Two handles that differ at most in the server of the slot a key
    selects. *)
Definition same_but_selected (char_signed : bool) (k : cptr) (h h' : Memcache) : Prop :=
  protocol h' = protocol h
  /\ no_servers h' = no_servers h
  /\ List.length (servers h') = List.length (servers h)
  /\ forall idx s,
       get_server_slot char_signed h k = Ret (Some (idx, s)) ->
       forall j, j <> Z.to_nat idx -> nth_error (servers h') j = nth_error (servers h) j.



(** * Properties *)
(** *** Routing *)

Lemma array_get_in_range {A : Type} (a : list A) (idx : Z) :
  0 <= idx < len a ->
  exists x, nth_error a (Z.to_nat idx) = Some x /\ array_get a idx = Ret x.
Proof.
  intros Hi. unfold array_get.
  destruct (Z.ltb_spec idx 0); [lia|].
  destruct (nth_error a (Z.to_nat idx)) as [x|] eqn:E.
  - exists x. split; reflexivity.
  - apply nth_error_None in E. unfold len in Hi. lia.
Qed.

Lemma simplehash_loop_cstring (cs : bool) (s rest : list byte) : forall ret,
  ~ In NUL s ->
  simplehash_loop cs ret (s ++ NUL :: rest) = simplehash_loop cs ret (s ++ [NUL]).
Proof.
  induction s as [|c s IH]; intros ret Hs.
  - reflexivity.
  - cbn [app simplehash_loop].
    destruct (Byte.eqb c NUL) eqn:E.
    + reflexivity.
    + apply IH. intros Hin. apply Hs. now right.
Qed.

Lemma simplehash_loop_defined (cs : bool) (s : list byte) : forall ret,
  exists hv, simplehash_loop cs ret (s ++ [NUL]) = Ret hv.
Proof.
  induction s as [|c s IH]; intros ret.
  - exists ret. reflexivity.
  - cbn [app simplehash_loop]. destruct (Byte.eqb c NUL).
    + now exists ret.
    + apply IH.
Qed.

Lemma simplehash_cstring (cs : bool) (s rest : list byte) :
  ~ In NUL s ->
  simplehash cs (Some (s ++ NUL :: rest)) = simplehash cs (Some (s ++ [NUL])).
Proof.
  intros Hs. destruct s as [|c s].
  - reflexivity.
  - cbn [app simplehash].
    apply (simplehash_loop_cstring cs (c :: s) rest _ Hs).
Qed.

Lemma simplehash_defined (cs : bool) (s : list byte) :
  exists hv, simplehash cs (Some (s ++ [NUL])) = Ret hv.
Proof.
  destruct s as [|c s].
  - eexists. reflexivity.
  - cbn [app simplehash]. apply (simplehash_loop_defined cs (c :: s)).
Qed.

Lemma get_server_same_hash (cs : bool) (h : Memcache) (k1 k2 : cptr) :
  simplehash cs k1 = simplehash cs k2 -> get_server cs h k1 = get_server cs h k2.
Proof. unfold get_server. now intros ->. Qed.

(** C3.  The slot [get_server] selects is a function of the key and of the
    number of registered servers alone: for every key and every count there
    is one selection which every handle with that count makes, whatever the
    state of its servers or its protocol.  With one server the selection is
    slot 0 for every key; with no server it is the null pointer; otherwise
    it is a slot below the count. *)
Theorem get_server_deterministic (cs : bool) (n : Z) (k : cptr) :
  exists slot : outcome (option nat),
    (forall h, handle_ok h -> no_servers h = n ->
       get_server cs h k =
       (i <- slot ;;
        Ret (match i with Some i => nth_error (servers h) i | None => None end))
       /\ (0 < n -> get_server cs h k <> Ret None))
    /\ (n = 1 -> slot = Ret (Some 0%nat))
    /\ (n <= 0 -> slot = Ret None)
    /\ (forall i, slot = Ret (Some i) -> Z.of_nat i < n).
Proof.
  exists (if n =? 1 then Ret (Some 0%nat)
          else if 0 <? n then hv <- simplehash cs k ;; Ret (Some (Z.to_nat (hv mod n)))
          else Ret None).
  split; [|split; [|split]].
  - intros h Hok Hn. unfold handle_ok in Hok. unfold get_server. rewrite Hn.
    destruct (Z.eqb_spec n 1) as [E1|N1].
    + destruct (array_get_in_range (servers h) 0) as [x [Hx Hg]].
      { unfold len. lia. }
      rewrite Hg. cbn [bind]. change (Z.to_nat 0) with 0%nat in Hx. rewrite Hx.
      split; [reflexivity | discriminate].
    + destruct (Z.ltb_spec 0 n) as [Hpos|Hneg].
      * destruct (simplehash cs k) as [hv| | |]; cbn [bind];
          try (split; [reflexivity | discriminate]).
        destruct (array_get_in_range (servers h) (hv mod n)) as [x [Hx Hg]].
        { unfold len. pose proof (Z.mod_pos_bound hv n). lia. }
        rewrite Hg, Hx. cbn [bind]. split; [reflexivity | discriminate].
      * cbn [bind]. split; [reflexivity | lia].
  - intros ->. reflexivity.
  - intros Hn. destruct (Z.eqb_spec n 1); [lia|].
    destruct (Z.ltb_spec 0 n); [lia | reflexivity].
  - intros i. destruct (Z.eqb_spec n 1) as [E1|N1].
    + intros H. injection H as <-. lia.
    + destruct (Z.ltb_spec 0 n) as [Hpos|Hneg]; [|discriminate].
      destruct (simplehash cs k) as [hv| | |]; cbn [bind]; try discriminate.
      intros H. injection H as <-. pose proof (Z.mod_pos_bound hv n). lia.
Qed.

(** C9.  [get_server] reads the key as a NUL-terminated string: two key
    pointers whose memory agrees up to and including the first NUL select
    the same server, whatever follows the NUL and whatever [keylen] the
    items declare; the hash of such a key is defined; and the null key
    pointer hashes to 0, which selects slot 0. *)
Theorem get_server_reads_c_string (cs : bool) (h : Memcache)
    (s rest1 rest2 : list byte) (item1 item2 : Item) :
  ~ In NUL s ->
  key item1 = Some (s ++ NUL :: rest1) ->
  key item2 = Some (s ++ NUL :: rest2) ->
  get_server cs h (key item1) = get_server cs h (key item2)
  /\ (exists hv, simplehash cs (key item1) = Ret hv)
  /\ simplehash cs None = Ret 0
  /\ (handle_ok h -> 0 < no_servers h ->
      get_server cs h None = Ret (nth_error (servers h) 0)
      /\ nth_error (servers h) 0 <> None).
Proof.
  intros Hs -> ->. split; [|split; [|split]].
  - apply get_server_same_hash.
    rewrite (simplehash_cstring cs s rest1), (simplehash_cstring cs s rest2) by assumption.
    reflexivity.
  - rewrite simplehash_cstring by assumption. apply simplehash_defined.
  - reflexivity.
  - intros Hok Hpos. unfold handle_ok in Hok.
    destruct (array_get_in_range (servers h) 0) as [x [Hx Hg]].
    { unfold len. lia. }
    change (Z.to_nat 0) with 0%nat in Hx.
    unfold get_server. cbn [simplehash bind].
    destruct (Z.eqb_spec (no_servers h) 1).
    + rewrite Hg, Hx. cbn [bind]. split; [reflexivity | discriminate].
    + destruct (Z.ltb_spec 0 (no_servers h)); [|lia].
      rewrite Z.mod_0_l by lia. rewrite Hg, Hx. cbn [bind]. split; [reflexivity | discriminate].
Qed.

(** Two keys that differ after the NUL, on a handle with two servers. *)
Lemma get_server_reads_c_string_witness :
  get_server true two_servers (Some (bytes "key" ++ NUL :: bytes "tail"))
  = get_server true two_servers (Some (bytes "key" ++ NUL :: [])).
Proof.
  refine (proj1 (get_server_reads_c_string true two_servers (bytes "key") (bytes "tail") []
            (mkItem (Some (bytes "key" ++ NUL :: bytes "tail")) 8 None 0 0 0 0)
            (mkItem (Some (bytes "key" ++ NUL :: [])) 3 None 0 0 0 0) _ eq_refl eq_refl)).
  cbn. intros [H|[H|[H|[]]]]; discriminate H.
Defined.

(** *** The 64-bit byte swap *)

Lemma s64_mod (z : Z) : s64 z mod 2 ^ 64 = z mod 2 ^ 64.
Proof.
  unfold s64. rewrite Zminus_mod_idemp_l. f_equal. lia.
Qed.

Lemma testbit_low_mod (a b n : Z) :
  0 <= n < 64 -> a mod 2 ^ 64 = b mod 2 ^ 64 -> Z.testbit a n = Z.testbit b n.
Proof.
  intros Hn Hab.
  rewrite <- (Z.mod_pow2_bits_low a 64 n) by lia.
  rewrite <- (Z.mod_pow2_bits_low b 64 n) by lia.
  now rewrite Hab.
Qed.

Lemma testbit_s64 (z n : Z) : 0 <= n < 64 -> Z.testbit (s64 z) n = Z.testbit z n.
Proof. intros Hn. apply testbit_low_mod; [assumption | apply s64_mod]. Qed.

Lemma testbit_u64 (z n : Z) : 0 <= n < 64 -> Z.testbit (u64 z) n = Z.testbit z n.
Proof.
  intros Hn. apply testbit_low_mod; [assumption |].
  unfold u64. apply Z.mod_mod. lia.
Qed.

Lemma s64_range (z : Z) : in_s64 (s64 z).
Proof.
  unfold in_s64, s64. pose proof (Z.mod_pos_bound (z + 2 ^ 63) (2 ^ 64)). lia.
Qed.

Lemma s64_id (z : Z) : in_s64 z -> s64 z = z.
Proof.
  unfold in_s64, s64. intros H. rewrite Z.mod_small; lia.
Qed.

Lemma swap64_loop_range (k : nat) (rv inp : Z) :
  in_s64 rv -> in_s64 (swap64_loop k rv inp).
Proof.
  revert rv inp. induction k as [|k IH]; intros rv inp H; simpl.
  - assumption.
  - apply IH. apply s64_range.
Qed.

Lemma swap64_loop_bits (k : nat) : forall rv inp n,
  0 <= n < 64 ->
  Z.testbit (swap64_loop k rv inp) n =
  if n <? 8 * Z.of_nat k
  then Z.testbit inp (8 * (Z.of_nat k - 1 - n / 8) + n mod 8)
  else Z.testbit rv (n - 8 * Z.of_nat k).
Proof.
  induction k as [|k IH]; intros rv inp n Hn.
  - simpl. destruct (Z.ltb_spec n 0); [lia|]. apply f_equal; lia.
  - cbn [swap64_loop]. rewrite IH by assumption.
    pose proof (Z.div_mod n 8 ltac:(lia)) as Hdm.
    pose proof (Z.mod_pos_bound n 8 ltac:(lia)) as Hmb.
    destruct (Z.ltb_spec n (8 * Z.of_nat k)) as [Hlt|Hge].
    + destruct (Z.ltb_spec n (8 * Z.of_nat (S k))); [|lia].
      rewrite Z.shiftr_spec by lia. apply f_equal; lia.
    + rewrite testbit_s64 by lia.
      rewrite Z.lor_spec, Z.land_spec.
      change 255 with (Z.ones 8).
      rewrite Z.testbit_ones_nonneg by lia.
      destruct (Z.ltb_spec n (8 * Z.of_nat (S k))) as [Hlt'|Hge'].
      * rewrite Z.shiftl_spec by lia.
        rewrite (Z.testbit_neg_r rv) by lia.
        destruct (Z.ltb_spec (n - 8 * Z.of_nat k) 8); [|lia].
        rewrite andb_true_r, orb_false_l. apply f_equal; lia.
      * rewrite Z.shiftl_spec by lia.
        destruct (Z.ltb_spec (n - 8 * Z.of_nat k) 8); [lia|].
        rewrite andb_false_r, orb_false_r. apply f_equal; lia.
Qed.

Lemma swap64_bits (x n : Z) :
  0 <= n < 64 -> Z.testbit (swap64 x) n = Z.testbit x (8 * (7 - n / 8) + n mod 8).
Proof.
  intros Hn. unfold swap64. rewrite swap64_loop_bits by assumption.
  change (8 * Z.of_nat 8) with 64.
  destruct (Z.ltb_spec n 64); [|lia]. reflexivity.
Qed.

Lemma swap64_range (x : Z) : in_s64 (swap64 x).
Proof. apply swap64_loop_range. unfold in_s64. lia. Qed.

Lemma byte_at_bits (i x n : Z) :
  0 <= i -> 0 <= n -> Z.testbit (byte_at i x) n = Z.testbit x (n + 8 * i) && (n <? 8).
Proof.
  intros Hi Hn. unfold byte_at. rewrite Z.land_spec, Z.shiftr_spec by lia.
  change 255 with (Z.ones 8). now rewrite Z.testbit_ones_nonneg by lia.
Qed.

Lemma byte_at_swap64 (i x : Z) :
  0 <= i < 8 -> byte_at i (swap64 x) = byte_at (7 - i) x.
Proof.
  intros Hi. apply Z.bits_inj'. intros n Hn.
  rewrite !byte_at_bits by lia.
  destruct (Z.ltb_spec n 8) as [Hlt|Hge].
  - rewrite !andb_true_r. rewrite swap64_bits by lia. f_equal.
    replace (n + 8 * i) with (n + i * 8) by lia.
    rewrite Z.div_add, Z.mod_add by lia.
    rewrite Z.div_small, Z.mod_small by lia. lia.
  - now rewrite !andb_false_r.
Qed.

Lemma testbit_high_s64 (z n : Z) : in_s64 z -> 63 <= n -> Z.testbit z n = Z.testbit z 63.
Proof.
  unfold in_s64. intros Hz Hn.
  destruct (Z.neg_nonneg_cases z) as [Hneg|Hpos].
  - assert (Hl : 0 <= Z.lnot z < 2 ^ 63) by (unfold Z.lnot; lia).
    assert (Ez : z = Z.lnot (Z.lnot z)) by (symmetry; apply Z.lnot_involutive).
    generalize dependent (Z.lnot z). intros y Hy Ez. subst z.
    rewrite !Z.lnot_spec by lia. apply f_equal.
    destruct (Z.eq_dec y 0) as [E|NE].
    + rewrite E. now rewrite !Z.bits_0.
    + rewrite !Z.bits_above_log2; try reflexivity; try lia.
      all: assert (Z.log2 y < 63) by (apply Z.log2_lt_pow2; lia); lia.
  - destruct (Z.eq_dec z 0) as [E|NE].
    + rewrite E. now rewrite !Z.bits_0.
    + rewrite !Z.bits_above_log2; try reflexivity; try lia.
      all: assert (Z.log2 z < 63) by (apply Z.log2_lt_pow2; lia); lia.
Qed.

Lemma bits_eq_s64 (a b : Z) :
  in_s64 a -> in_s64 b ->
  (forall n, 0 <= n < 64 -> Z.testbit a n = Z.testbit b n) -> a = b.
Proof.
  intros Ha Hb H. apply Z.bits_inj'. intros n Hn.
  destruct (Z.lt_ge_cases n 64) as [Hlt|Hge].
  - apply H. lia.
  - rewrite (testbit_high_s64 a n), (testbit_high_s64 b n) by (assumption || lia).
    apply H. lia.
Qed.

Lemma swap64_involutive (x : Z) : in_s64 x -> swap64 (swap64 x) = x.
Proof.
  intros Hx. apply bits_eq_s64; [apply swap64_range | assumption |].
  intros n Hn.
  pose proof (Z.div_mod n 8 ltac:(lia)) as Hdm.
  pose proof (Z.mod_pos_bound n 8 ltac:(lia)) as Hmb.
  assert (Hq : 0 <= n / 8 < 8) by (split; [apply Z.div_pos; lia | apply Z.div_lt_upper_bound; lia]).
  rewrite swap64_bits by lia.
  rewrite swap64_bits by lia.
  apply f_equal.
  replace (8 * (7 - n / 8) + n mod 8) with (n mod 8 + (7 - n / 8) * 8) by lia.
  rewrite Z.div_add, Z.mod_add by lia.
  rewrite Z.div_small, Z.mod_small by lia. lia.
Qed.

(** *** Bytes on the wire *)

Lemma byte_val_range (b : byte) : 0 <= byte_val b < 256.
Proof.
  unfold byte_val. pose proof (Byte.to_N_bounded b). lia.
Qed.

Lemma byte_val_byte_of_Z (z : Z) : byte_val (byte_of_Z z) = z mod 256.
Proof.
  unfold byte_of_Z, byte_val.
  pose proof (Z.mod_pos_bound z 256 ltac:(lia)) as Hb.
  destruct (Byte.of_N (Z.to_N (z mod 256))) as [b|] eqn:E.
  - apply Byte.to_of_N in E. rewrite E. lia.
  - apply Byte.of_N_None_iff in E. lia.
Qed.

Lemma byte_of_Z_byte_val (b : byte) : byte_of_Z (byte_val b) = b.
Proof.
  unfold byte_of_Z. rewrite Z.mod_small by apply byte_val_range.
  unfold byte_val. rewrite N2Z.id. now rewrite Byte.of_to_N.
Qed.

Lemma byte_of_Z_mod (a b : Z) : a mod 256 = b mod 256 -> byte_of_Z a = byte_of_Z b.
Proof. unfold byte_of_Z. now intros ->. Qed.

Lemma byte_at_0_mod (x : Z) : byte_at 0 x = x mod 256.
Proof.
  unfold byte_at. rewrite Z.shiftr_0_r. change 255 with (Z.ones 8).
  now rewrite Z.land_ones by lia.
Qed.

Lemma byte_at_range (i x : Z) : 0 <= byte_at i x < 256.
Proof.
  unfold byte_at. change 255 with (Z.ones 8). rewrite Z.land_ones by lia.
  apply Z.mod_pos_bound. lia.
Qed.

Lemma byte_at_shiftr (i x : Z) : 0 <= i -> byte_at i (Z.shiftr x 8) = byte_at (i + 1) x.
Proof.
  intros Hi. unfold byte_at. rewrite Z.shiftr_shiftr by lia.
  do 2 f_equal. lia.
Qed.

Lemma le_bytes_byte_at (n : nat) : forall v,
  le_bytes n v = map (fun i => byte_of_Z (byte_at (Z.of_nat i) v)) (seq 0 n).
Proof.
  induction n as [|n IH]; intros v.
  - reflexivity.
  - cbn [le_bytes seq map]. f_equal.
    + apply byte_of_Z_mod. change (Z.of_nat 0) with 0.
      rewrite byte_at_0_mod. now rewrite Z.mod_mod by lia.
    + rewrite IH, <- seq_shift, map_map. apply map_ext. intros i.
      rewrite byte_at_shiftr by lia. do 2 f_equal. lia.
Qed.

Lemma byte_at_low_mod (i a b : Z) :
  0 <= i < 8 -> a mod 2 ^ 64 = b mod 2 ^ 64 -> byte_at i a = byte_at i b.
Proof.
  intros Hi Hab. apply Z.bits_inj'. intros n Hn.
  rewrite !byte_at_bits by lia.
  destruct (Z.ltb_spec n 8).
  - rewrite !andb_true_r. apply testbit_low_mod; [lia | assumption].
  - now rewrite !andb_false_r.
Qed.

Lemma byte_at_wire_cas (i c : Z) :
  0 <= i < 8 -> byte_at i (u64 (swap64 (s64 c))) = byte_at (7 - i) c.
Proof.
  intros Hi.
  rewrite (byte_at_low_mod i (u64 (swap64 (s64 c))) (swap64 (s64 c))) by
    (try assumption; unfold u64; apply Z.mod_mod; lia).
  rewrite byte_at_swap64 by assumption.
  apply byte_at_low_mod; [lia | apply s64_mod].
Qed.

(** The cas field as laid out in memory is the token byte-reversed. *)
Lemma cas_wire_bytes (c : Z) :
  le_bytes 8 (u64 (swap64 (s64 c))) = rev (le_bytes 8 c).
Proof.
  rewrite !le_bytes_byte_at. cbn [seq map rev app].
  rewrite !byte_at_wire_cas by (cbn; lia).
  reflexivity.
Qed.

Lemma le_val_le_bytes (n : nat) : forall v,
  0 <= v < 2 ^ (8 * Z.of_nat n) -> le_val (le_bytes n v) = v.
Proof.
  induction n as [|n IH]; intros v Hv.
  - cbn in *. lia.
  - cbn [le_bytes le_val]. rewrite byte_val_byte_of_Z.
    rewrite IH.
    + rewrite Z.shiftr_div_pow2 by lia. change (2 ^ 8) with 256.
      pose proof (Z.div_mod v 256 ltac:(lia)). lia.
    + rewrite Z.shiftr_div_pow2 by lia. change (2 ^ 8) with 256.
      replace (8 * Z.of_nat (S n)) with (8 + 8 * Z.of_nat n) in Hv by lia.
      rewrite Z.pow_add_r in Hv by lia. change (2 ^ 8) with 256 in Hv.
      split; [apply Z.div_pos; lia | apply Z.div_lt_upper_bound; lia].
Qed.

Lemma le_bytes_le_val (bs : list byte) : le_bytes (List.length bs) (le_val bs) = bs.
Proof.
  induction bs as [|b bs IH].
  - reflexivity.
  - cbn [List.length le_bytes le_val].
    pose proof (byte_val_range b) as Hb. f_equal.
    + rewrite <- (byte_of_Z_byte_val b) at 2. apply byte_of_Z_mod.
      replace (byte_val b + 256 * le_val bs) with (byte_val b + le_val bs * 256) by lia.
      now rewrite Z.mod_add by lia.
    + rewrite Z.shiftr_div_pow2 by lia. change (2 ^ 8) with 256.
      replace (byte_val b + 256 * le_val bs) with (byte_val b + le_val bs * 256) by lia.
      rewrite Z.div_add by lia.
      rewrite Z.div_small by lia. now rewrite Z.add_0_l.
Qed.

(** Decoding: the token read from the header is the big-endian value of
    the eight bytes on the wire. *)
Lemma cas_of_wire_bytes (bs : list byte) :
  List.length bs = 8%nat -> u64 (swap64 (s64 (le_val bs))) = le_val (rev bs).
Proof.
  intros Hl.
  rewrite <- (le_val_le_bytes 8 (u64 (swap64 (s64 (le_val bs))))).
  - rewrite cas_wire_bytes. rewrite <- Hl. now rewrite le_bytes_le_val.
  - unfold u64. change (2 ^ (8 * Z.of_nat 8)) with (2 ^ 64).
    apply Z.mod_pos_bound. lia.
Qed.

Lemma binary_get_response_cas fuel server item response w server' item' w' :
  binary_get_response fuel server item response w = Ret (0, server', item', w') ->
  cas_id item' = u64 (swap64 (s64 (rsp_cas response))).
Proof.
  unfold binary_get_response.
  destruct (rsp_status response =? 0).
  - match goal with
    | |- context [match data ?it with Some _ => _ | None => Ret (-1, _, _, _) end] =>
        destruct (data it) as [mem|]
    end; [|discriminate].
    destruct (binary_get_payload _ _ _ _ _ _ _) as [[[s1 m1] w1]| | |]; simpl; try discriminate.
    intros H. inversion H; subst. reflexivity.
  - destruct (malloc _ _); [|discriminate].
    destruct (mem_write _ _ _); simpl; try discriminate.
    destruct (server_receive _ _ _ _ _ _) as [[[[r s1] b1] w1]| | |]; simpl; discriminate.
Qed.


(** *** The binary store request *)

Lemma length_le_bytes (n : nat) : forall v, List.length (le_bytes n v) = n.
Proof. induction n as [|n IH]; intros v; cbn [le_bytes List.length]; [reflexivity | now rewrite IH]. Qed.

Lemma length_request_header_bytes (h : request_header) :
  List.length (request_header_bytes h) = 24%nat.
Proof.
  unfold request_header_bytes. rewrite !length_app, !length_le_bytes. reflexivity.
Qed.

Lemma byte_at_htonl (i x : Z) : 0 <= i < 4 -> byte_at i (htonl x) = byte_at (3 - i) x.
Proof.
  intros Hi. apply Z.bits_inj'. intros n Hn.
  rewrite (byte_at_bits i) by lia. rewrite (byte_at_bits (3 - i)) by lia.
  destruct (Z.ltb_spec n 8) as [Hlt|Hge]; [|now rewrite !andb_false_r].
  rewrite !andb_true_r. unfold htonl.
  rewrite !Z.lor_spec, !Z.shiftl_spec by lia.
  assert (Hcase : i = 0 \/ i = 1 \/ i = 2 \/ i = 3) by lia.
  destruct Hcase as [->|[->|[->| ->]]].
  all: repeat match goal with
       | |- context [Z.testbit (byte_at ?j ?y) ?m] =>
           first [ rewrite (Z.testbit_neg_r (byte_at j y) m) by lia
                 | rewrite (byte_at_bits j y m) by lia ]
       end.
  all: repeat match goal with
       | |- context [?a <? 8] => destruct (Z.ltb_spec a 8); try lia
       end.
  all: rewrite ?andb_true_r, ?andb_false_r, ?orb_false_r, ?orb_false_l.
  all: apply f_equal; lia.
Qed.

Lemma byte_at_u32 (i x : Z) : 0 <= i < 4 -> byte_at i (u32 x) = byte_at i x.
Proof.
  intros Hi. apply Z.bits_inj'. intros n Hn.
  rewrite !byte_at_bits by lia.
  destruct (Z.ltb_spec n 8); [|now rewrite !andb_false_r].
  rewrite !andb_true_r. unfold u32. apply Z.mod_pow2_bits_low. lia.
Qed.

(** A 32-bit field filled with [htonl] lies in memory most significant
    byte first. *)
Lemma htonl_wire_bytes (x : Z) : le_bytes 4 (htonl (u32 x)) = rev (le_bytes 4 x).
Proof.
  rewrite !le_bytes_byte_at. cbn [seq map rev app].
  change (Z.of_nat 0) with 0; change (Z.of_nat 1) with 1;
  change (Z.of_nat 2) with 2; change (Z.of_nat 3) with 3.
  rewrite (byte_at_htonl 0), (byte_at_htonl 1), (byte_at_htonl 2), (byte_at_htonl 3) by lia.
  change (3 - 0) with 3; change (3 - 1) with 2; change (3 - 2) with 1; change (3 - 3) with 0.
  rewrite (byte_at_u32 0), (byte_at_u32 1), (byte_at_u32 2), (byte_at_u32 3) by lia.
  reflexivity.
Qed.

Lemma slice_app_skip (a b : list byte) (off n : nat) :
  List.length a = off -> slice (a ++ b) off n = firstn n b.
Proof.
  intros <-. unfold slice. rewrite skipn_app, skipn_all, Nat.sub_diag. reflexivity.
Qed.

Lemma firstn_app_exact (a b : list byte) (n : nat) :
  List.length a = n -> firstn n (a ++ b) = a.
Proof.
  intros <-. rewrite firstn_app, firstn_all, Nat.sub_diag, firstn_O. apply app_nil_r.
Qed.

Lemma request_set_flags_bytes (r : request_set) :
  slice (request_set_bytes r) 24 4 = le_bytes 4 (body_flags r).
Proof.
  unfold request_set_bytes.
  rewrite slice_app_skip by apply length_request_header_bytes.
  apply firstn_app_exact, length_le_bytes.
Qed.

Lemma request_set_expiration_bytes (r : request_set) :
  slice (request_set_bytes r) 28 4 = le_bytes 4 (body_expiration r).
Proof.
  unfold request_set_bytes. rewrite app_assoc.
  rewrite slice_app_skip.
  - rewrite <- (app_nil_r (le_bytes 4 (body_expiration r))) at 1.
    apply firstn_app_exact, length_le_bytes.
  - rewrite length_app, length_request_header_bytes, length_le_bytes. reflexivity.
Qed.

Lemma length_request_set_bytes (r : request_set) :
  List.length (request_set_bytes r) = 32%nat.
Proof.
  unfold request_set_bytes.
  rewrite !length_app, length_request_header_bytes, !length_le_bytes. reflexivity.
Qed.

Lemma mem_read_all (mem : list byte) (n : Z) :
  len mem = n -> mem_read mem 0 n = Ret mem.
Proof.
  intros <-. unfold mem_read, len.
  destruct (Z.leb_spec 0 0); [|lia].
  destruct (Z.leb_spec 0 (Z.of_nat (List.length mem))); [|lia].
  destruct (Z.leb_spec (0 + Z.of_nat (List.length mem)) (Z.of_nat (List.length mem))); [|lia].
  cbn [andb]. rewrite Nat2Z.id. change (Z.to_nat 0) with 0%nat.
  cbn [skipn]. now rewrite firstn_all.
Qed.

(** The flags and expiration bytes of the gathered request. *)
Lemma binary_store_request_body_bytes (cmd : StoreCommand) (item : Item) (msg : list byte) :
  gather (binary_store_iovec cmd item) = Ret msg ->
  body_flags (binary_store_request cmd item) = 0
  /\ slice msg 24 4 = [x00; x00; x00; x00]
  /\ body_expiration (binary_store_request cmd item) = htonl (u32 (exptime item))
  /\ slice msg 28 4 = rev (le_bytes 4 (exptime item)).
Proof.
  unfold binary_store_iovec. cbn [gather iov_base iov_len].
  rewrite mem_read_all by (unfold len; now rewrite length_request_set_bytes).
  cbn [bind].
  pose proof (request_set_flags_bytes (binary_store_request cmd item)) as Hflags.
  pose proof (request_set_expiration_bytes (binary_store_request cmd item)) as Hexp.
  pose proof (length_request_set_bytes (binary_store_request cmd item)) as Hlen.
  assert (Hf : le_bytes 4 (body_flags (binary_store_request cmd item)) = [x00; x00; x00; x00])
    by reflexivity.
  assert (He : le_bytes 4 (body_expiration (binary_store_request cmd item))
               = rev (le_bytes 4 (exptime item))) by apply htonl_wire_bytes.
  rewrite Hf in Hflags. rewrite He in Hexp. clear Hf He.
  remember (request_set_bytes (binary_store_request cmd item)) as rb eqn:Hrb.
  clear Hrb.
  destruct (mem_read (key_mem item) 0 (u16 (keylen item))) as [kb| | |]; cbn [bind]; try discriminate.
  destruct (mem_read _ 0 (size item)) as [db| | |]; cbn [bind]; try discriminate.
  intros H. injection H as <-.
  assert (Hs : forall off n, (off + n <= 32)%nat ->
            slice (rb ++ kb ++ db ++ []) off n = slice rb off n).
  { intros off n Hle. unfold slice. rewrite skipn_app, firstn_app.
    rewrite length_skipn, Hlen.
    replace (n - (32 - off))%nat with 0%nat by lia.
    rewrite firstn_O. apply app_nil_r. }
  split; [reflexivity|]. split; [|split; [reflexivity|]].
  - rewrite Hs by lia. exact Hflags.
  - rewrite Hs by lia. exact Hexp.
Qed.

(** *** The cas token on the wire *)

Lemma slice_middle (pre x post : list byte) (off n : nat) :
  List.length pre = off -> List.length x = n -> slice (pre ++ x ++ post) off n = x.
Proof.
  intros Hp Hx. rewrite slice_app_skip by exact Hp. now apply firstn_app_exact.
Qed.

Lemma request_set_cas_bytes (r : request_set) :
  slice (request_set_bytes r) 16 8 = le_bytes 8 (req_cas (set_header r)).
Proof.
  unfold request_set_bytes, request_header_bytes.
  set (h := set_header r).
  replace ((le_bytes 1 (req_magic h) ++ le_bytes 1 (req_opcode h)
            ++ le_bytes 2 (req_keylen h) ++ le_bytes 1 (req_extlen h)
            ++ le_bytes 1 (req_datatype h) ++ le_bytes 2 (req_reserved h)
            ++ le_bytes 4 (req_bodylen h) ++ le_bytes 4 (req_opaque h)
            ++ le_bytes 8 (req_cas h))
           ++ le_bytes 4 (body_flags r) ++ le_bytes 4 (body_expiration r))
    with ((le_bytes 1 (req_magic h) ++ le_bytes 1 (req_opcode h)
           ++ le_bytes 2 (req_keylen h) ++ le_bytes 1 (req_extlen h)
           ++ le_bytes 1 (req_datatype h) ++ le_bytes 2 (req_reserved h)
           ++ le_bytes 4 (req_bodylen h) ++ le_bytes 4 (req_opaque h))
          ++ le_bytes 8 (req_cas h)
          ++ le_bytes 4 (body_flags r) ++ le_bytes 4 (body_expiration r))
    by (repeat rewrite <- app_assoc; reflexivity).
  apply slice_middle.
  - rewrite !length_app, !length_le_bytes. reflexivity.
  - apply length_le_bytes.
Qed.

Lemma length_slice (bs : list byte) (off n : nat) :
  (off + n <= List.length bs)%nat -> List.length (slice bs off n) = n.
Proof.
  intros H. unfold slice. rewrite length_firstn, length_skipn. lia.
Qed.

(** [swap64] is a full 8-byte reversal of a 64-bit value, hence an
    involution. *)
Lemma swap64_reverses_bytes (x : Z) :
  in_s64 x ->
  (forall i, 0 <= i < 8 -> byte_at i (swap64 x) = byte_at (7 - i) x)
  /\ swap64 (swap64 x) = x.
Proof.
  intros Hx. split.
  - intros i Hi. now apply byte_at_swap64.
  - now apply swap64_involutive.
Qed.

Example swap64_is_not_a_32_bit_swap :
  swap64 72623859790382856 <> swap_halves 72623859790382856.
Proof. vm_compute. discriminate. Qed.

(** *** Gathered writes *)

Lemma len_nonneg {A : Type} (l : list A) : 0 <= len l.
Proof. unfold len. lia. Qed.

Lemma len_app {A : Type} (a b : list A) : len (a ++ b) = len a + len b.
Proof. unfold len. rewrite length_app. lia. Qed.

Lemma len_firstn {A : Type} (n : Z) (l : list A) :
  0 <= n <= len l -> len (firstn (Z.to_nat n) l) = n.
Proof. unfold len. intros H. rewrite length_firstn. lia. Qed.

Lemma len_iov_data (v : iovec) : iov_ok v -> len (iov_data v) = iov_len v.
Proof. intros H. apply len_firstn. exact H. Qed.

Lemma mem_read_prefix (mem : list byte) (n : Z) :
  0 <= n <= len mem -> mem_read mem 0 n = Ret (firstn (Z.to_nat n) mem).
Proof.
  intros H. unfold mem_read.
  destruct (Z.leb_spec 0 0); [|lia].
  destruct (Z.leb_spec 0 n); [|lia].
  destruct (Z.leb_spec (0 + n) (len mem)); [|lia].
  reflexivity.
Qed.

Lemma gather_ok (iov : list iovec) : Forall iov_ok iov -> gather iov = Ret (message iov).
Proof.
  induction 1 as [|v rest Hv _ IH].
  - reflexivity.
  - cbn [gather]. rewrite mem_read_prefix by exact Hv. cbn [bind].
    rewrite IH. reflexivity.
Qed.

Lemma fold_left_iov_len (iov : list iovec) : forall acc,
  Forall iov_ok iov ->
  fold_left (fun a v => a + iov_len v) iov acc = acc + len (message iov).
Proof.
  induction iov as [|v rest IH]; intros acc Hok.
  - cbn. unfold len. cbn. lia.
  - inversion Hok as [|? ? Hv Hrest]; subst.
    cbn [fold_left]. rewrite IH by assumption.
    unfold message. cbn [map List.concat]. rewrite len_app, len_iov_data by assumption.
    fold (message rest). lia.
Qed.

Lemma iov_total_message (iov : list iovec) :
  Forall iov_ok iov -> iov_total iov = len (message iov).
Proof. intros H. unfold iov_total. now rewrite fold_left_iov_len. Qed.

Lemma message_cons (v : iovec) (rest : list iovec) :
  message (v :: rest) = iov_data v ++ message rest.
Proof. reflexivity. Qed.

(** Stepping over [sent] bytes leaves exactly the unsent suffix of the
    message in the vector. *)
Lemma sendv_advance_spec (iov : list iovec) : forall sent sz,
  Forall iov_ok iov ->
  0 <= sent <= len (message iov) ->
  Forall iov_ok (fst (sendv_advance iov sent sz))
  /\ message (fst (sendv_advance iov sent sz)) = skipn (Z.to_nat sent) (message iov)
  /\ snd (sendv_advance iov sent sz) = sz - sent.
Proof.
  induction iov as [|v rest IH]; intros sent sz Hok Hsent.
  - cbn in *. assert (sent = 0) by (unfold len in Hsent; cbn in Hsent; lia). subst.
    repeat split; [constructor | lia].
  - inversion Hok as [|? ? Hv Hrest]; subst.
    rewrite message_cons in *. rewrite len_app, len_iov_data in Hsent by assumption.
    pose proof Hv as Hv'. unfold iov_ok in Hv'.
    cbn [sendv_advance].
    destruct (Z.ltb_spec 0 sent) as [Hpos|Hzero].
    + destruct (Z.ltb_spec (iov_len v) sent) as [Hlt|Hge].
      * specialize (IH (sent - iov_len v) (sz - iov_len v) Hrest ltac:(lia)).
        destruct (sendv_advance rest (sent - iov_len v) (sz - iov_len v)) as [rest1 sz1].
        cbn [fst snd] in *. destruct IH as [IH1 [IH2 IH3]].
        split; [|split].
        -- constructor; [|assumption]. unfold iov_ok in *. cbn. lia.
        -- rewrite message_cons. unfold iov_data at 1. cbn [iov_len iov_base].
           change (Z.to_nat 0) with 0%nat. cbn [firstn app].
           rewrite IH2. rewrite skipn_app.
           assert (Hl : List.length (iov_data v) = Z.to_nat (iov_len v)).
           { pose proof (len_iov_data v Hv) as E. unfold len in E. lia. }
           rewrite (skipn_all2 (iov_data v)) by lia. cbn [app]. f_equal. lia.
        -- lia.
      * cbn [fst snd]. split; [|split].
        -- constructor; [|assumption]. unfold iov_ok in *. cbn [iov_len iov_base].
           unfold len in *. rewrite length_skipn. lia.
        -- rewrite message_cons. unfold iov_data at 1. cbn [iov_len iov_base].
           assert (Hl : List.length (iov_data v) = Z.to_nat (iov_len v)).
           { pose proof (len_iov_data v Hv) as E. unfold len in E. lia. }
           rewrite skipn_app.
           replace (Z.to_nat sent - List.length (iov_data v))%nat with 0%nat by lia.
           cbn [skipn]. f_equal. unfold iov_data.
           rewrite firstn_skipn_comm. do 2 f_equal. lia.
        -- reflexivity.
    + assert (sent = 0) by lia. subst. cbn [fst snd].
      change (Z.to_nat 0) with 0%nat. cbn [skipn].
      repeat split; [assumption | lia].
Qed.

Lemma sock_send_nonneg_fd (w : World) (fd : Z) (bs : list byte) :
  fd < 0 -> sock_send w fd bs = (-1, set_errno w EBADF).
Proof. intros H. unfold sock_send. destruct (Z.ltb_spec fd 0); [reflexivity | lia]. Qed.

Lemma len_eqb_m1 {A : Type} (l : list A) : (len l =? -1) = false.
Proof. apply Z.eqb_neq. pose proof (len_nonneg l). lia. Qed.

Lemma firstn_skipn_length {A : Type} (k : nat) (l : list A) :
  firstn k l ++ skipn (List.length (firstn k l)) l = l.
Proof.
  rewrite length_firstn.
  destruct (Nat.le_ge_cases k (List.length l)) as [Hle|Hge].
  - rewrite Nat.min_l by assumption. apply firstn_skipn.
  - rewrite Nat.min_r by assumption.
    rewrite firstn_all2, skipn_all by lia. apply app_nil_r.
Qed.

Lemma firstn_full_length {A : Type} (k : nat) (l : list A) :
  len (firstn k l) = len l -> firstn k l = l.
Proof.
  unfold len. rewrite length_firstn. intros H. apply firstn_all2. lia.
Qed.

Lemma len_zero_nil {A : Type} (l : list A) : len l <= 0 -> l = [].
Proof. unfold len. destruct l; cbn [List.length]; [reflexivity | lia]. Qed.

Lemma send_failed_disconnected (server : Server) (w : World) :
  sock (send_failed server w) = -1
  /\ errmsg (send_failed server w)
     = Some ("Failed to send data to server: " ++ strerror (errno w))%string.
Proof.
  unfold send_failed, server_disconnect, set_errmsg, set_sock. cbn [sock errmsg].
  destruct (Z.eqb_spec (sock server) (-1)) as [E|N]; cbn [negb sock errmsg]; auto.
Qed.

(** Every result of the loop of [server_sendv]: success with the whole
    message on the wire, or failure after a hard error, the connection
    closed and the message recorded. *)
Lemma server_sendv_loop_result (fuel : nat) : forall server iov w r s' w',
  Forall iov_ok iov ->
  server_sendv_loop fuel server iov (len (message iov)) w = Ret (r, s', w') ->
  (r = 0 /\ s' = server /\ wire w' = wire w ++ message iov)
  \/ (r = -1 /\ s' = send_failed server w' /\ errno w' <> EINTR).
Proof.
  induction fuel as [|fuel IH]; intros server iov w r s' w' Hok; [discriminate|].
  cbn [server_sendv_loop]. unfold writev.
  rewrite (gather_ok _ Hok). cbn [bind]. unfold sock_send.
  destruct (Z.ltb_spec (sock server) 0) as [Hfd|Hfd].
  { cbv beta iota. change (-1 =? -1) with true. cbv beta iota.
    cbn [errno set_errno]. change (negb (EBADF =? EINTR)) with true. cbv beta iota.
    intros H. injection H as <- <- <-. right. repeat split. cbn. discriminate. }
  destruct (net_out w) as [|[n|e] rest] eqn:Hout.
  - cbv beta iota. rewrite len_eqb_m1, Z.eqb_refl.
    intros H. injection H as <- <- <-. left. repeat split.
  - cbv beta iota. rewrite len_eqb_m1.
    destruct (Z.eqb_spec (len (firstn (Z.to_nat n) (message iov))) (len (message iov)))
      as [Hall|Hpart].
    + intros H. injection H as <- <- <-. left. repeat split.
      cbn [wire deliver set_net_out]. now rewrite (firstn_full_length _ _ Hall).
    + set (acc := firstn (Z.to_nat n) (message iov)) in *.
      assert (Hacc : 0 <= len acc <= len (message iov)).
      { unfold acc, len. rewrite length_firstn. lia. }
      destruct (sendv_advance_spec iov (len acc) (len (message iov)) Hok Hacc)
        as [Hok1 [Hmsg1 Hsz1]].
      destruct (sendv_advance iov (len acc) (len (message iov))) as [iov1 sz1].
      cbn [fst snd] in *.
      assert (Esz : sz1 = len (message iov1)).
      { rewrite Hmsg1, Hsz1. unfold len in *. rewrite length_skipn. lia. }
      destruct (Z.ltb_spec 0 sz1) as [Hpos|Hnpos]; [|lia].
      rewrite Esz. intros H. apply IH in H; [|assumption].
      destruct H as [[-> [-> Hw]]|[-> [-> Hw]]]; [left | right; now repeat split].
      repeat split. rewrite Hw, Hmsg1. cbn [wire deliver set_net_out].
      rewrite <- app_assoc. f_equal. unfold len. rewrite Nat2Z.id.
      apply firstn_skipn_length.
  - cbv beta iota. change (-1 =? -1) with true. cbv beta iota.
    cbn [errno set_errno].
    destruct (Z.eqb_spec e EINTR) as [->|Hhard]; cbn [negb].
    + destruct (Z.ltb_spec 0 (len (message iov))) as [Hpos|Hnpos].
      * intros H. apply IH in H; [|assumption]. exact H.
      * intros H. injection H as <- <- <-. left. repeat split.
        cbn [wire set_errno set_net_out].
        rewrite (len_zero_nil _ Hnpos). now rewrite app_nil_r.
    + intros H. injection H as <- <- <-. right. repeat split. exact Hhard.
Qed.

(** With no hard error in the script the loop of [server_sendv] ends, and
    ends in success. *)
Lemma server_sendv_loop_delivers (server : Server) : forall script fuel iov w,
  net_out w = script ->
  Forall send_soft script ->
  0 <= sock server ->
  Forall iov_ok iov ->
  (List.length script < fuel)%nat ->
  exists w',
    server_sendv_loop fuel server iov (len (message iov)) w = Ret (0, server, w')
    /\ wire w' = wire w ++ message iov
    /\ net_in w' = net_in w
    /\ malloc_limit w' = malloc_limit w.
Proof.
  induction script as [|ev rest IH]; intros fuel iov w Hout Hsoft Hfd Hok Hfuel;
    (destruct fuel as [|fuel]; [cbn in Hfuel; lia|]);
    cbn [server_sendv_loop]; unfold writev;
    rewrite (gather_ok _ Hok); cbn [bind]; unfold sock_send;
    (destruct (Z.ltb_spec (sock server) 0); [lia|]); rewrite Hout.
  - cbv beta iota. rewrite len_eqb_m1, Z.eqb_refl.
    eexists. split; [reflexivity|]. cbn. repeat split.
  - inversion Hsoft as [|? ? Hev Hrest]; subst. cbn [List.length] in Hfuel.
    destruct ev as [n|e].
    + cbv beta iota. rewrite len_eqb_m1.
      destruct (Z.eqb_spec (len (firstn (Z.to_nat n) (message iov))) (len (message iov)))
        as [Hall|Hpart].
      * eexists. split; [reflexivity|]. cbn [wire net_in malloc_limit deliver set_net_out].
        rewrite (firstn_full_length _ _ Hall). repeat split.
      * set (acc := firstn (Z.to_nat n) (message iov)) in *.
        assert (Hacc : 0 <= len acc <= len (message iov)).
        { unfold acc, len. rewrite length_firstn. lia. }
        destruct (sendv_advance_spec iov (len acc) (len (message iov)) Hok Hacc)
          as [Hok1 [Hmsg1 Hsz1]].
        destruct (sendv_advance iov (len acc) (len (message iov))) as [iov1 sz1].
        cbn [fst snd] in *.
        assert (Esz : sz1 = len (message iov1)).
        { rewrite Hmsg1, Hsz1. unfold len in *. rewrite length_skipn. lia. }
        destruct (Z.ltb_spec 0 sz1) as [Hpos|Hnpos]; [|lia].
        rewrite Esz.
        destruct (IH fuel iov1 (deliver (set_net_out w rest) acc)) as [w' [Hrun [Hw [Hin Hml]]]];
          try assumption; try reflexivity; try lia.
        exists w'. split; [exact Hrun|]. rewrite Hw, Hin, Hml, Hmsg1.
        cbn [wire net_in malloc_limit deliver set_net_out].
        repeat split. rewrite <- app_assoc. f_equal. unfold len. rewrite Nat2Z.id.
        apply firstn_skipn_length.
    + cbn in Hev. subst e. cbv beta iota. change (-1 =? -1) with true. cbv beta iota.
      cbn [errno set_errno]. change (negb (EINTR =? EINTR)) with false. cbv beta iota.
      destruct (Z.ltb_spec 0 (len (message iov))) as [Hpos|Hnpos].
      * destruct (IH fuel iov (set_errno (set_net_out w rest) EINTR))
          as [w' [Hrun [Hw [Hin Hml]]]]; try assumption; try reflexivity; try lia.
        exists w'. split; [exact Hrun|]. rewrite Hw, Hin, Hml. cbn. repeat split.
      * eexists. split; [reflexivity|]. cbn [wire net_in malloc_limit set_errno set_net_out].
        rewrite (len_zero_nil _ Hnpos). rewrite app_nil_r. repeat split.
Qed.

(** C5.  On a connected socket whose transport takes at least one byte
    per call, or is interrupted, [server_sendv] ends and returns 0 with the
    whole message, the concatenation of the buffers, delivered; after a
    short write the next call is issued on the unsent suffix; and under any
    transport at all the result 0 means that every byte of every buffer
    has been sent. *)
Theorem server_sendv_delivers (fuel : nat) (server : Server) (iov : list iovec)
    (w : World) :
  0 <= sock server ->
  Forall iov_ok iov ->
  (Forall send_positive (net_out w) ->
   (List.length (net_out w) < fuel)%nat ->
   exists w',
     server_sendv fuel server iov w = Ret (0, server, w')
     /\ wire w' = wire w ++ message iov)
  /\ (forall sent,
        0 <= sent <= len (message iov) ->
        message (fst (sendv_advance iov sent (iov_total iov)))
        = skipn (Z.to_nat sent) (message iov))
  /\ (forall s' w',
        server_sendv fuel server iov w = Ret (0, s', w') ->
        wire w' = wire w ++ message iov).
Proof.
  intros Hfd Hok. unfold server_sendv. rewrite (iov_total_message iov Hok).
  split; [|split].
  - intros Hpos Hfuel.
    destruct (server_sendv_loop_delivers server (net_out w) fuel iov w)
      as [w' [Hrun [Hw _]]]; try assumption; try reflexivity.
    + eapply Forall_impl; [|exact Hpos]. intros [n|e]; cbn; auto.
    + exists w'. split; assumption.
  - intros sent Hsent. now apply sendv_advance_spec.
  - intros s' w' Hrun.
    apply server_sendv_loop_result in Hrun; [|assumption].
    destruct Hrun as [[_ [_ Hw]]|[Hr _]]; [exact Hw | discriminate Hr].
Qed.

(** A transport that takes one byte per call delivers the whole request. *)
Lemma server_sendv_delivers_witness :
  exists w',
    server_sendv 8 byte_at_a_time_server get_iov byte_at_a_time_world
    = Ret (0, byte_at_a_time_server, w')
    /\ wire w' = bytes "get k" ++ CRLF.
Proof.
  refine (proj1 (server_sendv_delivers 8 byte_at_a_time_server get_iov
                   byte_at_a_time_world _ _) _ _).
  - cbn. lia.
  - repeat constructor; unfold iov_ok, len; cbn; lia.
  - repeat constructor; cbn; lia.
  - cbn. lia.
Defined.

(** *** Failures of the I/O layer *)

Lemma receive_failed_disconnected (server : Server) (w : World) :
  sock (receive_failed server w) = -1
  /\ errmsg (receive_failed server w)
     = Some ("Failed to receive data from server: " ++ strerror (errno w))%string.
Proof.
  unfold receive_failed, server_disconnect, set_errmsg, set_sock. cbn [sock errmsg].
  destruct (Z.eqb_spec (sock server) (-1)) as [E|N]; cbn [negb sock errmsg]; auto.
Qed.

Lemma protocol_error_disconnected (server : Server) :
  sock (protocol_error server) = -1
  /\ errmsg (protocol_error server) = Some "Protocol error"%string.
Proof.
  unfold protocol_error, server_disconnect, set_errmsg, set_sock. cbn [sock errmsg].
  destruct (Z.eqb_spec (sock server) (-1)) as [E|N]; cbn [negb sock errmsg]; auto.
Qed.

Lemma strchr_in (c : byte) (s : list byte) : forall k,
  strchr s c = Ret (Some k) -> In c s.
Proof.
  induction s as [|b s IH]; intros k; cbn [strchr]; [discriminate|].
  destruct (Byte.eqb b c) eqn:E.
  - intros _. left. now apply Byte.byte_dec_bl.
  - destruct (Byte.eqb b NUL); [discriminate|].
    destruct (strchr s c) as [[k'|]| | |]; cbn [bind option_map]; try discriminate.
    intros _. right. now apply (IH k').
Qed.

Lemma in_skipn {A : Type} (x : A) (n : nat) (l : list A) : In x (skipn n l) -> In x l.
Proof.
  intros H. rewrite <- (firstn_skipn n l). apply in_or_app. now right.
Qed.

Lemma ptr_add_in (mem p : list byte) (n : Z) (x : byte) :
  ptr_add mem n = Ret p -> In x p -> In x mem.
Proof.
  unfold ptr_add. destruct ((0 <=? n) && (n <=? len mem)); [|discriminate].
  intros H. injection H as <-. apply in_skipn.
Qed.

(** Every result of the loop of [server_send]. *)
Lemma server_send_loop_result (fuel : nat) : forall server dat sz offset w r s' w',
  server_send_loop fuel server dat sz offset w = Ret (r, s', w') ->
  (r = 0 /\ s' = server)
  \/ (r = -1 /\ s' = send_failed server w' /\ errno w' <> EINTR).
Proof.
  induction fuel as [|fuel IH]; intros server dat sz offset w r s' w'; [discriminate|].
  cbn [server_send_loop].
  destruct (mem_read dat offset (sz - offset)) as [bs| | |]; cbn [bind]; try discriminate.
  destruct (sock_send w (sock server) bs) as [sent w1].
  destruct (sent =? -1).
  - destruct (Z.eqb_spec (errno w1) EINTR) as [E|N]; cbn [negb].
    + destruct (offset <? sz).
      * apply IH.
      * intros H. injection H as <- <- <-. now left.
    + intros H. injection H as <- <- <-. right. now repeat split.
  - destruct (offset + sent <? sz).
    + apply IH.
    + intros H. injection H as <- <- <-. now left.
Qed.

(** Every result of the loop of [server_sendv], whatever the vector. *)
Lemma server_sendv_loop_failure (fuel : nat) : forall server iov sz w r s' w',
  server_sendv_loop fuel server iov sz w = Ret (r, s', w') ->
  (r = 0 /\ s' = server)
  \/ (r = -1 /\ s' = send_failed server w' /\ errno w' <> EINTR).
Proof.
  induction fuel as [|fuel IH]; intros server iov sz w r s' w'; [discriminate|].
  cbn [server_sendv_loop].
  destruct (writev w (sock server) iov) as [[sent w1]| | |]; cbn [bind]; try discriminate.
  destruct (sent =? -1).
  - destruct (Z.eqb_spec (errno w1) EINTR) as [E|N]; cbn [negb].
    + destruct (0 <? sz).
      * apply IH.
      * intros H. injection H as <- <- <-. now left.
    + intros H. injection H as <- <- <-. right. now repeat split.
  - destruct (sent =? sz).
    + intros H. injection H as <- <- <-. now left.
    + destruct (sendv_advance iov sent sz) as [iov1 sz1].
      destruct (0 <? sz1).
      * apply IH.
      * intros H. injection H as <- <- <-. now left.
Qed.

(** Every result of the loop of [server_receive]: the connection is
    untouched and, in line mode, a carriage return is in the buffer; or
    the call failed, on a hard error of the transport or, in line mode,
    with the buffer exhausted. *)
Lemma server_receive_loop_result (fuel : nat) :
  forall server dat sz line offset w r s' d' w',
  server_receive_loop fuel server dat sz line offset false w = Ret (r, s', d', w') ->
  (s' = server /\ (line = true -> In CR d'))
  \/ (r = SIZE_MAX
      /\ ((s' = receive_failed server w' /\ errno w' <> EINTR)
          \/ (line = true /\ s' = protocol_error server))).
Proof.
  induction fuel as [|fuel IH]; intros server dat sz line offset w r s' d' w';
    [discriminate|].
  cbn [server_receive_loop].
  destruct (recv w (sock server) (sz - offset)) as [[nread bs] w1].
  destruct (nread =? -1).
  - destruct (Z.eqb_spec (errno w1) EINTR) as [E|N]; cbn [negb].
    + destruct (Z.ltb_spec offset sz) as [Hlt|Hge]; cbn [andb].
      * apply IH.
      * unfold server_receive_end. destruct line; cbn [andb negb].
        -- intros H. injection H as <- <- <- <-. right. split; [reflexivity|].
           right. now split.
        -- intros H. injection H as <- <- <- <-. left. split; [reflexivity | discriminate].
    + intros H. injection H as <- <- <- <-. right. split; [reflexivity|].
      left. now split.
  - destruct (mem_write dat offset bs) as [dat1| | |]; cbn [bind]; try discriminate.
    destruct line.
    + destruct (ptr_add dat1 offset) as [p| | |] eqn:Hp; cbn [bind]; try discriminate.
      destruct (strchr p CR) as [[k|]| | |] eqn:Hs; cbn [bind]; try discriminate.
      * rewrite andb_false_r. unfold server_receive_end. cbn [andb negb].
        intros H. injection H as <- <- <- <-. left. split; [reflexivity|].
        intros _. eapply ptr_add_in; [exact Hp|]. eapply strchr_in; exact Hs.
      * destruct (Z.ltb_spec (offset + nread) sz) as [Hlt|Hge]; cbn [andb negb].
        -- apply IH.
        -- unfold server_receive_end. cbn [andb negb].
           intros H. injection H as <- <- <- <-. right. split; [reflexivity|].
           right. now split.
    + cbn [bind].
      destruct (Z.ltb_spec (offset + nread) sz) as [Hlt|Hge]; cbn [andb negb].
      * apply IH.
      * unfold server_receive_end. cbn [andb negb].
        intros H. injection H as <- <- <- <-. left. split; [reflexivity | discriminate].
Qed.

(** A hard error of the transport ends each loop at once, at whatever
    iteration it strikes. *)
Lemma server_send_hard_error fuel server dat sz offset w bs w1 :
  mem_read dat offset (sz - offset) = Ret bs ->
  sock_send w (sock server) bs = (-1, w1) ->
  errno w1 <> EINTR ->
  server_send_loop (S fuel) server dat sz offset w = Ret (-1, send_failed server w1, w1).
Proof.
  intros Hm Hs He. cbn [server_send_loop]. rewrite Hm. cbn [bind]. rewrite Hs.
  change (-1 =? -1) with true. cbv beta iota.
  destruct (Z.eqb_spec (errno w1) EINTR); [contradiction | reflexivity].
Qed.

Lemma server_sendv_hard_error fuel server iov sz w w1 :
  writev w (sock server) iov = Ret (-1, w1) ->
  errno w1 <> EINTR ->
  server_sendv_loop (S fuel) server iov sz w = Ret (-1, send_failed server w1, w1).
Proof.
  intros Hs He. cbn [server_sendv_loop]. rewrite Hs. cbn [bind].
  change (-1 =? -1) with true. cbv beta iota.
  destruct (Z.eqb_spec (errno w1) EINTR); [contradiction | reflexivity].
Qed.

Lemma server_receive_hard_error fuel server dat sz line offset stop w bs w1 :
  recv w (sock server) (sz - offset) = (-1, bs, w1) ->
  errno w1 <> EINTR ->
  server_receive_loop (S fuel) server dat sz line offset stop w
  = Ret (SIZE_MAX, receive_failed server w1, dat, w1).
Proof.
  intros Hr He. cbn [server_receive_loop]. rewrite Hr.
  change (-1 =? -1) with true. cbv beta iota.
  destruct (Z.eqb_spec (errno w1) EINTR); [contradiction | reflexivity].
Qed.

(** In the reliable I/O layer a call that returns a failure has
    recorded a message and closed the connection, and a hard error ends
    each loop at once with that failure, at whatever iteration it
    strikes. *)
Lemma io_failure_leaves_disconnected :
  (forall fuel server dat sz w r s' w',
     server_send fuel server dat sz w = Ret (r, s', w') ->
     (r = 0 /\ s' = server)
     \/ (r = -1 /\ sock s' = -1 /\ exists msg, errmsg s' = Some msg))
  /\ (forall fuel server iov w r s' w',
        server_sendv fuel server iov w = Ret (r, s', w') ->
        (r = 0 /\ s' = server)
        \/ (r = -1 /\ sock s' = -1 /\ exists msg, errmsg s' = Some msg))
  /\ (forall fuel server dat sz line w r s' d' w',
        server_receive fuel server dat sz line w = Ret (r, s', d', w') ->
        (s' = server /\ (line = true -> In CR d'))
        \/ (r = SIZE_MAX /\ sock s' = -1 /\ exists msg, errmsg s' = Some msg))
  /\ (forall fuel server dat sz w r s' d' w',
        server_receive fuel server dat sz true w = Ret (r, s', d', w') ->
        ~ In CR d' ->
        r = SIZE_MAX /\ sock s' = -1 /\ exists msg, errmsg s' = Some msg)
  /\ (forall fuel server dat sz offset w bs w1,
        mem_read dat offset (sz - offset) = Ret bs ->
        sock_send w (sock server) bs = (-1, w1) ->
        errno w1 <> EINTR ->
        server_send_loop (S fuel) server dat sz offset w
        = Ret (-1, send_failed server w1, w1))
  /\ (forall fuel server iov sz w w1,
        writev w (sock server) iov = Ret (-1, w1) ->
        errno w1 <> EINTR ->
        server_sendv_loop (S fuel) server iov sz w
        = Ret (-1, send_failed server w1, w1))
  /\ (forall fuel server dat sz line offset stop w bs w1,
        recv w (sock server) (sz - offset) = (-1, bs, w1) ->
        errno w1 <> EINTR ->
        server_receive_loop (S fuel) server dat sz line offset stop w
        = Ret (SIZE_MAX, receive_failed server w1, dat, w1)).
Proof.
  assert (Hrecv : forall fuel server dat sz line w r s' d' w',
            server_receive fuel server dat sz line w = Ret (r, s', d', w') ->
            (s' = server /\ (line = true -> In CR d'))
            \/ (r = SIZE_MAX /\ sock s' = -1 /\ exists msg, errmsg s' = Some msg)).
  { intros fuel server dat sz line w r s' d' w' H.
    apply server_receive_loop_result in H.
    destruct H as [H|[Hr [[-> _]|[_ ->]]]]; [now left | right | right].
    - destruct (receive_failed_disconnected server w') as [Hs Hm]. eauto.
    - destruct (protocol_error_disconnected server) as [Hs Hm]. eauto. }
  split; [|split; [|split; [|split; [|split; [|split]]]]].
  - intros fuel server dat sz w r s' w' H.
    apply server_send_loop_result in H.
    destruct H as [H|[-> [-> _]]]; [now left | right].
    destruct (send_failed_disconnected server w') as [Hs Hm]. eauto.
  - intros fuel server iov w r s' w' H.
    apply server_sendv_loop_failure in H.
    destruct H as [H|[-> [-> _]]]; [now left | right].
    destruct (send_failed_disconnected server w') as [Hs Hm]. eauto.
  - exact Hrecv.
  - intros fuel server dat sz w r s' d' w' H Hno.
    apply Hrecv in H. destruct H as [[_ Hcr]|H]; [|exact H].
    exfalso. apply Hno. now apply Hcr.
  - intros. eapply server_send_hard_error; eassumption.
  - intros. eapply server_sendv_hard_error; eassumption.
  - intros. eapply server_receive_hard_error; eassumption.
Qed.

(** A line longer than the scratch buffer, with no carriage return: the
    read fails with a protocol error and the connection is closed. *)
Example server_receive_oversized_line :
  server_receive 4 small_server (buffer small_server) (buffersize small_server) true
    oversized_world
  = Ret (SIZE_MAX, protocol_error small_server,
         bytes "aaaaaaa" ++ [NUL], set_net_in oversized_world [RecvData (bytes "tail")]).
Proof. vm_compute. reflexivity. Qed.

(** A hard error in the middle of a read. *)
Example server_receive_connection_reset :
  server_receive 4 small_server (buffer small_server) 8 false
    (mkWorld [RecvData (bytes "abc"); RecvErr ECONNRESET] [] [] 0 1024)
  = Ret (SIZE_MAX,
         mkServer (-1)
           (Some "Failed to receive data from server: Connection reset by peer"%string)
           "localhost:11211" (repeat NUL 8) 8,
         bytes "abc" ++ repeat NUL 5,
         mkWorld [] [] [] ECONNRESET 1024).
Proof. vm_compute. reflexivity. Qed.

Lemma strchr_none_nul (c : byte) (s : list byte) : strchr s c = Ret None -> In NUL s.
Proof.
  induction s as [|b s IH]; cbn [strchr]; [discriminate|].
  destruct (Byte.eqb b c); [discriminate|].
  destruct (Byte.eqb b NUL) eqn:E.
  - intros _. left. now apply Byte.byte_dec_bl.
  - destruct (strchr s c) as [[k|]| | |]; cbn [bind option_map]; try discriminate.
    intros _. right. now apply IH.
Qed.

(** A scan that meets neither the character nor a terminator leaves the
    allocation. *)
Lemma strchr_overrun (c : byte) (s : list byte) :
  ~ In c s -> ~ In NUL s -> strchr s c = Undef.
Proof.
  induction s as [|b s IH]; intros Hc Hn; cbn [strchr]; [reflexivity|].
  destruct (Byte.eqb b c) eqn:E.
  - exfalso. apply Hc. left. now apply Byte.byte_dec_bl.
  - destruct (Byte.eqb b NUL) eqn:En.
    + exfalso. apply Hn. left. now apply Byte.byte_dec_bl.
    + rewrite IH; [reflexivity | |]; intros Hin.
      * apply Hc. now right.
      * apply Hn. now right.
Qed.

(** Every result of the loop of [server_receive] in line mode. *)
Lemma server_receive_loop_line (fuel : nat) :
  forall server dat sz offset w r s' d' w',
  offset < sz ->
  server_receive_loop fuel server dat sz true offset false w = Ret (r, s', d', w') ->
  (s' = server /\ In CR d')
  \/ (r = SIZE_MAX /\ s' = receive_failed server w' /\ errno w' <> EINTR)
  \/ (r = SIZE_MAX /\ s' = protocol_error server /\ In NUL d').
Proof.
  induction fuel as [|fuel IH]; intros server dat sz offset w r s' d' w' Hoff;
    [discriminate|].
  cbn [server_receive_loop].
  destruct (recv w (sock server) (sz - offset)) as [[nread bs] w1].
  destruct (nread =? -1).
  - destruct (Z.eqb_spec (errno w1) EINTR) as [E|N]; cbn [negb].
    + destruct (Z.ltb_spec offset sz) as [Hlt|Hge]; [|lia]. cbn [andb].
      now apply IH.
    + intros H. injection H as <- <- <- <-. right. left. now repeat split.
  - destruct (mem_write dat offset bs) as [dat1| | |]; cbn [bind]; try discriminate.
    destruct (ptr_add dat1 offset) as [p| | |] eqn:Hp; cbn [bind]; try discriminate.
    destruct (strchr p CR) as [[k|]| | |] eqn:Hs; cbn [bind]; try discriminate.
    + rewrite andb_false_r. unfold server_receive_end. cbn [andb negb].
      intros H. injection H as <- <- <- <-. left. split; [reflexivity|].
      eapply ptr_add_in; [exact Hp|]. eapply strchr_in; exact Hs.
    + destruct (Z.ltb_spec (offset + nread) sz) as [Hlt|Hge]; cbn [andb negb].
      * now apply IH.
      * unfold server_receive_end. cbn [andb negb].
        intros H. injection H as <- <- <- <-. right. right.
        split; [reflexivity|]. split; [reflexivity|].
        eapply ptr_add_in; [exact Hp|]. eapply strchr_none_nul; exact Hs.
Qed.

(** The read that fills the buffer to its end with bytes that hold
    neither a carriage return nor a NUL. *)
Lemma server_receive_loop_overrun (fuel : nat) (server : Server) (dat : list byte)
    (offset : Z) (w : World) (bs : list byte) (rest : list recv_event) :
  0 <= sock server ->
  0 <= offset < len dat ->
  net_in w = RecvData bs :: rest ->
  len dat - offset <= len bs ->
  ~ In CR (firstn (Z.to_nat (len dat - offset)) bs) ->
  ~ In NUL (firstn (Z.to_nat (len dat - offset)) bs) ->
  server_receive_loop (S fuel) server dat (len dat) true offset false w = Undef.
Proof.
  intros Hfd Hoff Hin Hlen Hcr Hnul.
  cbn [server_receive_loop]. unfold recv.
  destruct (Z.ltb_spec (sock server) 0) as [Hneg|_]; [lia|].
  rewrite Hin.
  set (got := firstn (Z.to_nat (len dat - offset)) bs) in *.
  assert (Hgot : len got = len dat - offset).
  { unfold got. apply len_firstn. lia. }
  destruct (Z.eqb_spec (len got) (-1)) as [E|_]; [lia|].
  unfold mem_write.
  destruct (Z.leb_spec 0 offset) as [_|Hn]; [|lia].
  destruct (Z.leb_spec (offset + len got) (len dat)) as [_|Hn]; [|lia].
  cbn [andb bind].
  replace (offset + len got) with (len dat) by lia.
  assert (Hall : skipn (Z.to_nat (len dat)) dat = []).
  { apply skipn_all2. unfold len. lia. }
  rewrite Hall, app_nil_r.
  assert (Hpre : len (firstn (Z.to_nat offset) dat) = offset) by (apply len_firstn; lia).
  unfold ptr_add. rewrite len_app, Hpre, Hgot.
  destruct (Z.leb_spec 0 offset) as [_|Hn]; [|lia].
  destruct (Z.leb_spec offset (offset + (len dat - offset))) as [_|Hn]; [|lia].
  cbn [andb bind].
  assert (Hskip : skipn (Z.to_nat offset) (firstn (Z.to_nat offset) dat ++ got) = got).
  { rewrite skipn_app, skipn_all2 by (unfold len in Hpre; lia).
    replace (Z.to_nat offset - List.length (firstn (Z.to_nat offset) dat))%nat with 0%nat
      by (unfold len in Hpre; lia).
    reflexivity. }
  rewrite Hskip, (strchr_overrun CR got Hcr Hnul). reflexivity.
Qed.

(** C6 (defect of the code).  In line mode [server_receive] looks for the
    carriage return with [strchr] from where the last read was placed,
    and the buffer it reads into holds no terminator of its own.  The
    protocol error for a line that exhausts the buffer is therefore
    reached only when a NUL lies in the buffer: every line-mode call
    that returns has found a carriage return, met a hard error, or
    failed with "Protocol error" over a buffer that holds a NUL.  When
    the read that fills the buffer to its end brings neither a carriage
    return nor a NUL, at whatever iteration, the scan leaves the
    allocation, which is undefined behaviour, and no failure is
    reported: so for a line of twelve letters sent to a connection with
    an 8-byte buffer, at once or in two reads.  The same line with a NUL
    in it gets the protocol error, and the connection is closed. *)
Theorem server_receive_line_overruns_buffer :
  (forall fuel server dat offset w bs rest,
     0 <= sock server ->
     0 <= offset < len dat ->
     net_in w = RecvData bs :: rest ->
     len dat - offset <= len bs ->
     ~ In CR (firstn (Z.to_nat (len dat - offset)) bs) ->
     ~ In NUL (firstn (Z.to_nat (len dat - offset)) bs) ->
     server_receive_loop (S fuel) server dat (len dat) true offset false w = Undef)
  /\ (forall fuel server dat sz w r s' d' w',
        0 < sz ->
        server_receive fuel server dat sz true w = Ret (r, s', d', w') ->
        (s' = server /\ In CR d')
        \/ (r = SIZE_MAX /\ s' = receive_failed server w' /\ errno w' <> EINTR)
        \/ (r = SIZE_MAX /\ s' = protocol_error server /\ In NUL d'))
  /\ server_receive 4 small_server (buffer small_server) (buffersize small_server) true
       flood_world = Undef
  /\ server_receive 4 small_server (buffer small_server) (buffersize small_server) true
       trickled_flood_world = Undef
  /\ server_receive 4 small_server (buffer small_server) (buffersize small_server) true
       oversized_world
     = Ret (SIZE_MAX,
            mkServer (-1) (Some "Protocol error"%string) "localhost:11211"
              (repeat NUL 8) 8,
            bytes "aaaaaaa" ++ [NUL],
            set_net_in oversized_world [RecvData (bytes "tail")]).
Proof.
  split; [|split; [|split; [|split]]].
  - intros. now apply server_receive_loop_overrun with (bs := bs) (rest := rest).
  - intros fuel server dat sz w r s' d' w' Hsz H.
    now apply server_receive_loop_line in H.
  - vm_compute. reflexivity.
  - vm_compute. reflexivity.
  - vm_compute. reflexivity.
Qed.

(** *** Exact-length reads *)

Lemma mem_write_ok (dat bs : list byte) (off : Z) :
  0 <= off -> off + len bs <= len dat ->
  mem_write dat off bs
  = Ret (firstn (Z.to_nat off) dat ++ bs ++ skipn (Z.to_nat (off + len bs)) dat).
Proof.
  intros H0 H1. unfold mem_write.
  destruct (Z.leb_spec 0 off); [|lia].
  destruct (Z.leb_spec (off + len bs) (len dat)); [|lia].
  reflexivity.
Qed.

Lemma mem_write_len (dat bs d1 : list byte) (off : Z) :
  mem_write dat off bs = Ret d1 -> len d1 = len dat.
Proof.
  unfold mem_write.
  destruct (Z.leb_spec 0 off) as [H0|H0]; cbn [andb]; [|discriminate].
  destruct (Z.leb_spec (off + len bs) (len dat)) as [H1|H1]; [|discriminate].
  intros E. injection E as <-. unfold len in *.
  rewrite !length_app, length_firstn, length_skipn. lia.
Qed.

Lemma recv_eof (w : World) (fd n : Z) :
  0 <= fd -> net_in w = [] -> recv w fd n = (0, [], w).
Proof.
  intros Hfd Hin. unfold recv. destruct (Z.ltb_spec fd 0); [lia|]. now rewrite Hin.
Qed.

Lemma recv_err (w : World) (fd n e : Z) (rest : list recv_event) :
  0 <= fd -> net_in w = RecvErr e :: rest ->
  recv w fd n = (-1, [], set_errno (set_net_in w rest) e).
Proof.
  intros Hfd Hin. unfold recv. destruct (Z.ltb_spec fd 0); [lia|]. now rewrite Hin.
Qed.

Lemma recv_data (w : World) (fd n : Z) (bs : list byte) (rest : list recv_event) :
  0 <= fd -> net_in w = RecvData bs :: rest ->
  recv w fd n
  = (len (firstn (Z.to_nat n) bs), firstn (Z.to_nat n) bs,
     set_net_in w (match skipn (Z.to_nat n) bs with
                   | [] => rest
                   | _ => RecvData (skipn (Z.to_nat n) bs) :: rest
                   end)).
Proof.
  intros Hfd Hin. unfold recv. destruct (Z.ltb_spec fd 0); [lia|]. now rewrite Hin.
Qed.

Lemma stream_bytes_partial (bs : list byte) (rest : list recv_event) :
  stream_bytes (match bs with [] => rest | _ => RecvData bs :: rest end)
  = bs ++ stream_bytes rest.
Proof. destruct bs; reflexivity. Qed.

(** When the peer closes the stream before [sz] bytes have come, the loop
    of an exact-length read runs for ever: every later [recv] returns 0,
    which the loop takes for a read like any other. *)
Lemma server_receive_loop_starves (fuel : nat) : forall server dat sz offset w,
  0 <= sock server ->
  0 <= offset ->
  sz <= len dat ->
  Forall recv_soft (net_in w) ->
  offset + len (stream_bytes (net_in w)) < sz ->
  server_receive_loop fuel server dat sz false offset false w = OutOfFuel.
Proof.
  induction fuel as [|fuel IH]; intros server dat sz offset w Hfd Hoff Hsz Hsoft Hshort;
    [reflexivity|].
  cbn [server_receive_loop].
  destruct (net_in w) as [|[bs|e] rest] eqn:Hin.
  - rewrite (recv_eof w _ _ Hfd Hin). change (0 =? -1) with false. cbv beta iota.
    cbn [stream_bytes] in Hshort. change (len (@nil byte)) with 0 in *.
    rewrite mem_write_ok by (change (len (@nil byte)) with 0; lia).
    cbn [bind].
    destruct (Z.ltb_spec (offset + 0) sz); [|lia]. cbn [andb negb].
    apply IH.
    + assumption.
    + lia.
    + unfold len in *. rewrite !length_app, length_firstn, length_skipn. cbn [List.length]. lia.
    + rewrite Hin. constructor.
    + rewrite Hin. cbn [stream_bytes]. change (len (@nil byte)) with 0. lia.
  - rewrite (recv_data w _ _ bs rest Hfd Hin).
    cbn [stream_bytes] in Hshort. rewrite len_app in Hshort.
    pose proof (len_nonneg bs) as Hbs. pose proof (len_nonneg (stream_bytes rest)) as Hst.
    assert (Hall : firstn (Z.to_nat (sz - offset)) bs = bs).
    { apply firstn_all2. unfold len in *. lia. }
    assert (Hnone : skipn (Z.to_nat (sz - offset)) bs = []).
    { apply skipn_all2. unfold len in *. lia. }
    rewrite Hall, Hnone. rewrite len_eqb_m1.
    rewrite mem_write_ok by lia. cbn [bind].
    destruct (Z.ltb_spec (offset + len bs) sz); [|lia]. cbn [andb negb].
    inversion Hsoft as [|? ? _ Hrest]; subst.
    apply IH.
    + assumption.
    + lia.
    + unfold len in *. rewrite !length_app, length_firstn, length_skipn. lia.
    + cbn [net_in set_net_in]. assumption.
    + cbn [net_in set_net_in]. lia.
  - rewrite (recv_err w _ _ e rest Hfd Hin).
    inversion Hsoft as [|? ? He Hrest]; subst. cbn in He. subst e.
    change (-1 =? -1) with true. cbv beta iota. cbn [errno set_errno].
    change (negb (EINTR =? EINTR)) with false. cbv beta iota.
    cbn [stream_bytes] in Hshort. pose proof (len_nonneg (stream_bytes rest)).
    destruct (Z.ltb_spec offset sz); [|lia]. cbn [andb negb].
    apply IH.
    + assumption.
    + assumption.
    + assumption.
    + cbn [net_in set_net_in set_errno]. assumption.
    + cbn [net_in set_net_in set_errno]. assumption.
Qed.

(** The textual store loop, by contrast, takes a read of zero bytes for
    the loss of the peer. *)
Lemma textual_store_loop_lost_contact (fuel : nat) (server : Server) (offset : Z)
    (w : World) :
  0 <= sock server -> net_in w = [] ->
  textual_store_loop (S fuel) server offset w = Ret (-1, lost_contact server, w).
Proof.
  intros Hfd Hin. cbn [textual_store_loop]. rewrite (recv_eof w _ _ Hfd Hin).
  reflexivity.
Qed.

(** C10.  When the peer closes the connection before [n] bytes have
    arrived, interruptions apart, [server_receive] in exact-length mode
    does not return: whatever the fuel, the loop is still running, since a
    read of zero bytes neither ends it nor counts as an error.  The
    response loop of [textual_store] ends on the same read of zero bytes
    with the error "Lost contact with server". *)
Theorem server_receive_never_returns_after_close (server : Server) (dat : list byte)
    (n : Z) (w : World) :
  0 <= sock server ->
  n <= len dat ->
  Forall recv_soft (net_in w) ->
  len (stream_bytes (net_in w)) < n ->
  (forall fuel, server_receive fuel server dat n false w = OutOfFuel)
  /\ (forall fuel offset w0,
        net_in w0 = [] ->
        textual_store_loop (S fuel) server offset w0 = Ret (-1, lost_contact server, w0)
        /\ sock (lost_contact server) = -1
        /\ errmsg (lost_contact server) = Some "Lost contact with server"%string).
Proof.
  intros Hfd Hn Hsoft Hshort. split.
  - intros fuel. unfold server_receive.
    apply server_receive_loop_starves; try assumption; lia.
  - intros fuel offset w0 Hin. split; [now apply textual_store_loop_lost_contact|].
    unfold lost_contact, server_disconnect, set_errmsg, set_sock. cbn [sock errmsg].
    destruct (Z.eqb_spec (sock server) (-1)); cbn [negb sock errmsg]; auto.
Qed.

(** Five bytes and an interruption, then the peer closes: a read of eight
    bytes is still running after a thousand iterations. *)
Lemma server_receive_never_returns_after_close_witness :
  server_receive 1000 small_server (buffer small_server) 8 false
    (mkWorld [RecvData (bytes "abc"); RecvErr EINTR; RecvData (bytes "de")] [] [] 0 1024)
  = OutOfFuel.
Proof.
  refine (proj1 (server_receive_never_returns_after_close small_server
                   (buffer small_server) 8
                   (mkWorld [RecvData (bytes "abc"); RecvErr EINTR; RecvData (bytes "de")]
                      [] [] 0 1024) _ _ _ _) 1000%nat).
  - cbn. lia.
  - unfold len. cbn. lia.
  - repeat constructor.
  - unfold len. cbn. lia.
Defined.

(** A textual store whose peer has closed the stream: the request goes
    out, the first read returns 0 bytes and the call fails at once. *)
Example textual_store_peer_closed :
  stored (textual_store 8 fetch_server set sample_item (mkWorld [] [] [] 0 1024))
  = Some (-1, bytes "set k 0 60 5" ++ CRLF ++ bytes "hello" ++ CRLF).
Proof. vm_compute. reflexivity. Qed.

(** With no hard error in the script and enough bytes to come, an
    exact-length read ends and returns the count asked for, however the
    bytes are cut into reads. *)
Lemma server_receive_loop_exact (server : Server) : forall script fuel dat sz offset w,
  net_in w = script ->
  Forall recv_soft script ->
  0 <= sock server ->
  0 <= offset <= sz ->
  sz <= len dat ->
  sz - offset <= len (stream_bytes script) ->
  (List.length script < fuel)%nat ->
  exists d' w',
    server_receive_loop fuel server dat sz false offset false w = Ret (sz, server, d', w')
    /\ len d' = len dat
    /\ stream_bytes (net_in w') = skipn (Z.to_nat (sz - offset)) (stream_bytes script)
    /\ wire w' = wire w
    /\ net_out w' = net_out w
    /\ malloc_limit w' = malloc_limit w.
Proof.
  induction script as [|ev rest IH];
    intros fuel dat sz offset w Hin Hsoft Hfd Hoff Hsz Hstream Hfuel;
    (destruct fuel as [|fuel]; [cbn in Hfuel; lia|]);
    cbn [server_receive_loop].
  - cbn [stream_bytes] in Hstream. change (len (@nil byte)) with 0 in Hstream.
    assert (offset = sz) by lia. subst offset.
    rewrite (recv_eof w _ _ Hfd Hin). change (0 =? -1) with false. cbv beta iota.
    rewrite mem_write_ok by (change (len (@nil byte)) with 0; lia).
    cbn [bind]. destruct (Z.ltb_spec (sz + 0) sz); [lia|]. cbn [andb].
    unfold server_receive_end. cbn [andb]. rewrite Z.add_0_r.
    eexists. eexists. split; [reflexivity|].
    repeat split.
    + unfold len in *. rewrite !length_app, length_firstn, length_skipn.
      cbn [List.length]. lia.
    + rewrite Hin. cbn [stream_bytes]. now rewrite skipn_nil.
  - inversion Hsoft as [|? ? Hev Hrest]; subst. cbn [List.length] in Hfuel.
    destruct ev as [bs|e].
    + rewrite (recv_data w _ _ bs rest Hfd Hin).
      cbn [stream_bytes] in Hstream. rewrite len_app in Hstream.
      set (k := Z.to_nat (sz - offset)).
      pose proof (len_nonneg bs) as Hbs.
      assert (Hgot : len (firstn k bs) = Z.min (sz - offset) (len bs)).
      { unfold len, k. rewrite length_firstn. lia. }
      rewrite len_eqb_m1.
      rewrite mem_write_ok by lia. cbn [bind].
      destruct (Z.ltb_spec (offset + len (firstn k bs)) sz) as [Hmore|Hdone];
        cbn [andb negb].
      * assert (Hall : firstn k bs = bs).
        { apply firstn_all2. unfold len in *. lia. }
        assert (Hnone : skipn k bs = []).
        { apply skipn_all2. unfold len in *. lia. }
        rewrite Hall, Hnone in *.
        destruct (IH fuel
                    (firstn (Z.to_nat offset) dat ++ bs
                     ++ skipn (Z.to_nat (offset + len bs)) dat)
                    sz (offset + len bs) (set_net_in w rest))
          as [d' [w' [Hrun [Hlen [Hst [Hw [Ho Hm]]]]]]]; try assumption; try reflexivity.
        -- lia.
        -- unfold len in *. rewrite !length_app, length_firstn, length_skipn. lia.
        -- lia.
        -- lia.
        -- exists d', w'. split; [exact Hrun|]. split; [|split; [|repeat split]].
           ++ rewrite Hlen. unfold len in *.
              rewrite !length_app, length_firstn, length_skipn. lia.
           ++ rewrite Hst. cbn [stream_bytes]. rewrite skipn_app.
              rewrite (skipn_all2 bs) by (unfold len in *; lia). cbn [app].
              f_equal. unfold k, len in *. lia.
           ++ rewrite Hw. reflexivity.
           ++ rewrite Ho. reflexivity.
           ++ rewrite Hm. reflexivity.
      * unfold server_receive_end. cbn [andb].
        assert (Eoff : offset + len (firstn k bs) = sz) by lia.
        rewrite Eoff.
        eexists. eexists. split; [reflexivity|].
        split; [|split; [|repeat split]].
        -- unfold len in *. rewrite !length_app, length_firstn, length_skipn. lia.
        -- cbn [net_in set_net_in]. rewrite stream_bytes_partial.
           cbn [stream_bytes]. rewrite skipn_app. f_equal.
           replace (k - List.length bs)%nat with 0%nat by (unfold len, k in *; lia).
           reflexivity.
    + cbn in Hev. subst e.
      rewrite (recv_err w _ _ EINTR rest Hfd Hin).
      change (-1 =? -1) with true. cbv beta iota. cbn [errno set_errno].
      change (negb (EINTR =? EINTR)) with false. cbv beta iota.
      cbn [stream_bytes] in Hstream.
      destruct (Z.ltb_spec offset sz) as [Hmore|Hdone]; cbn [andb negb].
      * destruct (IH fuel dat sz offset (set_errno (set_net_in w rest) EINTR))
          as [d' [w' [Hrun [Hlen [Hst [Hw [Ho Hm]]]]]]]; try assumption; try reflexivity.
        -- lia.
        -- exists d', w'. split; [exact Hrun|]. repeat split; assumption.
      * unfold server_receive_end. cbn [andb].
        assert (offset = sz) by lia. subst offset.
        eexists. eexists. split; [reflexivity|].
        repeat split. cbn [net_in set_net_in set_errno stream_bytes].
        rewrite Z.sub_diag. reflexivity.
Qed.

(** *** The response to a binary store *)

Lemma htonl_nonneg (x : Z) : 0 <= htonl x.
Proof.
  unfold htonl.
  pose proof (byte_at_range 0 x). pose proof (byte_at_range 1 x).
  pose proof (byte_at_range 2 x). pose proof (byte_at_range 3 x).
  repeat (apply Z.lor_nonneg; split); try apply Z.shiftl_nonneg; lia.
Qed.

Lemma malloc_ok (w : World) (n : Z) :
  0 <= n <= malloc_limit w ->
  malloc w n = Some (repeat NUL (Z.to_nat n)) /\ len (repeat NUL (Z.to_nat n)) = n.
Proof.
  intros H. unfold malloc. destruct (Z.leb_spec n (malloc_limit w)); [|lia].
  split; [reflexivity|]. unfold len. rewrite repeat_length. lia.
Qed.

Lemma unexpected_data_disconnected (server : Server) :
  sock (unexpected_data server) = -1
  /\ errmsg (unexpected_data server) = Some ("Unexpected data returned" ++ nl)%string.
Proof.
  unfold unexpected_data, server_disconnect, set_errmsg, set_sock. cbn [sock errmsg].
  destruct (Z.eqb_spec (sock server) (-1)); cbn [negb sock errmsg]; auto.
Qed.

Lemma binary_store_response_code fuel server response w r s' w' :
  binary_store_response fuel server response w = Ret (r, s', w') ->
  (r = 0 \/ r = -1)
  /\ (r = 0 <-> rsp_status response = 0 /\ rsp_bodylen response = 0).
Proof.
  unfold binary_store_response.
  destruct (Z.eqb_spec (rsp_status response) 0) as [Hs|Hs];
    destruct (Z.eqb_spec (rsp_bodylen response) 0) as [Hb|Hb]; cbn [andb negb].
  - intros H. injection H as <- <- <-. split; [now left|]. split; auto.
  - intros H. injection H as <- <- <-. split; [now right|].
    split; [discriminate | intros [_ E]; contradiction].
  - intros H. injection H as <- <- <-. split; [now right|].
    split; [discriminate | intros [E _]; contradiction].
  - destruct (malloc w (ntohl (rsp_bodylen response))) as [buf|].
    + destruct (server_receive fuel server buf (ntohl (rsp_bodylen response)) false w)
        as [[[[x s1] b1] w1]| | |]; cbn [bind]; try discriminate.
      intros H. injection H as <- <- <-. split; [now right|].
      split; [discriminate | intros [E _]; contradiction].
    + intros H. injection H as <- <- <-. split; [now right|].
      split; [discriminate | intros [E _]; contradiction].
Qed.

(** The cases of the response half of [binary_store]. *)
Lemma binary_store_response_cases (fuel : nat) (server : Server)
    (response : response_header) (w : World) :
  (rsp_status response = 0 -> rsp_bodylen response <> 0 ->
   binary_store_response fuel server response w = Ret (-1, unexpected_data server, w)
   /\ sock (unexpected_data server) = -1
   /\ errmsg (unexpected_data server) = Some ("Unexpected data returned" ++ nl)%string)
  /\ (rsp_status response <> 0 -> rsp_bodylen response <> 0 ->
      0 <= sock server ->
      ntohl (rsp_bodylen response) <= malloc_limit w ->
      Forall recv_soft (net_in w) ->
      ntohl (rsp_bodylen response) <= len (stream_bytes (net_in w)) ->
      (List.length (net_in w) < fuel)%nat ->
      exists w',
        binary_store_response fuel server response w = Ret (-1, server, w')
        /\ stream_bytes (net_in w')
           = skipn (Z.to_nat (ntohl (rsp_bodylen response))) (stream_bytes (net_in w)))
  /\ (rsp_bodylen response = 0 ->
      binary_store_response fuel server response w
      = Ret (if rsp_status response =? 0 then 0 else -1, server, w))
  /\ (forall r s' w',
        binary_store_response fuel server response w = Ret (r, s', w') ->
        (r = 0 \/ r = -1)
        /\ (r = 0 <-> rsp_status response = 0 /\ rsp_bodylen response = 0))
  /\ (forall cmd item r s' w',
        binary_store fuel server cmd item w = Ret (r, s', w') ->
        (r = 0 \/ r = -1)
        /\ (r = 0 ->
            exists x s1 w1 s2 rbytes w2,
              server_sendv fuel server (binary_store_iovec cmd item) w = Ret (x, s1, w1)
              /\ server_receive fuel s1 (repeat NUL 24) 24 false w1
                 = Ret (24, s2, rbytes, w2)
              /\ rsp_status (response_of_bytes rbytes) = 0
              /\ rsp_bodylen (response_of_bytes rbytes) = 0)).
Proof.
  split; [|split; [|split; [|split]]].
  - intros Hs Hb. split; [|apply unexpected_data_disconnected].
    unfold binary_store_response.
    destruct (Z.eqb_spec (rsp_status response) 0); [|contradiction].
    destruct (Z.eqb_spec (rsp_bodylen response) 0); [contradiction|].
    reflexivity.
  - intros Hs Hb Hfd Hlim Hsoft Hlen Hfuel.
    unfold binary_store_response.
    destruct (Z.eqb_spec (rsp_status response) 0); [contradiction|].
    destruct (Z.eqb_spec (rsp_bodylen response) 0); [contradiction|].
    cbn [andb negb].
    pose proof (htonl_nonneg (rsp_bodylen response)) as Hn. fold (ntohl (rsp_bodylen response)) in Hn.
    destruct (malloc_ok w (ntohl (rsp_bodylen response))) as [Hm Hbuf]; [lia|].
    rewrite Hm. unfold server_receive.
    destruct (server_receive_loop_exact server (net_in w) fuel
                (repeat NUL (Z.to_nat (ntohl (rsp_bodylen response))))
                (ntohl (rsp_bodylen response)) 0 w)
      as [d' [w' [Hrun [_ [Hst _]]]]]; try assumption; try reflexivity; try lia.
    rewrite Hrun. cbn [bind]. exists w'. split; [reflexivity|].
    rewrite Hst. now rewrite Z.sub_0_r.
  - intros Hb. unfold binary_store_response. rewrite Hb.
    change (0 =? 0) with true. cbn [negb]. rewrite andb_false_r. reflexivity.
  - intros r s' w'. apply binary_store_response_code.
  - intros cmd item r s' w'. unfold binary_store.
    destruct (server_sendv fuel server (binary_store_iovec cmd item) w)
      as [[[x s1] w1]| | |] eqn:Hsend; cbn [bind]; try discriminate.
    destruct (server_receive fuel s1 (repeat NUL 24) 24 false w1)
      as [[[[nread s2] rbytes] w2]| | |] eqn:Hrecv; cbn [bind]; try discriminate.
    destruct (Z.eqb_spec nread 24) as [->|Hn]; cbn [negb].
    + intros H. apply binary_store_response_code in H. destruct H as [Hr Hiff].
      split; [exact Hr|]. intros E. apply Hiff in E. destruct E as [Es Eb].
      exists x, s1, w1, s2, rbytes, w2. repeat split; (assumption || reflexivity).
    + intros H. injection H as <- <- <-. split; [now right | discriminate].
Qed.

(** A rejected store whose response carries a 9-byte message: the body
    is read and dropped, the bytes after it stay in the stream. *)
Example binary_store_response_drains_body :
  binary_store_response 4 small_server
    (mkResponseHeader 129 1 0 0 0 (htons 2) (htonl 9) 0 0)
    (mkWorld [RecvData (bytes "Not "); RecvData (bytes "foundNEXT")] [] [] 0 1024)
  = Ret (-1, small_server, mkWorld [RecvData (bytes "NEXT")] [] [] 0 1024).
Proof. vm_compute. reflexivity. Qed.

(** A whole binary store on the wire: header, key, payload.  The item's
    flags are 7, the flags field travels as 0; the cas token and the
    expiration travel most significant byte first. *)
Example binary_store_on_the_wire :
  stored (binary_store 8 fetch_server set sample_item (answer success_header))
  = Some (0,
          [x80; x01; x00; x01; x08; x00; x00; x00; x00; x00; x00; x0e;
           x00; x00; x00; x00; x01; x02; x03; x04; x05; x06; x07; x08;
           x00; x00; x00; x00; x00; x00; x00; x3c]
          ++ bytes "k" ++ bytes "hello").
Proof. vm_compute. reflexivity. Qed.

(** *** Textual fetch *)

Lemma has_prefix_defined (needle : list byte) : forall s,
  ~ In NUL needle -> In NUL s -> exists b, has_prefix needle s = Ret b.
Proof.
  induction needle as [|n needle IH]; intros s Hn Hs.
  - now exists true.
  - destruct s as [|b s]; [contradiction|]. cbn [has_prefix].
    destruct (Byte.eqb n b) eqn:E.
    + apply Byte.byte_dec_bl in E. subst b. apply IH.
      * intros Hin. apply Hn. now right.
      * destruct Hs as [Hs|Hs]; [|exact Hs]. exfalso. apply Hn. left. now symmetry.
    + now exists false.
Qed.

Lemma strstr_defined (needle s : list byte) :
  ~ In NUL needle -> In NUL s -> exists r, strstr s needle = Ret r.
Proof.
  intros Hn. induction s as [|b s IH]; intros Hs; [contradiction|].
  cbn [strstr].
  destruct (has_prefix_defined needle (b :: s) Hn Hs) as [p Hp]. rewrite Hp. cbn [bind].
  destruct p; [now eexists|].
  destruct (Byte.eqb b NUL) eqn:E; [now eexists|].
  destruct IH as [r Hr].
  - destruct Hs as [Hs|Hs]; [|exact Hs]. subst b. discriminate E.
  - rewrite Hr. cbn [bind]. now eexists.
Qed.

Lemma strstr_nonneg (needle : list byte) : forall s k,
  strstr s needle = Ret (Some k) -> 0 <= k.
Proof.
  induction s as [|b s IH]; intros k.
  - cbn [strstr]. destruct (has_prefix needle []) as [[|]| | |]; cbn [bind]; try discriminate.
    intros H. injection H as <-. lia.
  - cbn [strstr]. destruct (has_prefix needle (b :: s)) as [[|]| | |]; cbn [bind]; try discriminate.
    + intros H. injection H as <-. lia.
    + destruct (Byte.eqb b NUL); [discriminate|].
      destruct (strstr s needle) as [[k'|]| | |] eqn:E; cbn [bind option_map]; try discriminate.
      intros H. injection H as <-. specialize (IH k' eq_refl). lia.
Qed.

(** A string that starts with another byte than the needle's first does
    not have the needle at its start. *)
Lemma strstr_at_start_other (needle s : list byte) (n b : byte) :
  ~ In NUL (n :: needle) -> In NUL (b :: s) -> n <> b ->
  strstr_at_start (b :: s) (n :: needle) = Ret false.
Proof.
  intros Hn Hs Hne. unfold strstr_at_start. cbn [strstr has_prefix].
  destruct (Byte.eqb n b) eqn:E; [apply Byte.byte_dec_bl in E; contradiction|].
  cbn [bind].
  destruct (Byte.eqb b NUL) eqn:Eb; [reflexivity|].
  destruct (strstr_defined (n :: needle) s Hn) as [r Hr].
  { destruct Hs as [Hs|Hs]; [|exact Hs]. subst b. discriminate Eb. }
  rewrite Hr. cbn [bind]. destruct r as [k|]; cbn [option_map]; [|reflexivity].
  apply strstr_nonneg in Hr.
  destruct (Z.succ k) eqn:Ek; try reflexivity. lia.
Qed.

(** C1 (amended).  When the response line of a textual fetch begins with
    "END", [textual_get] returns -1, records no error message, leaves the
    connection as the I/O layer left it and leaves the item as it was. *)
Theorem textual_get_miss (fuel : nat) (server : Server) (item : Item) (w : World)
    (x nread : Z) (s1 s2 : Server) (w1 w2 : World) (buf : list byte) :
  server_sendv fuel server (textual_get_iovec item) w = Ret (x, s1, w1) ->
  server_receive fuel s1 (buffer s1) (buffersize s1) true w1 = Ret (nread, s2, buf, w2) ->
  starts_with (bytes "END") buf ->
  In NUL buf ->
  textual_get fuel server item w = Ret (-1, set_buffer s2 buf, item, w2).
Proof.
  intros Hsend Hrecv [rest ->] Hnul.
  unfold textual_get. rewrite Hsend. cbn [bind]. rewrite Hrecv. cbn [bind].
  unfold textual_get_decode. cbn [buffer set_buffer].
  change (bytes "END" ++ rest) with ("E"%byte :: "N"%byte :: "D"%byte :: rest) in *.
  rewrite (strstr_at_start_other (bytes "ALUE ") _ "V"%byte "E"%byte).
  - cbn [bind]. reflexivity.
  - cbn. intros [H|[H|[H|[H|[H|[H|[]]]]]]]; discriminate H.
  - exact Hnul.
  - discriminate.
Qed.

(** A miss on an item that holds a buffer: the item comes back as it went. *)
Lemma textual_get_miss_witness :
  textual_get 8 fetch_server reused_item (answer miss_response)
  = Ret (-1, set_buffer fetch_server (miss_response ++ repeat NUL 59),
         reused_item, mkWorld [] [] (bytes "get k" ++ CRLF) 0 1024).
Proof.
  refine (textual_get_miss 8 fetch_server reused_item (answer miss_response)
            0 5 fetch_server fetch_server
            (mkWorld [RecvData miss_response] [] (bytes "get k" ++ CRLF) 0 1024)
            (mkWorld [] [] (bytes "get k" ++ CRLF) 0 1024)
            (miss_response ++ repeat NUL 59) _ _ _ _).
  - vm_compute. reflexivity.
  - vm_compute. reflexivity.
  - exists (CRLF ++ repeat NUL 59). reflexivity.
  - right. right. right. right. right. left. reflexivity.
Defined.

(** C1, as the specification states it, fails: a miss and a malformed
    response line both make [textual_get] return -1, so that the miss is
    no result of its own. *)
Lemma textual_get_miss_same_code_as_error :
  ret_code (textual_get 8 fetch_server fresh_item (answer miss_response)) = Some (-1)
  /\ ret_code (textual_get 8 fetch_server fresh_item (answer malformed_response))
     = Some (-1).
Proof. split; vm_compute; reflexivity. Qed.

(** The copy at the end of a fetch.  A value larger than the item's
    [size] gets a fresh buffer of its length, and the item's [size] becomes
    that length. *)
Lemma textual_get_copy_grows (item : Item) (result : list byte) (elemsize : Z)
    (w : World) :
  size item < elemsize ->
  elemsize <= malloc_limit w ->
  0 <= elemsize <= len result ->
  textual_get_copy item result elemsize w
  = Ret (0, set_data (set_size item elemsize)
              (Some (firstn (Z.to_nat elemsize) result))).
Proof.
  intros Hlt Hlim Hres. unfold textual_get_copy.
  destruct (Z.ltb_spec (size item) elemsize); [|lia].
  destruct (malloc_ok w elemsize ltac:(lia)) as [Hm Hl]. rewrite Hm.
  cbn [data set_data set_size]. unfold memcpy_to_item. cbn [size data set_data set_size].
  rewrite mem_read_prefix by lia. cbn [bind].
  rewrite mem_write_ok.
  - cbn [bind]. rewrite len_firstn by lia. rewrite Z.add_0_l.
    change (Z.to_nat 0) with 0%nat. cbn [firstn app].
    rewrite (skipn_all2 (repeat NUL (Z.to_nat elemsize))) by (rewrite repeat_length; lia).
    rewrite app_nil_r. reflexivity.
  - lia.
  - rewrite len_firstn by lia. lia.
Qed.

(** A value no larger than the item's [size] goes into the buffer the
    item has: [size], not the length of the value, is the number of bytes
    copied from the scratch buffer, and [size] stays as it was. *)
Lemma textual_get_copy_reuses (item : Item) (result d : list byte) (elemsize : Z)
    (w : World) :
  elemsize <= size item ->
  data item = Some d ->
  0 <= size item <= len d ->
  size item <= len result ->
  textual_get_copy item result elemsize w
  = Ret (0, set_data item
              (Some (firstn (Z.to_nat (size item)) result
                     ++ skipn (Z.to_nat (size item)) d))).
Proof.
  intros Hle Hd Hsz Hres. unfold textual_get_copy.
  destruct (Z.ltb_spec (size item) elemsize); [lia|].
  unfold memcpy_to_item. rewrite mem_read_prefix by lia. cbn [bind]. rewrite Hd.
  rewrite mem_write_ok.
  - cbn [bind]. rewrite len_firstn by lia. rewrite Z.add_0_l.
    change (Z.to_nat 0) with 0%nat. cbn [firstn app]. reflexivity.
  - lia.
  - rewrite len_firstn by lia. lia.
Qed.

(** C2 (defect of the code).  An item that holds a 10-byte buffer fetches
    the 5-byte value "hello": [textual_get] returns 0 with the buffer kept,
    but it has copied 10 bytes, the value and the 5 bytes that follow it in
    the scratch buffer, and the item's [size] is still 10. *)
Theorem textual_get_reuse_keeps_old_size :
  fetched (textual_get 8 fetch_server reused_item (answer hello_response))
  = Some (0, 10, Some (bytes "hello" ++ CRLF ++ bytes "END")).
Proof. vm_compute. reflexivity. Qed.

(** The same response fetched into an item with no buffer: 5 bytes are
    copied and [size] is 5. *)
Example textual_get_fresh_item :
  fetched (textual_get 8 fetch_server fresh_item (answer hello_response))
  = Some (0, 5, Some (bytes "hello")).
Proof. vm_compute. reflexivity. Qed.

(** *** The hash sees the last eight bytes of a key *)

Lemma hash_step (cs : bool) (a : Z) (c : byte) :
  u32 (u32 (Z.shiftl a 4) + char_val cs c) = (a * 16 + char_val cs c) mod 2 ^ 32.
Proof.
  unfold u32. rewrite Z.shiftl_mul_pow2 by lia. change (2 ^ 4) with 16.
  now rewrite Zplus_mod_idemp_l.
Qed.

Lemma hash_fold_congr (cs : bool) (s : list byte) : forall a b,
  a mod 2 ^ 32 = b mod 2 ^ 32 ->
  fold_left (fun acc c => acc * 16 + char_val cs c) s a mod 2 ^ 32
  = fold_left (fun acc c => acc * 16 + char_val cs c) s b mod 2 ^ 32.
Proof.
  induction s as [|c s IH]; intros a b Hab; cbn [fold_left]; [exact Hab|].
  apply IH.
  rewrite (Zplus_mod (a * 16)), (Zplus_mod (b * 16)).
  rewrite (Zmult_mod a), (Zmult_mod b), Hab. reflexivity.
Qed.

Lemma hash_fold_shift (cs : bool) (s : list byte) : forall a,
  fold_left (fun acc c => acc * 16 + char_val cs c) s a
  = a * 16 ^ len s + hash_sum cs s.
Proof.
  unfold hash_sum.
  induction s as [|c s IH]; intros a.
  - cbn. lia.
  - cbn [fold_left]. rewrite IH. rewrite (IH (0 * 16 + char_val cs c)).
    replace (len (c :: s)) with (1 + len s) by (unfold len; cbn [List.length]; lia).
    rewrite Z.pow_add_r by (pose proof (len_nonneg s); lia).
    change (16 ^ 1) with 16. ring.
Qed.

(** The loop of [simplehash] over a string and its terminator. *)
Lemma simplehash_loop_sum (cs : bool) (s rest : list byte) : forall ret,
  ~ In NUL s ->
  exists hv,
    simplehash_loop cs ret (s ++ NUL :: rest) = Ret hv
    /\ hv mod 2 ^ 32
       = fold_left (fun acc c => acc * 16 + char_val cs c) s ret mod 2 ^ 32
    /\ (0 <= ret < 2 ^ 32 -> 0 <= hv < 2 ^ 32).
Proof.
  induction s as [|c s IH]; intros ret Hs.
  - exists ret. cbn. auto.
  - cbn [app simplehash_loop fold_left].
    destruct (Byte.eqb c NUL) eqn:E.
    { exfalso. apply Hs. left. symmetry. now apply Byte.byte_dec_bl. }
    destruct (IH (u32 (u32 (Z.shiftl ret 4) + char_val cs c))) as [hv [Hrun [Hmod Hrange]]].
    { intros Hin. apply Hs. now right. }
    exists hv. split; [exact Hrun|]. split.
    + rewrite Hmod. apply hash_fold_congr. rewrite hash_step.
      apply Z.mod_mod. lia.
    + intros _. apply Hrange. unfold u32. apply Z.mod_pos_bound. lia.
Qed.

(** The hash of a key of eight bytes or more is the base-16 sum of its
    last eight bytes, wrapped to 32 bits. *)
Lemma simplehash_suffix (cs : bool) (p t rest : list byte) :
  List.length t = 8%nat ->
  ~ In NUL (p ++ t) ->
  simplehash cs (Some (p ++ t ++ NUL :: rest)) = Ret (u32 (hash_sum cs t)).
Proof.
  intros Ht Hnul.
  assert (Hk : exists c k, p ++ t = c :: k).
  { destruct p as [|c p]; [destruct t as [|c t]; [discriminate|]|]; cbn; eauto. }
  destruct Hk as [c [k Hk]].
  rewrite app_assoc. rewrite Hk. cbn [app simplehash].
  change (c :: k ++ NUL :: rest) with ((c :: k) ++ NUL :: rest).
  rewrite <- Hk.
  destruct (simplehash_loop_sum cs (p ++ t) rest (u32 (char_val cs c)) Hnul)
    as [hv [Hrun [Hmod Hrange]]].
  rewrite Hrun. f_equal.
  assert (Hin : 0 <= hv < 2 ^ 32).
  { apply Hrange. unfold u32. apply Z.mod_pos_bound. lia. }
  rewrite <- (Z.mod_small hv (2 ^ 32)) by exact Hin.
  rewrite Hmod. unfold u32.
  rewrite fold_left_app, hash_fold_shift.
  replace (len t) with 8 by (unfold len; lia).
  change (16 ^ 8) with (2 ^ 32).
  rewrite Z.add_comm. apply Z_mod_plus_full.
Qed.

(** The hash of [simplehash] sees only the last eight bytes of a key:
    two keys of eight bytes or more that end in the same eight bytes have
    the same hash, and [get_server] selects the same server for both,
    whatever comes before those bytes. *)
Theorem simplehash_last_eight_bytes (cs : bool) (h : Memcache)
    (p1 p2 t rest1 rest2 : list byte) :
  List.length t = 8%nat ->
  ~ In NUL (p1 ++ t) ->
  ~ In NUL (p2 ++ t) ->
  simplehash cs (Some (p1 ++ t ++ NUL :: rest1))
  = simplehash cs (Some (p2 ++ t ++ NUL :: rest2))
  /\ simplehash cs (Some (p1 ++ t ++ NUL :: rest1)) = Ret (u32 (hash_sum cs t))
  /\ get_server cs h (Some (p1 ++ t ++ NUL :: rest1))
     = get_server cs h (Some (p2 ++ t ++ NUL :: rest2)).
Proof.
  intros Ht H1 H2.
  rewrite (simplehash_suffix cs p1 t rest1 Ht H1).
  assert (E : simplehash cs (Some (p2 ++ t ++ NUL :: rest2)) = Ret (u32 (hash_sum cs t)))
    by (apply simplehash_suffix; assumption).
  rewrite E. repeat split.
  apply get_server_same_hash. rewrite E. now apply simplehash_suffix.
Qed.

(** Two user keys that differ before their last eight bytes. *)
Lemma simplehash_last_eight_bytes_witness :
  get_server true two_servers (Some (bytes "alice:" ++ bytes "12345678" ++ NUL :: []))
  = get_server true two_servers (Some (bytes "bob:" ++ bytes "12345678" ++ NUL :: [])).
Proof.
  refine (proj2 (proj2 (simplehash_last_eight_bytes true two_servers
                          (bytes "alice:") (bytes "bob:") (bytes "12345678") [] []
                          eq_refl _ _))).
  - cbn. intuition discriminate.
  - cbn. intuition discriminate.
Defined.

(** *** Reads keep the stream in order *)

(** What one [recv] does to the stream: it fails and takes nothing, or it
    takes a prefix no longer than asked for. *)
Lemma recv_spec (w : World) (fd n nread : Z) (bs : list byte) (w1 : World) :
  recv w fd n = (nread, bs, w1) ->
  (nread = -1 /\ bs = [] /\ stream_bytes (net_in w1) = stream_bytes (net_in w)
   \/ nread = len bs /\ stream_bytes (net_in w) = bs ++ stream_bytes (net_in w1)
      /\ len bs <= Z.max n 0)
  /\ wire w1 = wire w /\ net_out w1 = net_out w /\ malloc_limit w1 = malloc_limit w.
Proof.
  unfold recv. destruct (fd <? 0).
  { intros H. injection H as <- <- <-. split; [left|]; repeat split. }
  destruct (net_in w) as [|[cs|e] rest] eqn:Hin.
  - intros H. injection H as <- <- <-. split; [right|]; repeat split.
    + now rewrite Hin.
    + change (len (@nil byte)) with 0. lia.
  - intros H. injection H as <- <- <-. split; [right|]; repeat split.
    + cbn [net_in set_net_in]. rewrite stream_bytes_partial. cbn [stream_bytes].
      rewrite app_assoc. now rewrite firstn_skipn.
    + unfold len. rewrite length_firstn. lia.
  - intros H. injection H as <- <- <-. split; [left|]; repeat split.
Qed.

Lemma firstn_app_left (a b : list byte) (n : nat) :
  n = List.length a -> firstn n (a ++ b) = a.
Proof. intros ->. now apply firstn_app_exact. Qed.

Lemma skipn_app_left (a b : list byte) (n : nat) :
  (List.length a <= n)%nat -> skipn n (a ++ b) = skipn (n - List.length a) b.
Proof.
  intros H. rewrite skipn_app. rewrite (skipn_all2 a) by exact H. reflexivity.
Qed.

(** Writing a read at [a] and the rest of the stream after it is writing
    the stream at [a]. *)
Lemma write_then_write (dat bs s1 : list byte) (a k : nat) :
  (a + List.length bs <= List.length dat)%nat ->
  (a + List.length bs <= k)%nat ->
  let dat1 := firstn a dat ++ bs ++ skipn (a + List.length bs) dat in
  firstn (a + List.length bs) dat1 ++ firstn (k - (a + List.length bs)) s1 ++ skipn k dat1
  = firstn a dat ++ firstn (k - a) (bs ++ s1) ++ skipn k dat.
Proof.
  intros Hfit Hk dat1. unfold dat1.
  assert (Ha : List.length (firstn a dat) = a) by (rewrite length_firstn; lia).
  rewrite (app_assoc (firstn a dat) bs).
  rewrite firstn_app_left by (rewrite length_app; lia).
  rewrite skipn_app_left by (rewrite length_app; lia).
  rewrite length_app, Ha. rewrite skipn_skipn.
  replace (k - (a + List.length bs) + (a + List.length bs))%nat with k by lia.
  rewrite (firstn_app (k - a) bs s1), (firstn_all2 bs) by lia.
  replace (k - a - List.length bs)%nat with (k - (a + List.length bs))%nat by lia.
  rewrite <- !app_assoc. reflexivity.
Qed.

(** Whatever the loop of [server_receive] returns, in either mode and
    under any transport, the bytes it took from the stream are in the
    buffer from [offset] on, in order and with none missing, the rest of
    the buffer is as it was, and the stream continues after them. *)
Lemma server_receive_loop_stream (fuel : nat) :
  forall server dat sz line offset stop w r s' d' w',
  0 <= offset ->
  server_receive_loop fuel server dat sz line offset stop w = Ret (r, s', d', w') ->
  exists k,
    offset <= k
    /\ d' = firstn (Z.to_nat offset) dat
            ++ firstn (Z.to_nat (k - offset)) (stream_bytes (net_in w))
            ++ skipn (Z.to_nat k) dat
    /\ stream_bytes (net_in w') = skipn (Z.to_nat (k - offset)) (stream_bytes (net_in w))
    /\ (r = k /\ s' = server
        \/ r = SIZE_MAX /\ (s' = receive_failed server w' \/ s' = protocol_error server))
    /\ wire w' = wire w.
Proof.
  induction fuel as [|fuel IH]; intros server dat sz line offset stop w r s' d' w' Hoff;
    [discriminate|].
  cbn [server_receive_loop].
  destruct (recv w (sock server) (sz - offset)) as [[nread bs] w1] eqn:Hrecv.
  apply recv_spec in Hrecv. destruct Hrecv as [Hcases [Hwire _]].
  assert (Hstay : forall rr ss ww,
            stream_bytes (net_in ww) = stream_bytes (net_in w) ->
            wire ww = wire w ->
            (rr = offset /\ ss = server
             \/ rr = SIZE_MAX /\ (ss = receive_failed server ww \/ ss = protocol_error server)) ->
            exists k,
              offset <= k
              /\ dat = firstn (Z.to_nat offset) dat
                       ++ firstn (Z.to_nat (k - offset)) (stream_bytes (net_in w))
                       ++ skipn (Z.to_nat k) dat
              /\ stream_bytes (net_in ww)
                 = skipn (Z.to_nat (k - offset)) (stream_bytes (net_in w))
              /\ (rr = k /\ ss = server
                  \/ rr = SIZE_MAX /\ (ss = receive_failed server ww \/ ss = protocol_error server))
              /\ wire ww = wire w).
  { intros rr ss ww Hst Hw Hres. exists offset. rewrite Z.sub_diag.
    change (Z.to_nat 0) with 0%nat. cbn [firstn skipn app].
    rewrite firstn_skipn. repeat split; try assumption; lia. }
  destruct (nread =? -1) eqn:Enread.
  - apply Z.eqb_eq in Enread. subst nread.
    destruct Hcases as [[_ [_ Hst]]|[Hlen _]]; [|pose proof (len_nonneg bs); lia].
    destruct (Z.eqb_spec (errno w1) EINTR) as [E|N]; cbn [negb].
    + destruct ((offset <? sz) && negb stop).
      * intros H. apply IH in H; [|assumption].
        destruct H as [k [Hk [Hd [Hs [Hr Hw]]]]]. exists k.
        rewrite Hst in Hd, Hs. rewrite Hw, Hwire. repeat split; assumption.
      * unfold server_receive_end. destruct (line && negb stop).
        -- intros H. injection H as <- <- <- <-. apply Hstay; auto.
        -- intros H. injection H as <- <- <- <-. apply Hstay; auto.
    + intros H. injection H as <- <- <- <-. apply Hstay; auto.
  - apply Z.eqb_neq in Enread.
    destruct Hcases as [[Hm _]|[Hlen [Hst Hmax]]]; [contradiction|]. subst nread.
    unfold mem_write.
    destruct (Z.leb_spec 0 offset) as [_|]; [|lia]. cbn [andb].
    destruct (Z.leb_spec (offset + len bs) (len dat)) as [Hfit|]; [|discriminate].
    cbn [bind].
    set (dat1 := firstn (Z.to_nat offset) dat ++ bs
                 ++ skipn (Z.to_nat (offset + len bs)) dat).
    destruct (if line
              then p <- ptr_add dat1 offset;;
                   r0 <- strchr p CR;;
                   Ret match r0 with Some _ => true | None => stop end
              else Ret stop) as [stop1| | |]; cbn [bind]; try discriminate.
    pose proof (len_nonneg bs) as Hbs.
    assert (Hcombine : forall k,
              offset + len bs <= k ->
              firstn (Z.to_nat (offset + len bs)) dat1
              ++ firstn (Z.to_nat (k - (offset + len bs))) (stream_bytes (net_in w1))
              ++ skipn (Z.to_nat k) dat1
              = firstn (Z.to_nat offset) dat
                ++ firstn (Z.to_nat (k - offset)) (stream_bytes (net_in w))
                ++ skipn (Z.to_nat k) dat).
    { intros k Hk. rewrite Hst. unfold dat1, len in *.
      replace (Z.to_nat (offset + Z.of_nat (List.length bs)))
        with (Z.to_nat offset + List.length bs)%nat by lia.
      replace (Z.to_nat (k - (offset + Z.of_nat (List.length bs))))
        with (Z.to_nat k - (Z.to_nat offset + List.length bs))%nat by lia.
      replace (Z.to_nat (k - offset)) with (Z.to_nat k - Z.to_nat offset)%nat by lia.
      apply write_then_write; lia. }
    assert (Hskip : forall k,
              offset + len bs <= k ->
              skipn (Z.to_nat (k - (offset + len bs))) (stream_bytes (net_in w1))
              = skipn (Z.to_nat (k - offset)) (stream_bytes (net_in w))).
    { intros k Hk. rewrite Hst. rewrite skipn_app_left by (unfold len in *; lia).
      f_equal. unfold len in *. lia. }
    destruct ((offset + len bs <? sz) && negb stop1).
    + intros H. apply IH in H; [|lia].
      destruct H as [k [Hk [Hd [Hs [Hr Hw]]]]]. exists k.
      split; [lia|]. split; [|split; [|split]].
      * rewrite Hd. now apply Hcombine.
      * rewrite Hs. now apply Hskip.
      * exact Hr.
      * now rewrite Hw.
    + unfold server_receive_end.
      assert (Hend : forall rr ss,
                (rr = offset + len bs /\ ss = server
                 \/ rr = SIZE_MAX
                    /\ (ss = receive_failed server w1 \/ ss = protocol_error server)) ->
                exists k,
                  offset <= k
                  /\ dat1 = firstn (Z.to_nat offset) dat
                            ++ firstn (Z.to_nat (k - offset)) (stream_bytes (net_in w))
                            ++ skipn (Z.to_nat k) dat
                  /\ stream_bytes (net_in w1)
                     = skipn (Z.to_nat (k - offset)) (stream_bytes (net_in w))
                  /\ (rr = k /\ ss = server
                      \/ rr = SIZE_MAX
                         /\ (ss = receive_failed server w1 \/ ss = protocol_error server))
                  /\ wire w1 = wire w).
      { intros rr ss Hres. exists (offset + len bs). split; [lia|].
        split; [|split; [|split]]; try assumption.
        - rewrite <- (Hcombine (offset + len bs)) by lia.
          rewrite Z.sub_diag. change (Z.to_nat 0) with 0%nat. cbn [firstn app].
          rewrite firstn_skipn. reflexivity.
        - rewrite <- (Hskip (offset + len bs)) by lia.
          rewrite Z.sub_diag. reflexivity. }
      destruct (line && negb stop1).
      * intros H. injection H as <- <- <- <-. apply Hend; auto.
      * intros H. injection H as <- <- <- <-. apply Hend; auto.
Qed.

(** [server_receive] never drops, repeats or reorders bytes: whatever it
    returns, in either mode and under any transport, the buffer holds the
    first [k] bytes of the stream followed by what it held beyond them,
    the stream continues at byte [k], and a result other than the failure
    value is this [k]. *)
Theorem server_receive_keeps_stream_order (fuel : nat) (server : Server)
    (dat : list byte) (sz : Z) (line : bool) (w : World)
    (r : Z) (s' : Server) (d' : list byte) (w' : World) :
  server_receive fuel server dat sz line w = Ret (r, s', d', w') ->
  exists k,
    0 <= k
    /\ d' = firstn (Z.to_nat k) (stream_bytes (net_in w)) ++ skipn (Z.to_nat k) dat
    /\ stream_bytes (net_in w') = skipn (Z.to_nat k) (stream_bytes (net_in w))
    /\ (r = k /\ s' = server
        \/ r = SIZE_MAX /\ (s' = receive_failed server w' \/ s' = protocol_error server))
    /\ wire w' = wire w.
Proof.
  unfold server_receive. intros H.
  apply server_receive_loop_stream in H; [|lia].
  destruct H as [k [Hk [Hd [Hs [Hr Hw]]]]]. exists k.
  rewrite Z.sub_0_r in Hd, Hs. change (Z.to_nat 0) with 0%nat in Hd.
  cbn [firstn app] in Hd. repeat split; assumption.
Qed.

(** A line read that stops at the carriage return of the first read. *)
Lemma server_receive_keeps_stream_order_witness :
  exists k,
    0 <= k
    /\ bytes "END" ++ CRLF ++ repeat NUL 59
       = firstn (Z.to_nat k) (bytes "END" ++ CRLF) ++ skipn (Z.to_nat k) (repeat NUL 64)
    /\ @nil byte = skipn (Z.to_nat k) (bytes "END" ++ CRLF)
    /\ (5 = k /\ fetch_server = fetch_server
        \/ 5 = SIZE_MAX
           /\ (fetch_server = receive_failed fetch_server (mkWorld [] [] [] 0 1024)
               \/ fetch_server = protocol_error fetch_server))
    /\ @nil byte = @nil byte.
Proof.
  exact (server_receive_keeps_stream_order 4 fetch_server (repeat NUL 64) 64 true
           (answer miss_response) 5 fetch_server
           (bytes "END" ++ CRLF ++ repeat NUL 59) (mkWorld [] [] [] 0 1024) eq_refl).
Defined.

(** An exact-length read assembles its bytes however the transport cuts
    them: with no hard error and [sz] bytes to come, [server_receive]
    returns [sz], the buffer holds the first [sz] bytes of the stream, and
    the stream continues after them. *)
Theorem server_receive_exact (fuel : nat) (server : Server) (dat : list byte)
    (sz : Z) (w : World) :
  0 <= sock server ->
  0 <= sz <= len dat ->
  Forall recv_soft (net_in w) ->
  sz <= len (stream_bytes (net_in w)) ->
  (List.length (net_in w) < fuel)%nat ->
  exists w',
    server_receive fuel server dat sz false w
    = Ret (sz, server,
           firstn (Z.to_nat sz) (stream_bytes (net_in w)) ++ skipn (Z.to_nat sz) dat, w')
    /\ stream_bytes (net_in w') = skipn (Z.to_nat sz) (stream_bytes (net_in w))
    /\ wire w' = wire w.
Proof.
  intros Hfd Hsz Hsoft Hlen Hfuel.
  destruct (server_receive_loop_exact server (net_in w) fuel dat sz 0 w)
    as [d' [w' [Hrun _]]]; try assumption; try reflexivity; try lia.
  unfold server_receive.
  destruct (server_receive_loop_stream _ _ _ _ _ _ _ _ _ _ _ _ (Z.le_refl 0) Hrun)
    as [k [Hk [Hd [Hs [Hr Hw]]]]].
  rewrite Z.sub_0_r in Hd, Hs. change (Z.to_nat 0) with 0%nat in Hd.
  cbn [firstn app] in Hd.
  destruct Hr as [[<- _]|[_ [E|E]]].
  - exists w'. rewrite Hrun, Hd. repeat split; assumption.
  - exfalso. pose proof (proj1 (receive_failed_disconnected server w')) as Hs1.
    rewrite <- E in Hs1. lia.
  - exfalso. pose proof (proj1 (protocol_error_disconnected server)) as Hs1.
    rewrite <- E in Hs1. lia.
Qed.

(** Five bytes that come one per read, each after an interruption. *)
Lemma server_receive_exact_witness :
  exists w',
    server_receive 12 small_server (buffer small_server) 5 false trickle_world
    = Ret (5, small_server, bytes "hello" ++ repeat NUL 3, w')
    /\ stream_bytes (net_in w') = bytes "next"
    /\ wire w' = [].
Proof.
  refine (server_receive_exact 12 small_server (buffer small_server) 5 trickle_world
            _ _ _ _ _).
  - cbn. lia.
  - unfold len. cbn. lia.
  - repeat constructor.
  - unfold len. cbn. lia.
  - cbn. lia.
Defined.

(** *** Single-buffer writes *)

Lemma mem_read_ok (mem : list byte) (off n : Z) :
  0 <= off -> 0 <= n -> off + n <= len mem ->
  mem_read mem off n = Ret (firstn (Z.to_nat n) (skipn (Z.to_nat off) mem)).
Proof.
  intros H0 H1 H2. unfold mem_read.
  destruct (Z.leb_spec 0 off); [|lia].
  destruct (Z.leb_spec 0 n); [|lia].
  destruct (Z.leb_spec (off + n) (len mem)); [|lia].
  reflexivity.
Qed.

(** What is left to send after a short write is the unsent suffix. *)
Lemma unsent_suffix (dat : list byte) (offset sz : Z) (n : nat) :
  0 <= offset <= sz -> sz <= len dat ->
  let bs := firstn (Z.to_nat (sz - offset)) (skipn (Z.to_nat offset) dat) in
  firstn (Z.to_nat (sz - (offset + len (firstn n bs))))
    (skipn (Z.to_nat (offset + len (firstn n bs))) dat)
  = skipn (List.length (firstn n bs)) bs.
Proof.
  intros Hoff Hsz bs.
  set (m := List.length (firstn n bs)).
  assert (E : skipn m bs
              = firstn (Z.to_nat (sz - offset) - m) (skipn (m + Z.to_nat offset) dat)).
  { unfold bs. rewrite skipn_firstn_comm, skipn_skipn. reflexivity. }
  assert (Hl : (m <= Z.to_nat (sz - offset))%nat).
  { unfold m. rewrite length_firstn. unfold bs. rewrite length_firstn. lia. }
  rewrite E. unfold len. fold m. f_equal; [lia|]. f_equal. lia.
Qed.

(** Every result 0 of the loop of [server_send] has put the bytes from
    [offset] to [sz] on the wire. *)
Lemma server_send_loop_sent (fuel : nat) : forall server dat sz offset w s' w',
  0 <= offset <= sz -> sz <= len dat ->
  server_send_loop fuel server dat sz offset w = Ret (0, s', w') ->
  wire w' = wire w ++ firstn (Z.to_nat (sz - offset)) (skipn (Z.to_nat offset) dat).
Proof.
  induction fuel as [|fuel IH]; intros server dat sz offset w s' w' Hoff Hsz;
    [discriminate|].
  cbn [server_send_loop]. rewrite mem_read_ok by lia. cbn [bind].
  set (bs := firstn (Z.to_nat (sz - offset)) (skipn (Z.to_nat offset) dat)).
  assert (Hbs : len bs = sz - offset).
  { unfold bs, len in *. rewrite length_firstn, length_skipn. lia. }
  unfold sock_send. destruct (sock server <? 0).
  { cbv beta iota. change (-1 =? -1) with true. cbv beta iota.
    cbn [errno set_errno]. change (negb (EBADF =? EINTR)) with true. cbv beta iota.
    discriminate. }
  destruct (net_out w) as [|[n|e] rest] eqn:Hout; cbv beta iota.
  - rewrite len_eqb_m1.
    destruct (Z.ltb_spec (offset + len bs) sz) as [Hmore|Hdone].
    + lia.
    + intros H. injection H as <- <-. reflexivity.
  - rewrite len_eqb_m1.
    set (acc := firstn (Z.to_nat n) bs).
    assert (Hacc : 0 <= len acc <= len bs).
    { unfold acc, len. rewrite length_firstn. lia. }
    destruct (Z.ltb_spec (offset + len acc) sz) as [Hmore|Hdone].
    + intros H. apply IH in H; [|lia | lia].
      rewrite H. cbn [wire deliver set_net_out]. rewrite <- app_assoc. f_equal.
      pose proof (unsent_suffix dat offset sz (Z.to_nat n) Hoff Hsz) as E.
      cbv zeta in E. fold bs in E. fold acc in E. rewrite E.
      apply firstn_skipn_length.
    + intros H. injection H as <- <-. cbn [wire deliver set_net_out]. f_equal.
      apply firstn_full_length. fold acc. lia.
  - change (-1 =? -1) with true. cbv beta iota. cbn [errno set_errno].
    destruct (Z.eqb_spec e EINTR) as [->|Hhard]; cbn [negb]; [|discriminate].
    destruct (Z.ltb_spec offset sz) as [Hmore|Hdone].
    + intros H. apply IH in H; [|lia | lia]. exact H.
    + intros H. injection H as <- <-. cbn [wire set_errno set_net_out].
      rewrite (len_zero_nil bs) by lia. now rewrite app_nil_r.
Qed.

(** With no hard error in the script the loop of [server_send] ends in
    success. *)
Lemma server_send_loop_ends (server : Server) : forall script fuel dat sz offset w,
  net_out w = script ->
  Forall send_soft script ->
  0 <= sock server ->
  0 <= offset <= sz -> sz <= len dat ->
  (List.length script < fuel)%nat ->
  exists w', server_send_loop fuel server dat sz offset w = Ret (0, server, w').
Proof.
  induction script as [|ev rest IH]; intros fuel dat sz offset w Hout Hsoft Hfd Hoff Hsz Hfuel;
    (destruct fuel as [|fuel]; [cbn in Hfuel; lia|]);
    cbn [server_send_loop]; rewrite mem_read_ok by lia; cbn [bind];
    set (bs := firstn (Z.to_nat (sz - offset)) (skipn (Z.to_nat offset) dat));
    assert (Hbs : len bs = sz - offset)
      by (unfold bs, len in *; rewrite length_firstn, length_skipn; lia);
    unfold sock_send; (destruct (Z.ltb_spec (sock server) 0); [lia|]); rewrite Hout;
    cbv beta iota.
  - rewrite len_eqb_m1. destruct (Z.ltb_spec (offset + len bs) sz); [lia|]. eauto.
  - inversion Hsoft as [|? ? Hev Hrest]; subst. cbn [List.length] in Hfuel.
    destruct ev as [n|e]; cbv beta iota.
    + rewrite len_eqb_m1.
      set (acc := firstn (Z.to_nat n) bs).
      assert (Hacc : 0 <= len acc <= len bs).
      { unfold acc, len. rewrite length_firstn. lia. }
      destruct (Z.ltb_spec (offset + len acc) sz); [|eauto].
      apply IH; try assumption; try reflexivity; lia.
    + cbn in Hev. subst e. change (-1 =? -1) with true. cbv beta iota.
      cbn [errno set_errno]. change (negb (EINTR =? EINTR)) with false. cbv beta iota.
      destruct (Z.ltb_spec offset sz); [|eauto].
      apply IH; try assumption; try reflexivity; lia.
Qed.

(** [server_send] sends a whole buffer over a transport that takes any
    part of it per call or is interrupted: it ends, returns 0, and the
    first [sz] bytes of the buffer are on the wire in order; and under any
    transport at all the result 0 means that these bytes were sent. *)
Theorem server_send_delivers (fuel : nat) (server : Server) (dat : list byte)
    (sz : Z) (w : World) :
  0 <= sock server ->
  0 <= sz <= len dat ->
  (Forall send_soft (net_out w) ->
   (List.length (net_out w) < fuel)%nat ->
   exists w',
     server_send fuel server dat sz w = Ret (0, server, w')
     /\ wire w' = wire w ++ firstn (Z.to_nat sz) dat)
  /\ (forall s' w',
        server_send fuel server dat sz w = Ret (0, s', w') ->
        wire w' = wire w ++ firstn (Z.to_nat sz) dat).
Proof.
  intros Hfd Hsz. unfold server_send.
  assert (Hsent : forall s' w',
            server_send_loop fuel server dat sz 0 w = Ret (0, s', w') ->
            wire w' = wire w ++ firstn (Z.to_nat sz) dat).
  { intros s' w' H. apply server_send_loop_sent in H; [|lia | lia].
    rewrite H. rewrite Z.sub_0_r. reflexivity. }
  split; [|exact Hsent].
  intros Hsoft Hfuel.
  destruct (server_send_loop_ends server (net_out w) fuel dat sz 0 w)
    as [w' Hrun]; try assumption; try reflexivity; try lia.
  exists w'. split; [exact Hrun|]. eapply Hsent. exact Hrun.
Qed.

(** Eight bytes over a transport that takes three per call. *)
Lemma server_send_delivers_witness :
  exists w',
    server_send 5 small_server (bytes "get k" ++ CRLF ++ [NUL]) 7
      (mkWorld [] [SendAccept 3; SendErr EINTR; SendAccept 3] [] 0 1024)
    = Ret (0, small_server, w')
    /\ wire w' = bytes "get k" ++ CRLF.
Proof.
  refine (proj1 (server_send_delivers 5 small_server (bytes "get k" ++ CRLF ++ [NUL]) 7
                   (mkWorld [] [SendAccept 3; SendErr EINTR; SendAccept 3] [] 0 1024)
                   _ _) _ _).
  - cbn. lia.
  - unfold len. cbn. lia.
  - repeat constructor.
  - cbn. lia.
Defined.

(** *** The header line of a fetched value *)

Lemma has_prefix_true (needle : list byte) : forall s,
  has_prefix needle s = Ret true -> starts_with needle s.
Proof.
  induction needle as [|n needle IH]; intros s.
  - intros _. now exists s.
  - destruct s as [|b s]; cbn [has_prefix]; [discriminate|].
    destruct (Byte.eqb n b) eqn:E; [|discriminate].
    apply Byte.byte_dec_bl in E. subst b. intros H.
    destruct (IH s H) as [rest ->]. now exists rest.
Qed.

Lemma byte_eqb_refl (b : byte) : Byte.eqb b b = true.
Proof. now apply Byte.byte_dec_lb. Qed.

Lemma has_prefix_app (needle rest : list byte) :
  has_prefix needle (needle ++ rest) = Ret true.
Proof.
  induction needle as [|n needle IH]; [reflexivity|].
  cbn [app has_prefix]. rewrite byte_eqb_refl. exact IH.
Qed.

Lemma strstr_at_start_true (needle s : list byte) :
  strstr_at_start s needle = Ret true -> starts_with needle s.
Proof.
  unfold strstr_at_start.
  destruct (strstr s needle) as [[k|]| | |] eqn:E; cbn [bind]; try discriminate.
  destruct k; try discriminate. intros _.
  apply has_prefix_true.
  destruct s as [|b s]; cbn [strstr] in E.
  - destruct (has_prefix needle []) as [[|]| | |]; cbn [bind] in E;
      try discriminate; reflexivity.
  - destruct (has_prefix needle (b :: s)) as [[|]| | |]; cbn [bind] in E;
      try discriminate; [reflexivity|].
    destruct (Byte.eqb b NUL); [discriminate|].
    destruct (strstr s needle) as [[k|]| | |] eqn:E'; cbn [bind option_map] in E;
      try discriminate.
    apply strstr_nonneg in E'. injection E as E. lia.
Qed.

Lemma strstr_at_start_app (needle rest : list byte) :
  strstr_at_start (needle ++ rest) needle = Ret true.
Proof.
  unfold strstr_at_start.
  destruct (needle ++ rest) as [|b s] eqn:E; cbn [strstr]; rewrite <- E;
    rewrite has_prefix_app; reflexivity.
Qed.

Lemma ptr_add_spec (mem p : list byte) (n : Z) :
  ptr_add mem n = Ret p ->
  0 <= n <= len mem /\ p = skipn (Z.to_nat n) mem.
Proof.
  unfold ptr_add.
  destruct (Z.leb_spec 0 n) as [H0|H0]; cbn [andb]; [|discriminate].
  destruct (Z.leb_spec n (len mem)) as [H1|H1]; [|discriminate].
  intros E. injection E as <-. split; [lia | reflexivity].
Qed.

Lemma ptr_add_app (a b : list byte) : ptr_add (a ++ b) (len a) = Ret b.
Proof.
  unfold ptr_add. pose proof (len_nonneg a). rewrite len_app. pose proof (len_nonneg b).
  destruct (Z.leb_spec 0 (len a)); [|lia].
  destruct (Z.leb_spec (len a) (len a + len b)); [|lia].
  cbn [andb]. unfold len. rewrite Nat2Z.id.
  rewrite skipn_app, skipn_all, Nat.sub_diag. reflexivity.
Qed.

Lemma strchr_first (c : byte) (pre post : list byte) :
  ~ In c pre -> ~ In NUL pre -> strchr (pre ++ c :: post) c = Ret (Some (len pre)).
Proof.
  induction pre as [|b pre IH]; intros Hc Hn.
  - cbn [app strchr]. now rewrite byte_eqb_refl.
  - cbn [app strchr].
    destruct (Byte.eqb b c) eqn:E.
    { exfalso. apply Hc. left. now apply Byte.byte_dec_bl. }
    destruct (Byte.eqb b NUL) eqn:E0.
    { exfalso. apply Hn. left. now apply Byte.byte_dec_bl. }
    rewrite IH;
      [| intros H; apply Hc; now right | intros H; apply Hn; now right].
    cbn [bind option_map]. do 2 f_equal. unfold len. cbn [List.length]. lia.
Qed.

Lemma digit_val_some (b : byte) :
  is_digit b -> digit_val b = Some (byte_val b - 48) /\ 0 <= byte_val b - 48 <= 9.
Proof.
  unfold is_digit, digit_val. cbv zeta.
  destruct (Z.leb_spec 0 (byte_val b - 48)); cbn [andb]; [|congruence].
  destruct (Z.leb_spec (byte_val b - 48) 9); [|congruence].
  intros _. split; [reflexivity | lia].
Qed.

Lemma digit_not_space (b : byte) :
  is_digit b ->
  isspace b = false /\ Byte.eqb b "-" = false /\ Byte.eqb b "+" = false
  /\ Byte.eqb b NUL = false.
Proof.
  intros H. apply digit_val_some in H. destruct H as [_ H].
  destruct b; cbn in H; try lia; repeat split.
Qed.

Lemma digits_value_nonneg (ds : list byte) : Forall is_digit ds -> 0 <= digits_value ds.
Proof.
  unfold digits_value. intros H.
  assert (G : forall acc, 0 <= acc ->
            0 <= fold_left (fun a b => a * 10 + (byte_val b - 48)) ds acc).
  { induction H as [|b ds Hb _ IH]; intros acc Hacc; cbn [fold_left]; [exact Hacc|].
    apply IH. apply digit_val_some in Hb. lia. }
  apply G. lia.
Qed.

Lemma scan_digits_run (ds : list byte) (b : byte) (rest : list byte) : forall acc n,
  Forall is_digit ds ->
  digit_val b = None ->
  scan_digits (ds ++ b :: rest) acc n
  = Ret (fold_left (fun a c => a * 10 + (byte_val c - 48)) ds acc, n + len ds).
Proof.
  induction ds as [|d ds IH]; intros acc n Hds Hb.
  - cbn [app scan_digits fold_left]. rewrite Hb. change (len (@nil byte)) with 0.
    now rewrite Z.add_0_r.
  - inversion Hds as [|? ? Hd Hrest]; subst.
    cbn [app scan_digits fold_left].
    rewrite (proj1 (digit_val_some d Hd)). rewrite IH by assumption.
    do 2 f_equal. unfold len. cbn [List.length]. lia.
Qed.

(** [strtoul] on a string of digits that fits in an [unsigned long]. *)
Lemma strtoul_digits (ds : list byte) (b : byte) (rest : list byte) :
  Forall is_digit ds -> ds <> [] ->
  digit_val b = None ->
  digits_value ds <= ULONG_MAX ->
  strtoul (ds ++ b :: rest) = Ret (digits_value ds, len ds).
Proof.
  intros Hds Hne Hb Hfit. destruct ds as [|d ds]; [contradiction|].
  inversion Hds as [|? ? Hd Hrest]; subst.
  destruct (digit_not_space d Hd) as [Hsp [Hminus [Hplus _]]].
  unfold strtoul. cbn [app skip_space]. rewrite Hsp. cbn [bind].
  change (ptr_add (d :: ds ++ b :: rest) 0) with (Ret (d :: ds ++ b :: rest)).
  cbn [bind]. rewrite Hminus, Hplus.
  change (ptr_add (d :: ds ++ b :: rest) 0) with (Ret (d :: ds ++ b :: rest)).
  cbn [bind].
  change (d :: ds ++ b :: rest) with ((d :: ds) ++ b :: rest).
  rewrite (scan_digits_run (d :: ds) b rest 0 0 Hds Hb). cbn [bind].
  fold (digits_value (d :: ds)).
  assert (Hlen : 0 < len (d :: ds)) by (unfold len; cbn [List.length]; lia).
  destruct (Z.eqb_spec (0 + len (d :: ds)) 0); [lia|].
  destruct (Z.ltb_spec ULONG_MAX (digits_value (d :: ds))); [lia|].
  reflexivity.
Qed.

Lemma ptr_add_split (mem a b : list byte) (n : Z) :
  mem = a ++ b -> n = len a -> ptr_add mem n = Ret b.
Proof. intros -> ->. apply ptr_add_app. Qed.

Lemma len_cons {A : Type} (x : A) (l : list A) : len (x :: l) = 1 + len l.
Proof. unfold len. cbn [List.length]. lia. Qed.

(** [parse_value_line] on a well-formed line. *)
Lemma parse_value_line_accepts (k fd sd rest : list byte) :
  ~ In SP k -> ~ In NUL k ->
  Forall is_digit fd -> fd <> [] -> digits_value fd <= ULONG_MAX ->
  Forall is_digit sd -> sd <> [] -> digits_value sd <= ULONG_MAX ->
  parse_value_line (value_line k fd sd ++ rest)
  = Ret (Some (u32 (digits_value fd), digits_value sd, len (value_line k fd sd))).
Proof.
  intros Hksp Hknul Hfd Hfdne Hfdfit Hsd Hsdne Hsdfit.
  assert (Hfdlen : 0 < len fd).
  { destruct fd; [contradiction|]. rewrite len_cons. pose proof (len_nonneg fd). lia. }
  assert (Hsdlen : 0 < len sd).
  { destruct sd; [contradiction|]. rewrite len_cons. pose proof (len_nonneg sd). lia. }
  assert (Hlen : len (value_line k fd sd) = len k + 1 + len fd + 1 + len sd + 2).
  { unfold value_line, CRLF.
    rewrite len_app, len_cons, len_app, len_cons, len_app, !len_cons.
    change (len (@nil byte)) with 0. lia. }
  set (header := value_line k fd sd ++ rest).
  assert (H1 : header = k ++ SP :: (fd ++ SP :: sd ++ CR :: LF :: rest)).
  { unfold header, value_line, CRLF.
    repeat first [rewrite <- app_assoc | progress cbn [app]]. reflexivity. }
  assert (H2 : header = (k ++ [SP]) ++ fd ++ SP :: (sd ++ CR :: LF :: rest)).
  { rewrite H1. repeat first [rewrite <- app_assoc | progress cbn [app]]. reflexivity. }
  assert (H3 : header = (k ++ [SP] ++ fd ++ [SP]) ++ sd ++ CR :: (LF :: rest)).
  { rewrite H1. repeat first [rewrite <- app_assoc | progress cbn [app]]. reflexivity. }
  assert (H4 : header = (k ++ [SP] ++ fd ++ [SP] ++ sd) ++ CRLF ++ rest).
  { rewrite H1. unfold CRLF.
    repeat first [rewrite <- app_assoc | progress cbn [app]]. reflexivity. }
  unfold parse_value_line.
  rewrite H1 at 1. rewrite (strchr_first SP k _ Hksp Hknul). cbn [bind].
  rewrite (ptr_add_split header _ _ (len k + 1) H2)
    by (rewrite len_app, len_cons; change (len (@nil byte)) with 0; lia).
  cbn [bind].
  rewrite (strtoul_digits fd SP _ Hfd Hfdne eq_refl Hfdfit). cbn [bind].
  destruct (Z.eqb_spec (len fd) 0); [lia|].
  rewrite (ptr_add_split header _ _ (len k + 1 + len fd + 1) H3)
    by (rewrite !len_app, !len_cons; change (len (@nil byte)) with 0; lia).
  cbn [bind].
  rewrite (strtoul_digits sd CR _ Hsd Hsdne eq_refl Hsdfit). cbn [bind].
  destruct (Z.eqb_spec (len sd) 0); [lia|].
  rewrite (ptr_add_split header _ _ (len k + 1 + len fd + 1 + len sd) H4)
    by (rewrite !len_app, !len_cons; change (len (@nil byte)) with 0; lia).
  cbn [bind].
  rewrite strstr_at_start_app. cbn [bind negb].
  do 3 f_equal. lia.
Qed.

(** [parse_value_line] accepts every line of the form
    [<key> <flags> <bytes>\r\n] whose key has no space and whose two
    numbers are decimal digits that fit an [unsigned long]: it returns
    the flags cut to 32 bits and the size as written, and the data
    pointer it hands back designates the byte after the line feed,
    whatever follows. *)
Theorem parse_value_line_well_formed (k fd sd rest : list byte) :
  ~ In SP k -> ~ In NUL k ->
  Forall is_digit fd -> fd <> [] -> digits_value fd <= ULONG_MAX ->
  Forall is_digit sd -> sd <> [] -> digits_value sd <= ULONG_MAX ->
  exists off,
    parse_value_line (value_line k fd sd ++ rest)
    = Ret (Some (u32 (digits_value fd), digits_value sd, off))
    /\ ptr_add (value_line k fd sd ++ rest) off = Ret rest.
Proof.
  intros Hksp Hknul Hfd Hfdne Hfdfit Hsd Hsdne Hsdfit.
  exists (len (value_line k fd sd)). split.
  - now apply parse_value_line_accepts.
  - apply ptr_add_app.
Qed.

(** The line of the key [k], flags 0, five bytes. *)
Lemma parse_value_line_well_formed_witness :
  exists off,
    parse_value_line (value_line (bytes "k") (bytes "0") (bytes "5")
                      ++ bytes "hello" ++ CRLF)
    = Ret (Some (0, 5, off))
    /\ ptr_add (value_line (bytes "k") (bytes "0") (bytes "5") ++ bytes "hello" ++ CRLF) off
       = Ret (bytes "hello" ++ CRLF).
Proof.
  refine (parse_value_line_well_formed (bytes "k") (bytes "0") (bytes "5")
            (bytes "hello" ++ CRLF) _ _ _ _ _ _ _ _).
  - cbn. intuition discriminate.
  - cbn. intuition discriminate.
  - repeat constructor; discriminate.
  - discriminate.
  - vm_compute. discriminate.
  - repeat constructor; discriminate.
  - discriminate.
  - vm_compute. discriminate.
Defined.

Lemma skip_space_nonneg (s : list byte) : forall n, skip_space s = Ret n -> 0 <= n.
Proof.
  induction s as [|b s IH]; intros n; cbn [skip_space]; [discriminate|].
  destruct (isspace b).
  - destruct (skip_space s) as [m| | |]; cbn [bind]; try discriminate.
    intros H. injection H as <-. specialize (IH m eq_refl). lia.
  - intros H. injection H as <-. lia.
Qed.

Lemma scan_digits_nonneg (s : list byte) : forall acc n v m,
  0 <= acc -> 0 <= n -> scan_digits s acc n = Ret (v, m) -> 0 <= v /\ n <= m.
Proof.
  induction s as [|b s IH]; intros acc n v m Hacc Hn; cbn [scan_digits]; [discriminate|].
  destruct (digit_val b) as [d|] eqn:E.
  - intros H. apply IH in H.
    + lia.
    + unfold digit_val in E. cbv zeta in E.
      destruct (Z.leb_spec 0 (byte_val b - 48)); cbn [andb] in E; [|discriminate].
      destruct (byte_val b - 48 <=? 9); [|discriminate].
      injection E as <-. lia.
    + lia.
  - intros H. injection H as <- <-. lia.
Qed.

Lemma strtoul_range (s : list byte) (v n : Z) :
  strtoul s = Ret (v, n) -> 0 <= v <= ULONG_MAX /\ 0 <= n.
Proof.
  unfold strtoul.
  destruct (skip_space s) as [sp| | |] eqn:Esp; cbn [bind]; try discriminate.
  apply skip_space_nonneg in Esp.
  destruct (ptr_add s sp) as [rest| | |]; cbn [bind]; try discriminate.
  set (sign := match rest with
               | [] => (false, 0)
               | b :: _ => if Byte.eqb b "-" then (true, 1)
                           else if Byte.eqb b "+" then (false, 1) else (false, 0)
               end).
  assert (Hsgn : 0 <= snd sign).
  { unfold sign. destruct rest as [|b ?]; cbn; [lia|].
    destruct (Byte.eqb b "-"); cbn; [lia|]. destruct (Byte.eqb b "+"); cbn; lia. }
  destruct sign as [neg sgn]. cbn [snd] in Hsgn.
  destruct (ptr_add rest sgn) as [digits| | |]; cbn [bind]; try discriminate.
  destruct (scan_digits digits 0 0) as [[v0 m]| | |] eqn:Escan; cbn [bind]; try discriminate.
  apply scan_digits_nonneg in Escan; [|lia|lia].
  destruct (m =? 0).
  - intros H. injection H as <- <-. unfold ULONG_MAX. lia.
  - intros H. injection H as <- <-. split; [|lia].
    destruct (Z.ltb_spec ULONG_MAX v0); [unfold ULONG_MAX; lia|].
    destruct neg; [|lia].
    unfold u64, ULONG_MAX. pose proof (Z.mod_pos_bound (- v0) (2 ^ 64)). lia.
Qed.

(** What [parse_value_line] accepts: the flags fit in 32 bits, the size in
    an [unsigned long], and the data pointer is inside the header's
    memory, right after a CRLF. *)
Theorem parse_value_line_in_bounds (header : list byte) (flag n off : Z) :
  parse_value_line header = Ret (Some (flag, n, off)) ->
  0 <= flag < 2 ^ 32
  /\ 0 <= n <= ULONG_MAX
  /\ 2 <= off <= len header
  /\ exists pre rest, header = pre ++ CRLF ++ rest /\ len pre = off - 2.
Proof.
  unfold parse_value_line.
  destruct (strchr header " ") as [[e|]| | |]; cbn [bind]; try discriminate.
  destruct (ptr_add header (e + 1)) as [m1| | |]; cbn [bind]; try discriminate.
  destruct (strtoul m1) as [[v1 n1]| | |] eqn:E1; cbn [bind]; try discriminate.
  destruct (n1 =? 0); [discriminate|].
  destruct (ptr_add header (e + 1 + n1 + 1)) as [m2| | |]; cbn [bind]; try discriminate.
  destruct (strtoul m2) as [[v2 n2]| | |] eqn:E2; cbn [bind]; try discriminate.
  destruct (n2 =? 0); [discriminate|].
  destruct (ptr_add header (e + 1 + n1 + 1 + n2)) as [m3| | |] eqn:E3; cbn [bind];
    try discriminate.
  destruct (strstr_at_start m3 CRLF) as [crlf| | |] eqn:E4; cbn [bind]; try discriminate.
  destruct crlf; cbn [negb]; [|discriminate].
  intros H. injection H as <- <- <-.
  apply strtoul_range in E2. apply ptr_add_spec in E3. destruct E3 as [Hoff Hm3].
  apply strstr_at_start_true in E4. destruct E4 as [rest Hrest].
  assert (Hsplit : header = firstn (Z.to_nat (e + 1 + n1 + 1 + n2)) header ++ CRLF ++ rest).
  { rewrite <- Hrest, Hm3. now rewrite firstn_skipn. }
  assert (Hpre : len (firstn (Z.to_nat (e + 1 + n1 + 1 + n2)) header) = e + 1 + n1 + 1 + n2).
  { apply len_firstn. lia. }
  split; [unfold u32; apply Z.mod_pos_bound; lia|].
  split; [lia|]. split.
  - split; [lia|]. rewrite Hsplit, !len_app, Hpre.
    change (len CRLF) with 2. pose proof (len_nonneg rest). lia.
  - exists (firstn (Z.to_nat (e + 1 + n1 + 1 + n2)) header), rest.
    split; [exact Hsplit | lia].
Qed.

(** A header line that is accepted. *)
Lemma parse_value_line_in_bounds_witness :
  0 <= 0 < 2 ^ 32
  /\ 0 <= 5 <= ULONG_MAX
  /\ 2 <= 7 <= len (value_line (bytes "k") (bytes "0") (bytes "5") ++ bytes "hello")
  /\ exists pre rest,
       value_line (bytes "k") (bytes "0") (bytes "5") ++ bytes "hello"
       = pre ++ CRLF ++ rest
       /\ len pre = 7 - 2.
Proof.
  exact (parse_value_line_in_bounds
           (value_line (bytes "k") (bytes "0") (bytes "5") ++ bytes "hello") 0 5 7 eq_refl).
Defined.

(** *** What a read leaves of the script *)

(** One [recv] leaves a script that is no longer and has no new hard
    error. *)
Lemma recv_script (w : World) (fd n : Z) :
  (Forall recv_soft (net_in w) -> Forall recv_soft (net_in (snd (recv w fd n))))
  /\ (List.length (net_in (snd (recv w fd n))) <= List.length (net_in w))%nat.
Proof.
  unfold recv. destruct (fd <? 0); [cbn; split; [auto|lia]|].
  destruct (net_in w) as [|[cs|e] rest] eqn:Hin.
  - cbn [snd]. rewrite Hin. split; [auto|lia].
  - cbn [snd net_in set_net_in]. destruct (skipn (Z.to_nat n) cs).
    + split; [intros H; now inversion H | cbn; lia].
    + split; [intros H; inversion H; constructor; [exact I | assumption] | cbn; lia].
  - cbn [snd net_in set_net_in set_errno]. split; [intros H; now inversion H | cbn; lia].
Qed.

Lemma server_receive_loop_script (fuel : nat) :
  forall server dat sz line offset stop w r s' d' w',
  server_receive_loop fuel server dat sz line offset stop w = Ret (r, s', d', w') ->
  (Forall recv_soft (net_in w) -> Forall recv_soft (net_in w'))
  /\ (List.length (net_in w') <= List.length (net_in w))%nat.
Proof.
  induction fuel as [|fuel IH]; intros server dat sz line offset stop w r s' d' w';
    [discriminate|].
  cbn [server_receive_loop].
  pose proof (recv_script w (sock server) (sz - offset)) as [Hsoft Hlen].
  destruct (recv w (sock server) (sz - offset)) as [[nread bs] w1]. cbn [snd] in Hsoft, Hlen.
  assert (Hend : forall dat0 offset0 stop0,
             server_receive_end server dat0 line offset0 stop0 w1 = Ret (r, s', d', w') ->
             w' = w1).
  { intros dat0 offset0 stop0. unfold server_receive_end.
    destruct (line && negb stop0); intros H; now injection H. }
  assert (Hrec : forall dat0 offset0 stop0,
             server_receive_loop fuel server dat0 sz line offset0 stop0 w1
             = Ret (r, s', d', w') ->
             (Forall recv_soft (net_in w) -> Forall recv_soft (net_in w'))
             /\ (List.length (net_in w') <= List.length (net_in w))%nat).
  { intros dat0 offset0 stop0 H. apply IH in H. destruct H as [H1 H2].
    split; [auto | lia]. }
  destruct (nread =? -1).
  - destruct (negb (errno w1 =? EINTR)).
    + intros H. injection H as <- <- <- <-. now split.
    + destruct ((offset <? sz) && negb stop); [apply Hrec|].
      intros H. apply Hend in H. subst w'. now split.
  - destruct (mem_write dat offset bs) as [dat1| | |]; cbn [bind]; try discriminate.
    destruct (if line
              then p <- ptr_add dat1 offset;;
                   r0 <- strchr p CR;;
                   Ret match r0 with Some _ => true | None => stop end
              else Ret stop) as [stop1| | |]; cbn [bind]; try discriminate.
    destruct ((offset + nread <? sz) && negb stop1); [apply Hrec|].
    intros H. apply Hend in H. subst w'. now split.
Qed.

(** An exact-length read over a script with no hard error and enough
    bytes to come: the call, its buffer and the world it leaves. *)
Lemma server_receive_exact_run (fuel : nat) (server : Server) (dat : list byte)
    (sz : Z) (w : World) :
  0 <= sock server ->
  0 <= sz <= len dat ->
  Forall recv_soft (net_in w) ->
  sz <= len (stream_bytes (net_in w)) ->
  (List.length (net_in w) < fuel)%nat ->
  exists w',
    server_receive fuel server dat sz false w
    = Ret (sz, server,
           firstn (Z.to_nat sz) (stream_bytes (net_in w)) ++ skipn (Z.to_nat sz) dat, w')
    /\ stream_bytes (net_in w') = skipn (Z.to_nat sz) (stream_bytes (net_in w))
    /\ wire w' = wire w /\ net_out w' = net_out w /\ malloc_limit w' = malloc_limit w
    /\ Forall recv_soft (net_in w')
    /\ (List.length (net_in w') <= List.length (net_in w))%nat.
Proof.
  intros Hfd Hsz Hsoft Hlen Hfuel.
  destruct (server_receive_loop_exact server (net_in w) fuel dat sz 0 w)
    as [d' [w' [Hrun [_ [_ [Hw [Ho Hm]]]]]]]; try assumption; try reflexivity; try lia.
  unfold server_receive.
  destruct (server_receive_loop_stream _ _ _ _ _ _ _ _ _ _ _ _ (Z.le_refl 0) Hrun)
    as [k [Hk [Hd [Hs [Hr _]]]]].
  rewrite Z.sub_0_r in Hd, Hs. change (Z.to_nat 0) with 0%nat in Hd.
  cbn [firstn app] in Hd.
  destruct (server_receive_loop_script _ _ _ _ _ _ _ _ _ _ _ _ Hrun) as [Hsc Hln].
  destruct Hr as [[<- _]|[_ [E|E]]].
  - exists w'. rewrite Hrun, Hd. repeat split; auto.
  - exfalso. pose proof (proj1 (receive_failed_disconnected server w')) as Hs1.
    rewrite <- E in Hs1. lia.
  - exfalso. pose proof (proj1 (protocol_error_disconnected server)) as Hs1.
    rewrite <- E in Hs1. lia.
Qed.

(** *** A textual fetch that hits *)

Lemma strchr_found (c : byte) (pre post : list byte) :
  ~ In NUL pre -> exists j, strchr (pre ++ c :: post) c = Ret (Some j).
Proof.
  induction pre as [|b pre IH]; intros Hn.
  - exists 0. cbn [app strchr]. now rewrite byte_eqb_refl.
  - cbn [app strchr]. destruct (Byte.eqb b c); [now exists 0|].
    destruct (Byte.eqb b NUL) eqn:E0.
    { exfalso. apply Hn. left. now apply Byte.byte_dec_bl. }
    destruct IH as [j Hj]; [intros H; apply Hn; now right|].
    rewrite Hj. cbn [bind option_map]. now eexists.
Qed.

(** A line read whose first read brings the carriage return. *)
Lemma server_receive_line_first_read (fuel : nat) (server : Server)
    (dat bs pre post : list byte) (sz : Z) (w : World) (rest : list recv_event) :
  0 <= sock server ->
  net_in w = RecvData bs :: rest ->
  len bs <= sz -> sz <= len dat ->
  bs = pre ++ CR :: post -> ~ In NUL pre ->
  server_receive (S fuel) server dat sz true w
  = Ret (len bs, server, bs ++ skipn (Z.to_nat (len bs)) dat, set_net_in w rest).
Proof.
  intros Hfd Hin Hfit Hsz Hbs Hnul.
  unfold server_receive. cbn [server_receive_loop].
  rewrite (recv_data w _ _ bs rest Hfd Hin). rewrite Z.sub_0_r.
  rewrite (firstn_all2 bs) by (unfold len in *; lia).
  rewrite (skipn_all2 bs) by (unfold len in *; lia).
  rewrite len_eqb_m1. pose proof (len_nonneg bs) as Hlen.
  rewrite mem_write_ok by lia. cbn [bind].
  change (Z.to_nat 0) with 0%nat. cbn [firstn app]. rewrite Z.add_0_l.
  rewrite (ptr_add_split (bs ++ skipn (Z.to_nat (len bs)) dat) []
             (bs ++ skipn (Z.to_nat (len bs)) dat) 0 eq_refl eq_refl).
  cbn [bind].
  destruct (strchr_found CR pre (post ++ skipn (Z.to_nat (len bs)) dat) Hnul) as [j Hj].
  replace (bs ++ skipn (Z.to_nat (len bs)) dat)
    with (pre ++ CR :: post ++ skipn (Z.to_nat (len bs)) dat) at 1
    by (rewrite Hbs, <- app_assoc; reflexivity).
  rewrite Hj. cbn [bind]. rewrite andb_false_r.
  unfold server_receive_end. cbn [andb negb]. reflexivity.
Qed.

Lemma digits_no_nul (ds : list byte) : Forall is_digit ds -> ~ In NUL ds.
Proof.
  induction 1 as [|d ds Hd _ IH]; [intros []|].
  intros [E|Hin]; [|now apply IH].
  subst d. destruct (digit_not_space NUL Hd) as [_ [_ [_ H]]]. discriminate H.
Qed.

Lemma len_value_response (k fd sd payload : list byte) :
  len (value_response k fd sd payload)
  = 6 + len (value_line k fd sd) + len payload + 7.
Proof.
  unfold value_response. rewrite !len_app.
  change (len (bytes "VALUE ")) with 6. change (len CRLF) with 2.
  change (len (bytes "END")) with 3. lia.
Qed.


Lemma firstn_len_app (a b : list byte) : firstn (Z.to_nat (len a)) (a ++ b) = a.
Proof. unfold len. rewrite Nat2Z.id. now apply firstn_app_exact. Qed.

Lemma skipn_len_app (a b : list byte) : skipn (Z.to_nat (len a)) (a ++ b) = b.
Proof.
  unfold len. rewrite Nat2Z.id, skipn_app, skipn_all, Nat.sub_diag. reflexivity.
Qed.

Lemma len_firstn_skipn_rest (dat : list byte) (n m : Z) :
  0 <= n -> 0 <= m -> n + m <= len dat -> m <= len (skipn (Z.to_nat n) dat).
Proof. intros Hn Hm H. unfold len in *. rewrite length_skipn. lia. Qed.

Lemma set_buffer_same (server : Server) : set_buffer server (buffer server) = server.
Proof. now destruct server. Qed.

Lemma u64_small (z : Z) : 0 <= z < 2 ^ 64 -> u64 z = z.
Proof. intros H. unfold u64. now apply Z.mod_small. Qed.

Lemma u64_add_l (a b : Z) : u64 (u64 a + b) = u64 (a + b).
Proof. unfold u64. now rewrite Zplus_mod_idemp_l. Qed.

(** What [textual_get] does once the first read has brought the header
    line and the part [c1] of what follows it; the rest [c2] of the value
    and of the trailer is still to come. *)
Lemma textual_get_decode_hit (fuel : nat) (server : Server) (item : Item) (w : World)
    (k fd sd payload c1 c2 tail : list byte) :
  buffer server = (bytes "VALUE " ++ value_line k fd sd ++ c1) ++ tail ->
  c1 ++ c2 = payload ++ CRLF ++ bytes "END" ++ CRLF ->
  0 <= sock server ->
  len c2 <= len tail ->
  Forall recv_soft (net_in w) ->
  starts_with c2 (stream_bytes (net_in w)) ->
  (List.length (net_in w) < fuel)%nat ->
  ~ In SP k -> ~ In NUL k ->
  Forall is_digit fd -> fd <> [] -> digits_value fd <= ULONG_MAX ->
  Forall is_digit sd -> sd <> [] ->
  digits_value sd = len payload ->
  len payload + 7 < 2 ^ 64 ->
  size item < len payload ->
  len payload <= malloc_limit w ->
  exists w',
    textual_get_decode fuel server item
      (len (bytes "VALUE " ++ value_line k fd sd ++ c1)) w
    = Ret (0,
           set_buffer server
             (value_response k fd sd payload ++ skipn (Z.to_nat (len c2)) tail),
           set_data (set_size item (len payload)) (Some payload), w')
    /\ stream_bytes (net_in w') = skipn (Z.to_nat (len c2)) (stream_bytes (net_in w))
    /\ wire w' = wire w.
Proof.
  intros Hbuf Hcut Hfd Hroom Hsoft [later Hlater] Hfuel Hksp Hknul Hfdd Hfdne Hfdfit
         Hsdd Hsdne Hval Hbound Hsmall Hlim.
  pose proof (len_nonneg payload) as Hpl.
  pose proof (len_nonneg (value_line k fd sd)) as Hvl.
  pose proof (len_nonneg c1) as Hc1. pose proof (len_nonneg c2) as Hc2.
  assert (Hsum : len c1 + len c2 = len payload + 7).
  { rewrite <- len_app, Hcut, !len_app. change (len CRLF) with 2.
    change (len (bytes "END")) with 3. lia. }
  assert (Hnread : len (bytes "VALUE " ++ value_line k fd sd ++ c1)
                   = 6 + len (value_line k fd sd) + len c1).
  { rewrite !len_app. change (len (bytes "VALUE ")) with 6. lia. }
  assert (Hwhole : (bytes "VALUE " ++ value_line k fd sd ++ c1) ++ c2
                   = value_response k fd sd payload).
  { unfold value_response. rewrite <- Hcut.
    repeat rewrite <- app_assoc. reflexivity. }
  unfold textual_get_decode.
  assert (B1 : buffer server
               = bytes "VALUE " ++ (value_line k fd sd ++ (c1 ++ tail))).
  { rewrite Hbuf. repeat rewrite <- app_assoc. reflexivity. }
  assert (E1 : strstr_at_start (buffer server) (bytes "VALUE ") = Ret true).
  { rewrite B1. apply strstr_at_start_app. }
  rewrite E1. cbn [bind].
  rewrite (ptr_add_split _ _ _ 6 B1 eq_refl). cbn [bind].
  rewrite parse_value_line_accepts; try assumption;
    [|rewrite Hval; unfold ULONG_MAX; lia].
  cbn [bind]. rewrite Hval, Hnread.
  replace (6 + len (value_line k fd sd) + len c1 - (6 + len (value_line k fd sd)))
    with (len c1) by lia.
  rewrite (u64_small (len c1)) by lia. rewrite (u64_small (len payload + 7)) by lia.
  rewrite u64_add_l.
  replace (len payload - len c1 + 7) with (len c2) by lia.
  rewrite (u64_small (len c2)) by lia.
  match goal with
  | |- context [bind ?m _] =>
      assert (Hfill : exists w',
                 m = Ret (set_buffer server
                            (value_response k fd sd payload
                             ++ skipn (Z.to_nat (len c2)) tail), w')
                 /\ stream_bytes (net_in w')
                    = skipn (Z.to_nat (len c2)) (stream_bytes (net_in w))
                 /\ wire w' = wire w /\ malloc_limit w' = malloc_limit w)
  end.
  { destruct (Z.ltb_spec (len c1) (len payload + 7)) as [Hlt|Hge].
    - rewrite Hbuf.
      rewrite (ptr_add_split _ _ tail _ eq_refl (eq_sym Hnread)). cbn [bind].
      destruct (server_receive_exact_run fuel server tail (len c2) w)
        as [w' [Hrun [Hs [Hw [_ [Hm _]]]]]]; try assumption; try lia.
      { rewrite Hlater, len_app. pose proof (len_nonneg later). lia. }
      rewrite Hrun. cbn [bind]. exists w'. repeat split; try assumption.
      do 2 f_equal. rewrite <- Hnread, firstn_len_app, Hlater, firstn_len_app.
      rewrite <- Hwhole. repeat rewrite <- app_assoc. reflexivity.
    - exists w. assert (Hz : len c2 <= 0) by lia.
      apply len_zero_nil in Hz. subst c2. change (len (@nil byte)) with 0.
      change (Z.to_nat 0) with 0%nat. cbn [skipn].
      rewrite <- Hwhole, app_nil_r, <- Hbuf, set_buffer_same. repeat split. }
  destruct Hfill as [w' [Hfill [Hs [Hw Hm]]]]. rewrite Hfill. cbn [bind].
  cbn [buffer set_buffer].
  assert (B2 : value_response k fd sd payload ++ skipn (Z.to_nat (len c2)) tail
               = (bytes "VALUE " ++ value_line k fd sd)
                 ++ (payload ++ CRLF ++ bytes "END" ++ CRLF
                     ++ skipn (Z.to_nat (len c2)) tail)).
  { unfold value_response. repeat rewrite <- app_assoc. reflexivity. }
  rewrite (ptr_add_split _ _ _ (6 + len (value_line k fd sd)) B2)
    by (rewrite len_app; reflexivity).
  cbn [bind].
  rewrite textual_get_copy_grows; try assumption; try lia.
  - cbn [bind]. rewrite firstn_len_app. exists w'. repeat split; assumption.
  - rewrite len_app.
    pose proof (len_nonneg (CRLF ++ bytes "END" ++ CRLF ++ skipn (Z.to_nat (len c2)) tail)).
    lia.
Qed.

(** A fetch that hits, end to end.  The request "get <key>\r\n" goes out
    over a transport with no hard error.  The first read brings the line
    "VALUE <key> <flags> <n>\r\n" and a part [c1] of what follows it; the
    rest [c2] of the [n] bytes of the value and of the trailer
    "\r\nEND\r\n" comes in later reads, cut in any way, and the whole
    response fits the allocation of the scratch buffer.  The item's
    [size] is smaller than [n].  Then [textual_get] returns 0, the item
    holds a fresh buffer with exactly the [n] bytes of the value, its
    [size] is [n], the connection is untouched but for the scratch
    buffer, which holds the response, and the stream continues after the
    trailer. *)
Theorem textual_get_hit (fuel : nat) (server : Server) (item : Item) (w : World)
    (k fd sd payload c1 c2 : list byte) (more : list recv_event) :
  0 <= sock server ->
  Forall send_soft (net_out w) ->
  (List.length (net_out w) < fuel)%nat ->
  0 <= keylen item <= len (key_mem item) ->
  net_in w = RecvData (bytes "VALUE " ++ value_line k fd sd ++ c1) :: more ->
  c1 ++ c2 = payload ++ CRLF ++ bytes "END" ++ CRLF ->
  Forall recv_soft more ->
  starts_with c2 (stream_bytes more) ->
  (List.length more < fuel)%nat ->
  ~ In SP k -> ~ In NUL k ->
  Forall is_digit fd -> fd <> [] -> digits_value fd <= ULONG_MAX ->
  Forall is_digit sd -> sd <> [] ->
  digits_value sd = len payload ->
  len (bytes "VALUE " ++ value_line k fd sd ++ c1) <= buffersize server ->
  buffersize server <= len (buffer server) ->
  len (value_response k fd sd payload) <= len (buffer server) ->
  len (buffer server) < 2 ^ 64 ->
  size item < len payload ->
  len payload <= malloc_limit w ->
  exists w',
    textual_get fuel server item w
    = Ret (0,
           set_buffer server
             (value_response k fd sd payload
              ++ skipn (Z.to_nat (len (value_response k fd sd payload))) (buffer server)),
           set_data (set_size item (len payload)) (Some payload),
           w')
    /\ wire w' = wire w ++ bytes "get " ++ firstn (Z.to_nat (keylen item)) (key_mem item)
                 ++ CRLF
    /\ stream_bytes (net_in w') = skipn (Z.to_nat (len c2)) (stream_bytes more).
Proof.
  intros Hfd Hsoft Hfuel Hkey Hin Hcut Hrsoft Hlater Hrfuel Hksp Hknul Hfdd Hfdne Hfdfit
         Hsdd Hsdne Hval Hfit Hbuf Hroom Hint Hsmall Hlim.
  assert (Hiov : Forall iov_ok (textual_get_iovec item)).
  { unfold textual_get_iovec.
    apply Forall_cons; [unfold iov_ok, len; cbn; lia|].
    apply Forall_cons; [exact Hkey|].
    apply Forall_cons; [unfold iov_ok, len; cbn; lia|]. apply Forall_nil. }
  destruct (server_sendv_loop_delivers server (net_out w) fuel (textual_get_iovec item) w)
    as [w1 [Hsend [Hwire [Hin1 Hlim1]]]]; try assumption; try reflexivity.
  unfold textual_get, server_sendv. rewrite (iov_total_message _ Hiov), Hsend.
  cbn [bind].
  destruct fuel as [|fuel]; [inversion Hfuel|].
  pose proof (len_value_response k fd sd payload) as Hlen.
  pose proof (len_nonneg payload) as Hpl.
  pose proof (len_nonneg (value_line k fd sd)) as Hvl.
  pose proof (len_nonneg c1) as Hc1. pose proof (len_nonneg c2) as Hc2.
  set (bs := bytes "VALUE " ++ value_line k fd sd ++ c1) in *.
  assert (Hsum : len c1 + len c2 = len payload + 7).
  { rewrite <- len_app, Hcut, !len_app. change (len CRLF) with 2.
    change (len (bytes "END")) with 3. lia. }
  assert (Hnread : len bs = 6 + len (value_line k fd sd) + len c1).
  { unfold bs. rewrite !len_app. change (len (bytes "VALUE ")) with 6. lia. }
  assert (Hsplit : bs = (bytes "VALUE " ++ k ++ SP :: fd ++ SP :: sd)
                        ++ CR :: (LF :: c1)).
  { unfold bs, value_line, CRLF.
    repeat first [rewrite <- app_assoc | progress cbn [app]]. reflexivity. }
  rewrite (server_receive_line_first_read fuel server (buffer server) bs
             (bytes "VALUE " ++ k ++ SP :: fd ++ SP :: sd) (LF :: c1)
             (buffersize server) w1 more Hfd);
    [| now rewrite Hin1 | assumption | assumption | exact Hsplit |].
  - cbn [bind].
    destruct (textual_get_decode_hit (S fuel)
                (set_buffer server (bs ++ skipn (Z.to_nat (len bs)) (buffer server)))
                item (set_net_in w1 more) k fd sd payload c1 c2
                (skipn (Z.to_nat (len bs)) (buffer server)))
      as [w' [Hrun [Hs Hw]]]; try assumption; try reflexivity; try lia.
    + apply len_firstn_skipn_rest; lia.
    + cbn [malloc_limit set_net_in]. lia.
    + fold bs in Hrun. rewrite Hrun. exists w'. split; [|split].
      * do 3 f_equal. unfold set_buffer at 1 2 3.
        cbn [sock errmsg peername buffersize buffer].
        do 2 f_equal. rewrite skipn_skipn.
        replace (Z.to_nat (len c2) + Z.to_nat (len bs))%nat
          with (Z.to_nat (len (value_response k fd sd payload)))
          by (clearbody bs; unfold len in *; lia).
        reflexivity.
      * rewrite Hw. cbn [wire set_net_in]. rewrite Hwire. reflexivity.
      * exact Hs.
  - intros Hnul. apply in_app_or in Hnul. destruct Hnul as [Hnul|Hnul].
    { cbn in Hnul. intuition discriminate. }
    apply in_app_or in Hnul. destruct Hnul as [Hnul|[Hnul|Hnul]].
    { contradiction. }
    { discriminate. }
    apply in_app_or in Hnul. destruct Hnul as [Hnul|[Hnul|Hnul]].
    { now apply (digits_no_nul fd). }
    { discriminate. }
    now apply (digits_no_nul sd).
Qed.

(** The key [k] holds "hello"; the first read ends in the middle of the
    value and the rest comes after an interruption. *)
Lemma textual_get_hit_witness :
  exists w',
    textual_get 4 fetch_server fresh_item
      (mkWorld [RecvData (bytes "VALUE k 0 5" ++ CRLF ++ bytes "hel"); RecvErr EINTR;
                RecvData (bytes "lo" ++ CRLF ++ bytes "END" ++ CRLF ++ bytes "next")]
         [] [] 0 1024)
    = Ret (0,
           set_buffer fetch_server
             (value_response (bytes "k") (bytes "0") (bytes "5") (bytes "hello")
              ++ repeat NUL 39),
           set_data (set_size fresh_item 5) (Some (bytes "hello")),
           w')
    /\ wire w' = bytes "get k" ++ CRLF
    /\ stream_bytes (net_in w') = bytes "next".
Proof.
  refine (textual_get_hit 4 fetch_server fresh_item
            (mkWorld [RecvData (bytes "VALUE k 0 5" ++ CRLF ++ bytes "hel"); RecvErr EINTR;
                      RecvData (bytes "lo" ++ CRLF ++ bytes "END" ++ CRLF ++ bytes "next")]
               [] [] 0 1024)
            (bytes "k") (bytes "0") (bytes "5") (bytes "hello")
            (bytes "hel") (bytes "lo" ++ CRLF ++ bytes "END" ++ CRLF) _
            _ _ _ _ eq_refl eq_refl _ _ _ _ _ _ _ _ _ _ _ _ _ _ _ _ _).
  - cbn. lia.
  - constructor.
  - cbn. lia.
  - unfold len. cbn. lia.
  - repeat constructor.
  - exists (bytes "next"). reflexivity.
  - cbn. lia.
  - cbn. intuition discriminate.
  - cbn. intuition discriminate.
  - repeat constructor; discriminate.
  - discriminate.
  - vm_compute. discriminate.
  - repeat constructor; discriminate.
  - discriminate.
  - reflexivity.
  - vm_compute. discriminate.
  - vm_compute. discriminate.
  - vm_compute. discriminate.
  - vm_compute. reflexivity.
  - vm_compute. reflexivity.
  - vm_compute. discriminate.
Defined.

Lemma mem_write_overflow (dat bs : list byte) (off : Z) :
  len dat < off + len bs -> mem_write dat off bs = Undef.
Proof.
  intros H. unfold mem_write.
  destruct (Z.leb_spec (off + len bs) (len dat)); [lia|]. now rewrite andb_false_r.
Qed.

(** [textual_get] never checks the announced size of a value against
    the scratch buffer.  When the first read leaves the value incomplete
    and the next read brings more bytes of it than the allocation still
    has room for, the call writes past the end of the buffer. *)
Theorem textual_get_overflows_scratch_buffer (fuel : nat) (server : Server)
    (item : Item) (w : World) (k fd sd c1 c2 : list byte) (more : list recv_event) :
  0 <= sock server ->
  Forall send_soft (net_out w) ->
  (List.length (net_out w) < fuel)%nat ->
  0 <= keylen item <= len (key_mem item) ->
  net_in w = RecvData (bytes "VALUE " ++ value_line k fd sd ++ c1)
             :: RecvData c2 :: more ->
  ~ In SP k -> ~ In NUL k ->
  Forall is_digit fd -> fd <> [] -> digits_value fd <= ULONG_MAX ->
  Forall is_digit sd -> sd <> [] ->
  digits_value sd + 7 < 2 ^ 64 ->
  len (bytes "VALUE " ++ value_line k fd sd ++ c1) <= buffersize server ->
  buffersize server <= len (buffer server) ->
  len (buffer server) < 2 ^ 64 ->
  len c1 + len c2 <= digits_value sd + 7 ->
  len (buffer server) < len (bytes "VALUE " ++ value_line k fd sd ++ c1) + len c2 ->
  textual_get fuel server item w = Undef.
Proof.
  intros Hfd Hsoft Hfuel Hkey Hin Hksp Hknul Hfdd Hfdne Hfdfit Hsdd Hsdne Hbound
         Hfit Hbuf Hint Hpart Hover.
  assert (Hiov : Forall iov_ok (textual_get_iovec item)).
  { unfold textual_get_iovec.
    apply Forall_cons; [unfold iov_ok, len; cbn; lia|].
    apply Forall_cons; [exact Hkey|].
    apply Forall_cons; [unfold iov_ok, len; cbn; lia|]. apply Forall_nil. }
  destruct (server_sendv_loop_delivers server (net_out w) fuel (textual_get_iovec item) w)
    as [w1 [Hsend [Hwire [Hin1 Hlim1]]]]; try assumption; try reflexivity.
  unfold textual_get, server_sendv. rewrite (iov_total_message _ Hiov), Hsend.
  cbn [bind].
  destruct fuel as [|fuel]; [inversion Hfuel|].
  pose proof (len_nonneg (value_line k fd sd)) as Hvl.
  pose proof (len_nonneg c1) as Hc1. pose proof (len_nonneg c2) as Hc2.
  pose proof (digits_value_nonneg sd) as Hn.
  set (bs := bytes "VALUE " ++ value_line k fd sd ++ c1) in *.
  assert (Hnread : len bs = 6 + len (value_line k fd sd) + len c1).
  { unfold bs. rewrite !len_app. change (len (bytes "VALUE ")) with 6. lia. }
  assert (Hsplit : bs = (bytes "VALUE " ++ k ++ SP :: fd ++ SP :: sd)
                        ++ CR :: (LF :: c1)).
  { unfold bs, value_line, CRLF.
    repeat first [rewrite <- app_assoc | progress cbn [app]]. reflexivity. }
  rewrite (server_receive_line_first_read fuel server (buffer server) bs
             (bytes "VALUE " ++ k ++ SP :: fd ++ SP :: sd) (LF :: c1)
             (buffersize server) w1 (RecvData c2 :: more) Hfd);
    [| now rewrite Hin1 | assumption | assumption | exact Hsplit |].
  - cbn [bind]. unfold textual_get_decode. cbn [buffer set_buffer].
    set (tail := skipn (Z.to_nat (len bs)) (buffer server)).
    assert (Htail : len tail = len (buffer server) - len bs).
    { unfold tail, len. rewrite length_skipn. unfold len in *. lia. }
    assert (B1 : bs ++ tail = bytes "VALUE " ++ (value_line k fd sd ++ (c1 ++ tail))).
    { unfold bs. repeat rewrite <- app_assoc. reflexivity. }
    assert (E1 : strstr_at_start (bs ++ tail) (bytes "VALUE ") = Ret true).
    { rewrite B1. apply strstr_at_start_app. }
    rewrite E1. cbn [bind].
    rewrite (ptr_add_split _ _ _ 6 B1 eq_refl). cbn [bind].
    rewrite parse_value_line_accepts; try assumption; [|unfold ULONG_MAX; lia].
    cbn [bind]. rewrite Hnread.
    replace (6 + len (value_line k fd sd) + len c1 - (6 + len (value_line k fd sd)))
      with (len c1) by lia.
    rewrite (u64_small (len c1)) by lia.
    rewrite (u64_small (digits_value sd + 7)) by lia.
    rewrite u64_add_l.
    rewrite (u64_small (digits_value sd - len c1 + 7)) by lia.
    destruct (Z.ltb_spec (len c1) (digits_value sd + 7)) as [Hlt|Hge]; [|lia].
    rewrite (ptr_add_split _ _ tail _ eq_refl (eq_sym Hnread)). cbn [bind].
    unfold server_receive. cbn [server_receive_loop].
    rewrite (recv_data (set_net_in w1 (RecvData c2 :: more)) _ _ c2 more Hfd)
      by reflexivity.
    rewrite Z.sub_0_r.
    rewrite (firstn_all2 c2) by (unfold len in *; lia).
    rewrite len_eqb_m1.
    rewrite mem_write_overflow by lia. reflexivity.
  - intros Hnul. apply in_app_or in Hnul. destruct Hnul as [Hnul|Hnul].
    { cbn in Hnul. intuition discriminate. }
    apply in_app_or in Hnul. destruct Hnul as [Hnul|[Hnul|Hnul]].
    { contradiction. }
    { discriminate. }
    apply in_app_or in Hnul. destruct Hnul as [Hnul|[Hnul|Hnul]].
    { now apply (digits_no_nul fd). }
    { discriminate. }
    now apply (digits_no_nul sd).
Qed.

(** A value of 100 bytes fetched over a connection with a 64-byte
    buffer. *)
Lemma textual_get_overflows_scratch_buffer_witness :
  textual_get 4 fetch_server fresh_item
    (mkWorld [RecvData (bytes "VALUE k 0 100" ++ CRLF ++ repeat x61 40);
              RecvData (repeat x61 60)] [] [] 0 1024)
  = Undef.
Proof.
  refine (textual_get_overflows_scratch_buffer 4 fetch_server fresh_item
            (mkWorld [RecvData (bytes "VALUE k 0 100" ++ CRLF ++ repeat x61 40);
                      RecvData (repeat x61 60)] [] [] 0 1024)
            (bytes "k") (bytes "0") (bytes "100") (repeat x61 40) (repeat x61 60) []
            _ _ _ _ eq_refl _ _ _ _ _ _ _ _ _ _ _ _ _).
  - cbn. lia.
  - constructor.
  - cbn. lia.
  - unfold len. cbn. lia.
  - cbn. intuition discriminate.
  - cbn. intuition discriminate.
  - repeat constructor; discriminate.
  - discriminate.
  - vm_compute. discriminate.
  - repeat constructor; discriminate.
  - discriminate.
  - vm_compute. reflexivity.
  - vm_compute. discriminate.
  - vm_compute. discriminate.
  - vm_compute. reflexivity.
  - vm_compute. discriminate.
  - vm_compute. reflexivity.
Defined.

(** A line read stops as soon as a carriage return shows in the buffer
    from the start of the bytes just read, whether those bytes brought
    it or the buffer held it before. *)
Lemma server_receive_line_stops (fuel : nat) (server : Server)
    (dat bs pre post : list byte) (sz : Z) (w : World) (rest : list recv_event) :
  0 <= sock server ->
  net_in w = RecvData bs :: rest ->
  len bs <= sz -> sz <= len dat ->
  bs ++ skipn (Z.to_nat (len bs)) dat = pre ++ CR :: post -> ~ In NUL pre ->
  server_receive (S fuel) server dat sz true w
  = Ret (len bs, server, bs ++ skipn (Z.to_nat (len bs)) dat, set_net_in w rest).
Proof.
  intros Hfd Hin Hfit Hsz Hbs Hnul.
  unfold server_receive. cbn [server_receive_loop].
  rewrite (recv_data w _ _ bs rest Hfd Hin). rewrite Z.sub_0_r.
  rewrite (firstn_all2 bs) by (unfold len in *; lia).
  rewrite (skipn_all2 bs) by (unfold len in *; lia).
  rewrite len_eqb_m1. pose proof (len_nonneg bs) as Hlen.
  rewrite mem_write_ok by lia. cbn [bind].
  change (Z.to_nat 0) with 0%nat. cbn [firstn app]. rewrite Z.add_0_l.
  rewrite (ptr_add_split (bs ++ skipn (Z.to_nat (len bs)) dat) []
             (bs ++ skipn (Z.to_nat (len bs)) dat) 0 eq_refl eq_refl).
  cbn [bind].
  destruct (strchr_found CR pre post Hnul) as [j Hj].
  rewrite Hbs at 1. rewrite Hj. cbn [bind]. rewrite andb_false_r.
  unfold server_receive_end. cbn [andb negb]. reflexivity.
Qed.

(** The scratch buffer is not cleared between calls, and a line read
    looks for the carriage return past the bytes it received.  When the
    buffer still holds the response of an earlier fetch, and the first
    read of the new response brings only bytes that agree with the start
    of that stale header line and ends before its carriage return,
    [textual_get] takes the line for complete from the stale bytes: it
    returns 0 with the value of the earlier response after reading that
    first fragment only, and leaves the rest of the new response in the
    stream. *)
Theorem textual_get_short_read_uses_stale_buffer (fuel : nat) (server : Server)
    (item : Item) (w : World) (k fd sd payload tail p q : list byte)
    (more : list recv_event) :
  0 <= sock server ->
  Forall send_soft (net_out w) ->
  (List.length (net_out w) < fuel)%nat ->
  0 <= keylen item <= len (key_mem item) ->
  buffer server = value_response k fd sd payload ++ tail ->
  net_in w = RecvData p :: more ->
  bytes "VALUE " ++ k ++ SP :: fd ++ SP :: sd = p ++ q ->
  q <> [] ->
  ~ In SP k -> ~ In NUL k ->
  Forall is_digit fd -> fd <> [] -> digits_value fd <= ULONG_MAX ->
  Forall is_digit sd -> sd <> [] ->
  digits_value sd = len payload ->
  len (value_response k fd sd payload) <= buffersize server ->
  buffersize server <= len (buffer server) ->
  len (buffer server) < 2 ^ 63 ->
  size item < len payload ->
  len payload <= malloc_limit w ->
  exists w',
    textual_get fuel server item w
    = Ret (0, server, set_data (set_size item (len payload)) (Some payload), w')
    /\ net_in w' = more.
Proof.
  intros Hfd Hsoft Hfuel Hkey Hbuf Hin Hcut Hq Hksp Hknul Hfdd Hfdne Hfdfit
         Hsdd Hsdne Hval Hfit Hsz Hint Hsmall Hlim.
  assert (Hiov : Forall iov_ok (textual_get_iovec item)).
  { unfold textual_get_iovec.
    apply Forall_cons; [unfold iov_ok, len; cbn; lia|].
    apply Forall_cons; [exact Hkey|].
    apply Forall_cons; [unfold iov_ok, len; cbn; lia|]. apply Forall_nil. }
  destruct (server_sendv_loop_delivers server (net_out w) fuel (textual_get_iovec item) w)
    as [w1 [Hsend [Hwire [Hin1 Hlim1]]]]; try assumption; try reflexivity.
  unfold textual_get, server_sendv. rewrite (iov_total_message _ Hiov), Hsend.
  cbn [bind].
  destruct fuel as [|fuel]; [inversion Hfuel|].
  pose proof (len_value_response k fd sd payload) as Hlen.
  pose proof (len_nonneg payload) as Hpl.
  pose proof (len_nonneg (value_line k fd sd)) as Hvl.
  pose proof (len_nonneg p) as Hp. pose proof (len_nonneg q) as Hql.
  pose proof (len_nonneg tail) as Htl.
  assert (Hq1 : 0 < len q).
  { destruct q; [contradiction|]. rewrite len_cons. pose proof (len_nonneg q). lia. }
  assert (Hline : len p + len q + 2 = 6 + len (value_line k fd sd)).
  { rewrite <- len_app, <- Hcut. unfold value_line, CRLF.
    repeat first [rewrite len_app | rewrite len_cons].
    change (len (bytes "VALUE ")) with 6. change (len (@nil byte)) with 0. lia. }
  assert (Hwhole : buffer server
                   = p ++ (q ++ CRLF ++ payload ++ CRLF ++ bytes "END" ++ CRLF ++ tail)).
  { rewrite Hbuf. rewrite (app_assoc p q), <- Hcut.
    unfold value_response, value_line, CRLF.
    repeat first [rewrite <- app_assoc | progress cbn [app]]. reflexivity. }
  assert (Hsame : p ++ skipn (Z.to_nat (len p)) (buffer server) = buffer server).
  { rewrite Hwhole at 1. rewrite skipn_len_app. now rewrite <- Hwhole. }
  assert (Hbuflen : len (buffer server) = len (value_response k fd sd payload) + len tail).
  { rewrite Hbuf. apply len_app. }
  rewrite (server_receive_line_stops fuel server (buffer server) p
             (bytes "VALUE " ++ k ++ SP :: fd ++ SP :: sd)
             (LF :: payload ++ CRLF ++ bytes "END" ++ CRLF ++ tail)
             (buffersize server) w1 more Hfd);
    [| now rewrite Hin1 | lia | assumption | |].
  - cbn [bind]. rewrite Hsame, set_buffer_same.
    unfold textual_get_decode.
    assert (B1 : buffer server
                 = bytes "VALUE " ++ (value_line k fd sd
                                      ++ (payload ++ CRLF ++ bytes "END" ++ CRLF ++ tail))).
    { rewrite Hbuf. unfold value_response. repeat rewrite <- app_assoc. reflexivity. }
    assert (B2 : buffer server
                 = (bytes "VALUE " ++ value_line k fd sd)
                   ++ (payload ++ CRLF ++ bytes "END" ++ CRLF ++ tail)).
    { rewrite B1. now rewrite app_assoc. }
    assert (E1 : strstr_at_start (buffer server) (bytes "VALUE ") = Ret true).
    { rewrite B1. apply strstr_at_start_app. }
    rewrite E1. cbn [bind].
    rewrite (ptr_add_split _ _ _ 6 B1 eq_refl). cbn [bind].
    rewrite parse_value_line_accepts; try assumption;
      [|rewrite Hval; unfold ULONG_MAX; lia].
    cbn [bind]. rewrite Hval.
    replace (len p - (6 + len (value_line k fd sd))) with (- (len q + 2)) by lia.
    assert (Hwrap : u64 (- (len q + 2)) = 2 ^ 64 - (len q + 2)).
    { unfold u64. rewrite <- (Z.mod_add _ 1) by lia.
      rewrite Z.mod_small; lia. }
    rewrite Hwrap. rewrite (u64_small (len payload + 7)) by lia.
    destruct (Z.ltb_spec (2 ^ 64 - (len q + 2)) (len payload + 7)); [lia|].
    cbn [bind].
    rewrite (ptr_add_split _ _ _ (6 + len (value_line k fd sd)) B2)
      by (rewrite len_app; reflexivity).
    cbn [bind].
    rewrite textual_get_copy_grows; try assumption.
    + cbn [bind]. rewrite firstn_len_app. exists (set_net_in w1 more).
      split; reflexivity.
    + cbn [malloc_limit set_net_in]. lia.
    + rewrite len_app. pose proof (len_nonneg (CRLF ++ bytes "END" ++ CRLF ++ tail)). lia.
  - rewrite Hsame, Hbuf. unfold value_response, value_line, CRLF.
    repeat first [rewrite <- app_assoc | progress cbn [app]]. reflexivity.
  - intros Hnul. apply in_app_or in Hnul. destruct Hnul as [Hnul|Hnul].
    { cbn in Hnul. intuition discriminate. }
    apply in_app_or in Hnul. destruct Hnul as [Hnul|[Hnul|Hnul]].
    { contradiction. }
    { discriminate. }
    apply in_app_or in Hnul. destruct Hnul as [Hnul|[Hnul|Hnul]].
    { now apply (digits_no_nul fd). }
    { discriminate. }
    now apply (digits_no_nul sd).
Qed.

(** The key [k] held "hello" and now holds "bye": the fetch returns
    "hello". *)
Lemma textual_get_short_read_uses_stale_buffer_witness :
  exists w',
    textual_get 4 warm_server fresh_item bye_world
    = Ret (0, warm_server, set_data (set_size fresh_item 5) (Some (bytes "hello")), w')
    /\ net_in w'
       = [RecvData (bytes " 1 3" ++ CRLF ++ bytes "bye" ++ CRLF ++ bytes "END" ++ CRLF)].
Proof.
  refine (textual_get_short_read_uses_stale_buffer 4 warm_server fresh_item bye_world
            (bytes "k") (bytes "0") (bytes "5") (bytes "hello") (repeat NUL 39)
            (bytes "VALUE k") (bytes " 0 5") _
            _ _ _ _ eq_refl eq_refl eq_refl _ _ _ _ _ _ _ _ _ _ _ _ _ _).
  - cbn. lia.
  - constructor.
  - cbn. lia.
  - unfold len. cbn. lia.
  - discriminate.
  - cbn. intuition discriminate.
  - cbn. intuition discriminate.
  - repeat constructor; discriminate.
  - discriminate.
  - vm_compute. discriminate.
  - repeat constructor; discriminate.
  - discriminate.
  - reflexivity.
  - vm_compute. discriminate.
  - vm_compute. discriminate.
  - vm_compute. reflexivity.
  - vm_compute. reflexivity.
  - vm_compute. discriminate.
Defined.

Lemma starts_with_app_inv (needle a b : list byte) :
  starts_with needle (a ++ b) -> (List.length needle <= List.length a)%nat ->
  starts_with needle a.
Proof.
  intros [rest H] Hle. exists (skipn (List.length needle) a).
  rewrite <- (firstn_skipn (List.length needle) a) at 1. f_equal.
  apply (f_equal (firstn (List.length needle))) in H.
  rewrite (firstn_app_exact needle rest) in H by reflexivity.
  rewrite firstn_app in H.
  replace (List.length needle - List.length a)%nat with 0%nat in H by lia.
  cbn [firstn] in H. now rewrite app_nil_r in H.
Qed.

Lemma prefix_of_longer (needle a b : list byte) (x : byte) :
  starts_with needle (a ++ b) -> (List.length a <= List.length needle)%nat ->
  In x a -> In x needle.
Proof.
  intros [rest H] Hle Hx.
  apply (f_equal (firstn (List.length a))) in H.
  rewrite (firstn_app_exact a b) in H by reflexivity.
  rewrite firstn_app in H.
  replace (List.length a - List.length needle)%nat with 0%nat in H by lia.
  cbn [firstn] in H. rewrite app_nil_r in H.
  rewrite H in Hx. rewrite <- (firstn_skipn (List.length a) needle).
  apply in_or_app. now left.
Qed.

Lemma strstr_at_start_false (needle s : list byte) :
  ~ In NUL needle -> In NUL s -> ~ starts_with needle s ->
  strstr_at_start s needle = Ret false.
Proof.
  intros Hn Hs Hno.
  destruct (strstr_defined needle s Hn Hs) as [r Hr].
  destruct (strstr_at_start s needle) as [[|]| | |] eqn:E.
  - exfalso. apply Hno. now apply strstr_at_start_true.
  - reflexivity.
  - unfold strstr_at_start in E. rewrite Hr in E. discriminate E.
  - unfold strstr_at_start in E. rewrite Hr in E. discriminate E.
  - unfold strstr_at_start in E. rewrite Hr in E. discriminate E.
Qed.

(** [textual_get] knows two replies only.  When the reply line begins
    with neither "VALUE " nor "END" (an "ERROR" or "SERVER_ERROR" line,
    say), the call ends in [abort()]: it returns nothing and the process
    is terminated. *)
Theorem textual_get_aborts_on_other_reply (fuel : nat) (server : Server) (item : Item)
    (w : World) (pre post : list byte) (more : list recv_event) :
  0 <= sock server ->
  Forall send_soft (net_out w) ->
  (List.length (net_out w) < fuel)%nat ->
  0 <= keylen item <= len (key_mem item) ->
  net_in w = RecvData (pre ++ CR :: post) :: more ->
  ~ In NUL pre ->
  len (pre ++ CR :: post) <= buffersize server ->
  buffersize server <= len (buffer server) ->
  In NUL (post ++ skipn (Z.to_nat (len (pre ++ CR :: post))) (buffer server)) ->
  ~ starts_with (bytes "VALUE ") (pre ++ [CR]) ->
  ~ starts_with (bytes "END") (pre ++ [CR]) ->
  textual_get fuel server item w = Abort.
Proof.
  intros Hfd Hsoft Hfuel Hkey Hin Hnul Hfit Hbuf Hterm Hvalue Hend.
  assert (Hiov : Forall iov_ok (textual_get_iovec item)).
  { unfold textual_get_iovec.
    apply Forall_cons; [unfold iov_ok, len; cbn; lia|].
    apply Forall_cons; [exact Hkey|].
    apply Forall_cons; [unfold iov_ok, len; cbn; lia|]. apply Forall_nil. }
  destruct (server_sendv_loop_delivers server (net_out w) fuel (textual_get_iovec item) w)
    as [w1 [Hsend [Hwire [Hin1 Hlim1]]]]; try assumption; try reflexivity.
  unfold textual_get, server_sendv. rewrite (iov_total_message _ Hiov), Hsend.
  cbn [bind].
  destruct fuel as [|fuel]; [inversion Hfuel|].
  set (bs := pre ++ CR :: post) in *.
  set (tail := skipn (Z.to_nat (len bs)) (buffer server)) in *.
  rewrite (server_receive_line_first_read fuel server (buffer server) bs pre post
             (buffersize server) w1 more Hfd);
    [| now rewrite Hin1 | assumption | assumption | reflexivity | assumption].
  cbn [bind]. unfold textual_get_decode. cbn [buffer set_buffer]. fold tail.
  assert (Hshape : bs ++ tail = (pre ++ [CR]) ++ (post ++ tail)).
  { unfold bs. repeat first [rewrite <- app_assoc | progress cbn [app]]. reflexivity. }
  assert (Hin_nul : In NUL (bs ++ tail)).
  { rewrite Hshape. apply in_or_app. now right. }
  assert (Hlong : forall needle,
            ~ In CR needle -> ~ starts_with needle (pre ++ [CR]) ->
            ~ starts_with needle (bs ++ tail)).
  { intros needle Hcr Hn Hst. rewrite Hshape in Hst.
    destruct (Nat.le_gt_cases (List.length needle) (List.length (pre ++ [CR])))
      as [Hle|Hgt].
    - apply Hn. now apply starts_with_app_inv with (b := post ++ tail).
    - apply Hcr. apply (prefix_of_longer needle (pre ++ [CR]) (post ++ tail) CR Hst);
        [lia | apply in_or_app; right; now left]. }
  rewrite (strstr_at_start_false (bytes "VALUE ") (bs ++ tail));
    [| cbn; intuition discriminate | assumption
     | apply Hlong; [cbn; intuition discriminate | assumption]].
  cbn [bind].
  rewrite (strstr_at_start_false (bytes "END") (bs ++ tail));
    [| cbn; intuition discriminate | assumption
     | apply Hlong; [cbn; intuition discriminate | assumption]].
  reflexivity.
Qed.

(** The server answers "ERROR". *)
Lemma textual_get_aborts_on_other_reply_witness :
  textual_get 4 fetch_server fresh_item (answer (bytes "ERROR" ++ CRLF)) = Abort.
Proof.
  refine (textual_get_aborts_on_other_reply 4 fetch_server fresh_item
            (answer (bytes "ERROR" ++ CRLF)) (bytes "ERROR") [LF] []
            _ _ _ _ eq_refl _ _ _ _ _ _).
  - cbn. lia.
  - constructor.
  - cbn. lia.
  - unfold len. cbn. lia.
  - cbn. intuition discriminate.
  - vm_compute. discriminate.
  - vm_compute. discriminate.
  - cbn. right. left. reflexivity.
  - intros [rest H]. discriminate H.
  - intros [rest H]. discriminate H.
Defined.

(** *** Textual store *)

(** The ways the response loop of [textual_store] ends. *)
Lemma textual_store_loop_result (fuel : nat) : forall server offset w r s' w',
  textual_store_loop fuel server offset w = Ret (r, s', w') ->
  (r = 0 /\ starts_with (bytes "STORED" ++ CRLF) (buffer s')
   /\ sock s' = sock server /\ errmsg s' = errmsg server /\ 0 <= sock server)
  \/ (r = -1 /\ starts_with (bytes "NOT_STORED" ++ CRLF) (buffer s')
      /\ sock s' = sock server /\ errmsg s' = Some "Item NOT stored"%string
      /\ 0 <= sock server)
  \/ (r = -1 /\ sock s' = -1
      /\ (errmsg s' = Some ("Failed to receive data from server: "
                            ++ strerror (errno w'))%string
          \/ errmsg s' = Some "Lost contact with server"%string
          \/ errmsg s' = Some "Out of sync with server..."%string)).
Proof.
  assert (Hsync : forall s, sock (out_of_sync s) = -1
                            /\ errmsg (out_of_sync s)
                               = Some "Out of sync with server..."%string).
  { intros s. unfold out_of_sync, server_disconnect, set_errmsg, set_sock.
    cbn [sock errmsg].
    destruct (Z.eqb_spec (sock s) (-1)) as [E|N]; cbn [negb sock errmsg]; auto. }
  assert (Hlost : forall s, sock (lost_contact s) = -1
                            /\ errmsg (lost_contact s)
                               = Some "Lost contact with server"%string).
  { intros s. unfold lost_contact, server_disconnect, set_errmsg, set_sock.
    cbn [sock errmsg].
    destruct (Z.eqb_spec (sock s) (-1)) as [E|N]; cbn [negb sock errmsg]; auto. }
  induction fuel as [|fuel IH]; intros server offset w r s' w'; [discriminate|].
  cbn [textual_store_loop].
  assert (Hfd : forall n bs w1,
             recv w (sock server) (buffersize server - offset) = (n, bs, w1) ->
             n <> -1 -> 0 <= sock server).
  { intros n bs w1. unfold recv. destruct (Z.ltb_spec (sock server) 0); [|lia].
    intros E. injection E as <- _ _. intros N. now contradiction N. }
  destruct (recv w (sock server) (buffersize server - offset)) as [[n bs] w1].
  specialize (Hfd n bs w1 eq_refl).
  destruct (Z.eqb_spec n (-1)) as [E|N].
  - destruct (errno w1 =? EINTR); cbn [negb].
    + destruct (offset =? buffersize server).
      * intros H. injection H as <- <- <-. right. right.
        destruct (Hsync server) as [H1 H2]. repeat split; auto.
      * apply IH.
    + intros H. injection H as <- <- <-. right. right.
      destruct (receive_failed_disconnected server w1) as [H1 H2]. repeat split; auto.
  - specialize (Hfd N).
    destruct (n =? 0).
    { intros H. injection H as <- <- <-. right. right.
      destruct (Hlost server) as [H1 H2]. repeat split; auto. }
    destruct (mem_write (buffer server) offset bs) as [buf1| | |]; cbn [bind];
      try discriminate.
    destruct (strchr buf1 CR) as [cr| | |]; cbn [bind]; try discriminate.
    destruct (match cr with
              | Some _ => strstr_at_start buf1 (bytes "STORED" ++ CRLF)
              | None => Ret false
              end) as [stored_| | |] eqn:Es; cbn [bind]; try discriminate.
    destruct stored_.
    { intros H. injection H as <- <- <-. left.
      destruct cr; [|discriminate Es]. apply strstr_at_start_true in Es.
      repeat split; auto. }
    destruct (match cr with
              | Some _ => strstr_at_start buf1 (bytes "NOT_STORED" ++ CRLF)
              | None => Ret false
              end) as [not_stored| | |] eqn:En; cbn [bind]; try discriminate.
    destruct not_stored.
    { intros H. injection H as <- <- <-. right. left.
      destruct cr; [|discriminate En]. apply strstr_at_start_true in En.
      repeat split; auto. }
    cbn [buffersize set_buffer].
    destruct (offset + n =? buffersize server).
    + intros H. injection H as <- <- <-. right. right.
      destruct (Hsync (set_buffer server buf1)) as [H1 H2]. repeat split; auto.
    + intros H. apply IH in H. cbn [sock errmsg set_buffer] in H. exact H.
Qed.

(** [textual_store] reports success only for a response that begins
    with "STORED\r\n".  Whatever the transport does, a call that returns
    ends in one of three ways: it returns 0, the scratch buffer begins
    with "STORED\r\n" and the connection is as it was; or it returns -1
    with the message "Item NOT stored", the buffer begins with
    "NOT_STORED\r\n" and the connection stays open; or it returns -1
    with the socket closed and one of the messages of a failed receive,
    a lost peer or a full buffer.  A failed send is not reported as such:
    it shows as the failed receive that follows it. *)
Theorem textual_store_result (fuel : nat) (server : Server) (cmd : StoreCommand)
    (item : Item) (w : World) (r : Z) (s' : Server) (w' : World) :
  textual_store fuel server cmd item w = Ret (r, s', w') ->
  (r = 0 /\ starts_with (bytes "STORED" ++ CRLF) (buffer s')
   /\ sock s' = sock server /\ errmsg s' = errmsg server /\ 0 <= sock server)
  \/ (r = -1 /\ starts_with (bytes "NOT_STORED" ++ CRLF) (buffer s')
      /\ sock s' = sock server /\ errmsg s' = Some "Item NOT stored"%string
      /\ 0 <= sock server)
  \/ (r = -1 /\ sock s' = -1
      /\ (errmsg s' = Some ("Failed to receive data from server: "
                            ++ strerror (errno w'))%string
          \/ errmsg s' = Some "Lost contact with server"%string
          \/ errmsg s' = Some "Out of sync with server..."%string)).
Proof.
  unfold textual_store.
  destruct (mem_write (buffer server) 0 _) as [buf| | |]; cbn [bind]; try discriminate.
  unfold server_sendv.
  match goal with
  | |- context [server_sendv_loop fuel ?s ?iov ?sz w] =>
      destruct (server_sendv_loop fuel s iov sz w) as [[[r1 server1] w1]| | |] eqn:Hsend
  end; cbn [bind]; try discriminate.
  apply server_sendv_loop_failure in Hsend.
  intros Hloop. apply textual_store_loop_result in Hloop.
  destruct Hsend as [[_ ->]|[_ [-> _]]].
  - cbn [sock errmsg set_buffer] in Hloop. exact Hloop.
  - pose proof (proj1 (send_failed_disconnected (set_buffer server buf) w1)) as Hs.
    rewrite Hs in Hloop.
    destruct Hloop as [[_ [_ [_ [_ H]]]]|[[_ [_ [_ [_ H]]]]|H]]; try lia.
    right. right. exact H.
Qed.

(** An [add] for a key that exists: the server answers "NOT_STORED". *)
Lemma textual_store_result_witness :
  (-1 = 0 /\ starts_with (bytes "STORED" ++ CRLF) (buffer declined_server)
   /\ sock declined_server = sock fetch_server
   /\ errmsg declined_server = errmsg fetch_server /\ 0 <= sock fetch_server)
  \/ (-1 = -1 /\ starts_with (bytes "NOT_STORED" ++ CRLF) (buffer declined_server)
      /\ sock declined_server = sock fetch_server
      /\ errmsg declined_server = Some "Item NOT stored"%string
      /\ 0 <= sock fetch_server)
  \/ (-1 = -1 /\ sock declined_server = -1
      /\ (errmsg declined_server
          = Some ("Failed to receive data from server: "
                  ++ strerror (errno declined_world))%string
          \/ errmsg declined_server = Some "Lost contact with server"%string
          \/ errmsg declined_server = Some "Out of sync with server..."%string)).
Proof.
  refine (textual_store_result 4 fetch_server add sample_item declining_world
            (-1) declined_server declined_world _).
  vm_compute. reflexivity.
Defined.

Lemma firstn_len_app_cons (a : list byte) (b : byte) (rest : list byte) :
  firstn (Z.to_nat (len a)) (a ++ b :: rest) = a.
Proof. apply firstn_len_app. Qed.

(** The request of [textual_store] once the header line is in the
    scratch buffer. *)
Lemma textual_store_message (cmd : StoreCommand) (item : Item) (line rest d : list byte) :
  0 <= keylen item <= len (key_mem item) ->
  data item = Some d ->
  0 <= size item <= len d ->
  let iov := [mkIovec (literal (commands cmd)) (strlen_literal (commands cmd));
              mkIovec (key_mem item) (keylen item);
              mkIovec (line ++ NUL :: rest) (len line);
              mkIovec (match data item with Some d => d | None => [] end) (size item);
              mkIovec (CRLF ++ [NUL]) 2] in
  Forall iov_ok iov
  /\ message iov
     = bytes (commands cmd) ++ firstn (Z.to_nat (keylen item)) (key_mem item)
       ++ line ++ firstn (Z.to_nat (size item)) d ++ CRLF.
Proof.
  intros Hkey Hd Hsize iov. subst iov. rewrite Hd. split.
  - pose proof (len_nonneg line). pose proof (len_nonneg rest).
    pose proof (len_nonneg (bytes (commands cmd))).
    repeat apply Forall_cons; try apply Forall_nil; unfold iov_ok;
      cbn [iov_len iov_base]; try assumption.
    + unfold strlen_literal, literal. rewrite len_app. change (len [NUL]) with 1. lia.
    + rewrite len_app, len_cons. lia.
    + unfold len. cbn. lia.
  - unfold message. cbn [map List.concat]. unfold iov_data. cbn [iov_len iov_base].
    unfold strlen_literal, literal. rewrite firstn_len_app, firstn_len_app_cons.
    rewrite app_nil_r. reflexivity.
Qed.

(** A store the server accepts, end to end.  Over a transport with no
    hard error, [textual_store] puts on the wire the command word, the
    key, the line " 0 <exptime> <size>\r\n" (the flags are always written
    as 0, whatever the item holds), the first [size] bytes of the data
    and "\r\n"; when the first read then brings "STORED\r\n" the call
    returns 0 and leaves the connection open. *)
Theorem textual_store_stored (fuel : nat) (server : Server) (cmd : StoreCommand)
    (item : Item) (w : World) (d : list byte) (more : list recv_event) :
  0 <= sock server ->
  Forall send_soft (net_out w) ->
  (List.length (net_out w) < fuel)%nat ->
  0 <= keylen item <= len (key_mem item) ->
  data item = Some d ->
  0 <= size item <= len d ->
  len (store_header 0 (s64 (exptime item)) (s64 (size item))) < len (buffer server) ->
  8 <= buffersize server <= len (buffer server) ->
  net_in w = RecvData (bytes "STORED" ++ CRLF) :: more ->
  exists s' w',
    textual_store fuel server cmd item w = Ret (0, s', w')
    /\ sock s' = sock server
    /\ errmsg s' = errmsg server
    /\ wire w'
       = wire w ++ bytes (commands cmd) ++ firstn (Z.to_nat (keylen item)) (key_mem item)
         ++ bytes " 0 " ++ dec (s64 (exptime item)) ++ bytes " " ++ dec (s64 (size item))
         ++ CRLF ++ firstn (Z.to_nat (size item)) d ++ CRLF
    /\ net_in w' = more.
Proof.
  intros Hfd Hsoft Hfuel Hkey Hd Hsize Hline Hbuf Hin.
  unfold textual_store.
  set (line := store_header 0 (s64 (exptime item)) (s64 (size item))) in *.
  pose proof (len_nonneg line) as Hl.
  rewrite mem_write_ok; [| lia | rewrite len_app; change (len [NUL]) with 1; lia].
  cbn [bind]. change (Z.to_nat 0) with 0%nat. cbn [firstn app].
  rewrite <- app_assoc. cbn [app].
  set (rest := skipn (Z.to_nat (0 + len (line ++ [NUL]))) (buffer server)).
  destruct (textual_store_message cmd item line rest d Hkey Hd Hsize) as [Hok Hmsg].
  cbv zeta in Hok, Hmsg.
  set (server0 := set_buffer server (line ++ NUL :: rest)).
  destruct (server_sendv_loop_delivers server0 (net_out w) fuel _ w eq_refl Hsoft Hfd
              Hok Hfuel) as [w1 [Hsend [Hwire [Hin1 _]]]].
  unfold server_sendv. rewrite (iov_total_message _ Hok), Hsend. cbn [bind].
  destruct fuel as [|fuel]; [inversion Hfuel|].
  cbn [textual_store_loop]. unfold server0 at 1 2. cbn [sock buffersize set_buffer].
  rewrite (recv_data w1 _ _ (bytes "STORED" ++ CRLF) more Hfd) by (now rewrite Hin1).
  rewrite Z.sub_0_r.
  assert (Hrest : len rest + len line + 1 = len (buffer server)).
  { unfold rest, len. rewrite length_skipn, length_app. cbn [List.length].
    unfold len in Hline. lia. }
  rewrite (firstn_all2 (bytes "STORED" ++ CRLF)) by (cbn; lia).
  rewrite (skipn_all2 (bytes "STORED" ++ CRLF)) by (cbn; lia).
  change (len (bytes "STORED" ++ CRLF)) with 8.
  change (8 =? -1) with false. change (8 =? 0) with false. cbv beta iota.
  unfold server0 at 1. cbn [buffer set_buffer].
  rewrite mem_write_ok;
    [| lia | change (len (bytes "STORED" ++ CRLF)) with 8;
             rewrite len_app, len_cons; lia].
  cbn [bind]. change (Z.to_nat 0) with 0%nat. cbn [firstn].
  rewrite app_nil_l.
  set (tail := skipn (Z.to_nat (0 + len (bytes "STORED" ++ CRLF))) (line ++ NUL :: rest)).
  change ((bytes "STORED" ++ CRLF) ++ tail)
    with (bytes "STORED" ++ CR :: (LF :: tail)) at 1.
  rewrite (strchr_first CR (bytes "STORED") (LF :: tail))
    by (cbn; intuition discriminate).
  cbn [bind]. rewrite strstr_at_start_app. cbn [bind].
  eexists. eexists. split; [reflexivity|].
  cbn [sock errmsg set_buffer net_in set_net_in wire]. unfold server0.
  cbn [sock errmsg set_buffer].
  repeat split.
  rewrite Hwire, Hmsg. unfold line, store_header.
  repeat rewrite <- app_assoc. reflexivity.
Qed.

(** Storing "hello" under the key [k]. *)
Lemma textual_store_stored_witness :
  exists s' w',
    textual_store 4 fetch_server set sample_item
      (mkWorld [RecvData (bytes "STORED" ++ CRLF)] [SendAccept 3] [] 0 1024)
    = Ret (0, s', w')
    /\ sock s' = 3
    /\ errmsg s' = None
    /\ wire w' = bytes "set k 0 60 5" ++ CRLF ++ bytes "hello" ++ CRLF
    /\ net_in w' = [].
Proof.
  refine (textual_store_stored 4 fetch_server set sample_item
            (mkWorld [RecvData (bytes "STORED" ++ CRLF)] [SendAccept 3] [] 0 1024)
            (bytes "hello") [] _ _ _ _ eq_refl _ _ _ eq_refl).
  - cbn. lia.
  - repeat constructor.
  - cbn. lia.
  - unfold len. cbn. lia.
  - unfold len. cbn. lia.
  - vm_compute. reflexivity.
  - unfold len. cbn. lia.
Defined.

(** *** The frames of the binary protocol *)

Lemma byte_at_htons (i x : Z) : 0 <= i < 2 -> byte_at i (htons x) = byte_at (1 - i) x.
Proof.
  intros Hi. apply Z.bits_inj'. intros n Hn.
  rewrite (byte_at_bits i) by lia. rewrite (byte_at_bits (1 - i)) by lia.
  destruct (Z.ltb_spec n 8) as [Hlt|Hge]; [|now rewrite !andb_false_r].
  rewrite !andb_true_r. unfold htons.
  rewrite !Z.lor_spec, !Z.shiftl_spec by lia.
  assert (Hcase : i = 0 \/ i = 1) by lia.
  destruct Hcase as [->| ->].
  all: repeat match goal with
       | |- context [Z.testbit (byte_at ?j ?y) ?m] =>
           first [ rewrite (Z.testbit_neg_r (byte_at j y) m) by lia
                 | rewrite (byte_at_bits j y m) by lia ]
       end.
  all: repeat match goal with
       | |- context [?a <? 8] => destruct (Z.ltb_spec a 8); try lia
       end.
  all: rewrite ?andb_true_r, ?andb_false_r, ?orb_false_r, ?orb_false_l.
  all: apply f_equal; lia.
Qed.

Lemma htons_wire_bytes (x : Z) : le_bytes 2 (htons x) = be_bytes 2 x.
Proof.
  unfold be_bytes. rewrite !le_bytes_byte_at. cbn [seq map rev app].
  change (Z.of_nat 0) with 0; change (Z.of_nat 1) with 1.
  rewrite (byte_at_htons 0), (byte_at_htons 1) by lia. reflexivity.
Qed.

Lemma htonl_wire_bytes_any (x : Z) : le_bytes 4 (htonl x) = be_bytes 4 x.
Proof.
  unfold be_bytes. rewrite !le_bytes_byte_at. cbn [seq map rev app].
  change (Z.of_nat 0) with 0; change (Z.of_nat 1) with 1;
  change (Z.of_nat 2) with 2; change (Z.of_nat 3) with 3.
  rewrite (byte_at_htonl 0), (byte_at_htonl 1), (byte_at_htonl 2), (byte_at_htonl 3) by lia.
  reflexivity.
Qed.

Lemma le_bytes_u32 (x : Z) : le_bytes 4 (u32 x) = le_bytes 4 x.
Proof.
  rewrite !le_bytes_byte_at. cbn [seq map].
  change (Z.of_nat 0) with 0; change (Z.of_nat 1) with 1;
  change (Z.of_nat 2) with 2; change (Z.of_nat 3) with 3.
  rewrite (byte_at_u32 0), (byte_at_u32 1), (byte_at_u32 2), (byte_at_u32 3) by lia.
  reflexivity.
Qed.

Lemma be_bytes_u32 (x : Z) : be_bytes 4 (u32 x) = be_bytes 4 x.
Proof. unfold be_bytes. now rewrite le_bytes_u32. Qed.

(** The request of [binary_get] as it travels: magic 0x80, opcode 0, the
    key length cut to 16 bits and written most significant byte first,
    no extras, raw data type, a body length equal to that key length in
    network byte order, and zero opaque and cas. *)
Theorem binary_get_request_frame (item : Item) :
  request_header_bytes (binary_get_request item)
  = [x80; x00] ++ be_bytes 2 (u16 (keylen item))
    ++ [x00; x00; x00; x00] ++ be_bytes 4 (u16 (keylen item))
    ++ repeat x00 12.
Proof.
  unfold request_header_bytes, binary_get_request.
  cbn [req_magic req_opcode req_keylen req_extlen req_datatype req_reserved
       req_bodylen req_opaque req_cas].
  rewrite htons_wire_bytes, htonl_wire_bytes_any. reflexivity.
Qed.

(** The request of [binary_store] as it travels: magic 0x80, the opcode
    of the command, the key length cut to 16 bits, 8 bytes of extras, a
    body length of key, value and extras, zero opaque, the cas token, zero
    flags and the expiration time, every multi-byte field most
    significant byte first. *)
Theorem binary_store_request_frame (cmd : StoreCommand) (item : Item) :
  request_set_bytes (binary_store_request cmd item)
  = [x80; byte_of_Z (store_opcode cmd)] ++ be_bytes 2 (u16 (keylen item))
    ++ [x08; x00; x00; x00]
    ++ be_bytes 4 (u16 (keylen item) + size item + 8)
    ++ [x00; x00; x00; x00]
    ++ be_bytes 8 (cas_id item)
    ++ [x00; x00; x00; x00]
    ++ be_bytes 4 (exptime item).
Proof.
  unfold request_set_bytes, request_header_bytes, binary_store_request.
  cbn [set_header body_flags body_expiration
       req_magic req_opcode req_keylen req_extlen req_datatype req_reserved
       req_bodylen req_opaque req_cas].
  rewrite htons_wire_bytes, !htonl_wire_bytes_any, !be_bytes_u32, cas_wire_bytes.
  reflexivity.
Qed.

(** *** Binary fetch *)

(** An exact-length read that the first [recv] fills. *)
Lemma server_receive_one_read (fuel : nat) (server : Server) (dat bs : list byte)
    (sz : Z) (w : World) (rest : list recv_event) :
  0 <= sock server ->
  net_in w = RecvData bs :: rest ->
  len bs = sz -> sz <= len dat ->
  server_receive (S fuel) server dat sz false w
  = Ret (sz, server, bs ++ skipn (Z.to_nat sz) dat, set_net_in w rest).
Proof.
  intros Hfd Hin Hbs Hsz. pose proof (len_nonneg bs) as Hl.
  unfold server_receive. cbn [server_receive_loop].
  rewrite (recv_data w _ _ bs rest Hfd Hin). rewrite Z.sub_0_r.
  rewrite (firstn_all2 bs) by (unfold len in *; lia).
  rewrite (skipn_all2 bs) by (unfold len in *; lia).
  rewrite len_eqb_m1. rewrite mem_write_ok by lia. cbn [bind].
  change (Z.to_nat 0) with 0%nat. cbn [firstn app]. rewrite !Z.add_0_l.
  destruct (Z.ltb_spec (len bs) sz); [lia|]. cbn [andb].
  unfold server_receive_end. cbn [andb]. now rewrite Hbs.
Qed.

Lemma lor_lt_pow2 (a b n : Z) :
  0 < n -> 0 <= a < 2 ^ n -> 0 <= b < 2 ^ n -> Z.lor a b < 2 ^ n.
Proof.
  intros Hn Ha Hb.
  assert (Hnn : 0 <= Z.lor a b) by (apply Z.lor_nonneg; lia).
  destruct (Z.eq_dec (Z.lor a b) 0) as [E|N]; [rewrite E; lia|].
  apply Z.log2_lt_pow2; [lia|]. rewrite Z.log2_lor by lia.
  apply Z.max_lub_lt.
  - destruct (Z.eq_dec a 0) as [->|]; [cbn; lia|]. apply Z.log2_lt_pow2; lia.
  - destruct (Z.eq_dec b 0) as [->|]; [cbn; lia|]. apply Z.log2_lt_pow2; lia.
Qed.

Lemma lor_range (a b n : Z) :
  0 < n -> 0 <= a < 2 ^ n -> 0 <= b < 2 ^ n -> 0 <= Z.lor a b < 2 ^ n.
Proof.
  intros Hn Ha Hb. split; [apply Z.lor_nonneg; lia | now apply lor_lt_pow2].
Qed.

Lemma htonl_range (x : Z) : 0 <= htonl x < 2 ^ 32.
Proof.
  unfold htonl.
  pose proof (byte_at_range 0 x). pose proof (byte_at_range 1 x).
  pose proof (byte_at_range 2 x). pose proof (byte_at_range 3 x).
  repeat apply lor_range; try lia;
    rewrite ?Z.shiftl_mul_pow2 by lia; lia.
Qed.

Lemma length_be_bytes (n : nat) (v : Z) : List.length (be_bytes n v) = n.
Proof. unfold be_bytes. now rewrite length_rev, length_le_bytes. Qed.

(** A 32-bit field in network byte order, read as the host has it and
    passed through [ntohl], gives the number that was written. *)
Lemma ntohl_be_bytes (v : Z) : 0 <= v < 2 ^ 32 -> ntohl (le_val (be_bytes 4 v)) = v.
Proof.
  intros Hv. unfold ntohl.
  rewrite <- (le_val_le_bytes 4 (htonl (le_val (be_bytes 4 v)))) by apply htonl_range.
  rewrite htonl_wire_bytes_any. unfold be_bytes at 1.
  rewrite <- (length_be_bytes 4 v) at 1. rewrite le_bytes_le_val.
  unfold be_bytes. rewrite rev_involutive. now apply le_val_le_bytes.
Qed.

Lemma cas_be_bytes (c : Z) :
  0 <= c < 2 ^ 64 -> u64 (swap64 (s64 (le_val (be_bytes 8 c)))) = c.
Proof.
  intros Hc. rewrite cas_of_wire_bytes by apply length_be_bytes.
  unfold be_bytes. rewrite rev_involutive. now apply le_val_le_bytes.
Qed.

Lemma c_string_terminated (s rest : list byte) :
  ~ In NUL s -> c_string (s ++ NUL :: rest) = s.
Proof.
  induction s as [|b s IH]; intros Hn; [reflexivity|].
  cbn [app c_string]. destruct (Byte.eqb b NUL) eqn:E.
  - exfalso. apply Hn. left. now apply Byte.byte_dec_bl.
  - f_equal. apply IH. intros H. apply Hn. now right.
Qed.

Lemma binary_get_iov_ok (item : Item) :
  u16 (keylen item) <= len (key_mem item) ->
  Forall iov_ok [mkIovec (request_header_bytes (binary_get_request item)) 24;
                 mkIovec (key_mem item) (u16 (keylen item))]
  /\ message [mkIovec (request_header_bytes (binary_get_request item)) 24;
              mkIovec (key_mem item) (u16 (keylen item))]
     = request_header_bytes (binary_get_request item)
       ++ firstn (Z.to_nat (u16 (keylen item))) (key_mem item).
Proof.
  intros Hk.
  assert (H16 : 0 <= u16 (keylen item)) by (unfold u16; apply Z.mod_pos_bound; lia).
  assert (H24 : len (request_header_bytes (binary_get_request item)) = 24).
  { unfold len. now rewrite length_request_header_bytes. }
  split.
  - repeat apply Forall_cons; try apply Forall_nil; unfold iov_ok;
      cbn [iov_len iov_base]; lia.
  - unfold message. cbn [map List.concat]. unfold iov_data. cbn [iov_len iov_base].
    rewrite app_nil_r. reflexivity.
Qed.

(** The start of [binary_get] over a transport with no hard error, when
    one read brings the 24 bytes of the response header. *)
Lemma binary_get_header (fuel : nat) (server : Server) (item : Item) (w : World)
    (hdr : list byte) (rest : list recv_event) :
  0 <= sock server ->
  Forall send_soft (net_out w) ->
  (List.length (net_out w) < fuel)%nat ->
  u16 (keylen item) <= len (key_mem item) ->
  net_in w = RecvData hdr :: rest ->
  List.length hdr = 24%nat ->
  exists w1,
    binary_get fuel server item w
    = binary_get_response fuel server item (response_of_bytes hdr) w1
    /\ wire w1 = wire w ++ request_header_bytes (binary_get_request item)
                 ++ firstn (Z.to_nat (u16 (keylen item))) (key_mem item)
    /\ net_in w1 = rest
    /\ malloc_limit w1 = malloc_limit w.
Proof.
  intros Hfd Hsoft Hfuel Hkey Hin Hlen.
  destruct (binary_get_iov_ok item Hkey) as [Hok Hmsg].
  destruct (server_sendv_loop_delivers server (net_out w) fuel _ w eq_refl Hsoft Hfd
              Hok Hfuel) as [w1 [Hsend [Hwire [Hin1 Hm1]]]].
  unfold binary_get, server_sendv. rewrite (iov_total_message _ Hok), Hsend.
  cbn [bind]. destruct fuel as [|fuel]; [inversion Hfuel|].
  rewrite (server_receive_one_read fuel server (repeat NUL 24) hdr 24 w1 rest Hfd);
    [| now rewrite Hin1 | unfold len; rewrite Hlen; reflexivity
     | unfold len; cbn; lia].
  cbn [bind]. change (24 =? 24) with true. cbn [negb].
  change (skipn (Z.to_nat 24) (repeat NUL 24)) with (@nil byte). rewrite app_nil_r.
  exists (set_net_in w1 rest). split; [reflexivity|].
  cbn [wire net_in malloc_limit set_net_in]. rewrite Hwire, Hmsg. now repeat split.
Qed.

Lemma le_val_nonneg (bs : list byte) : 0 <= le_val bs.
Proof.
  induction bs as [|b bs IH]; cbn [le_val]; [lia|].
  pose proof (byte_val_range b). lia.
Qed.

Lemma le_val_zero (bs : list byte) :
  le_val bs = 0 -> bs = repeat x00 (List.length bs).
Proof.
  induction bs as [|b bs IH]; cbn [le_val List.length repeat]; [reflexivity|].
  pose proof (byte_val_range b). pose proof (le_val_nonneg bs). intros E.
  assert (Hb : byte_val b = 0) by lia. assert (Hr : le_val bs = 0) by lia.
  f_equal; [|now apply IH].
  rewrite <- (byte_of_Z_byte_val b), Hb. reflexivity.
Qed.

(** A fetch the server answers with an error status, such as a miss.
    The response header comes in one read, its status bytes are not both
    zero and its body length announces the [body] that follows, cut into
    reads in any way.  Then [binary_get] returns -1, leaves the item as
    it was, keeps the connection open and stores the text of the body as
    the error message. *)
Theorem binary_get_error_status (fuel : nat) (server : Server) (item : Item)
    (w : World) (hdr body : list byte) (more : list recv_event) :
  0 <= sock server ->
  Forall send_soft (net_out w) ->
  (List.length (net_out w) < fuel)%nat ->
  u16 (keylen item) <= len (key_mem item) ->
  net_in w = RecvData hdr :: more ->
  List.length hdr = 24%nat ->
  slice hdr 6 2 <> [x00; x00] ->
  slice hdr 8 4 = be_bytes 4 (len body) ->
  len body + 1 < 2 ^ 32 ->
  ~ In NUL body ->
  Forall recv_soft more ->
  starts_with body (stream_bytes more) ->
  (List.length more < fuel)%nat ->
  len body + 1 <= malloc_limit w ->
  exists w',
    binary_get fuel server item w
    = Ret (-1, set_errmsg server (string_of_list_byte body), item, w')
    /\ wire w' = wire w ++ request_header_bytes (binary_get_request item)
                 ++ firstn (Z.to_nat (u16 (keylen item))) (key_mem item)
    /\ stream_bytes (net_in w') = skipn (Z.to_nat (len body)) (stream_bytes more).
Proof.
  intros Hfd Hsoft Hfuel Hkey Hin Hlen Hstatus Hbody Hsmall Hnul Hrsoft [later Hlater]
         Hrfuel Hlim.
  pose proof (len_nonneg body) as Hb.
  destruct (binary_get_header fuel server item w hdr more Hfd Hsoft Hfuel Hkey Hin Hlen)
    as [w1 [Hrun [Hwire [Hin1 Hm1]]]].
  rewrite Hrun. unfold binary_get_response, response_of_bytes.
  cbn [rsp_status rsp_bodylen rsp_extlen rsp_cas].
  rewrite Hbody, ntohl_be_bytes by lia.
  destruct (Z.eqb_spec (le_val (slice hdr 6 2)) 0) as [E|N].
  { exfalso. apply Hstatus. apply le_val_zero in E.
    rewrite length_slice in E by (rewrite Hlen; cbn; lia). exact E. }
  unfold u32. rewrite Z.mod_small by lia.
  destruct (malloc_ok w1 (len body + 1) ltac:(lia)) as [Hmalloc Hmlen]. rewrite Hmalloc.
  rewrite mem_write_ok; [| lia | rewrite Hmlen; change (len [NUL]) with 1; lia].
  cbn [bind].
  set (buf1 := firstn (Z.to_nat (len body)) (repeat NUL (Z.to_nat (len body + 1)))
               ++ [NUL]
               ++ skipn (Z.to_nat (len body + len [NUL]))
                    (repeat NUL (Z.to_nat (len body + 1)))).
  assert (Hpre : len (firstn (Z.to_nat (len body)) (repeat NUL (Z.to_nat (len body + 1))))
                 = len body).
  { unfold len. rewrite length_firstn, repeat_length. unfold len in Hb. lia. }
  assert (Hbuf1 : len body <= len buf1).
  { unfold buf1. rewrite len_app, Hpre.
    pose proof (len_nonneg ([NUL] ++ skipn (Z.to_nat (len body + len [NUL]))
                                       (repeat NUL (Z.to_nat (len body + 1))))). lia. }
  destruct (server_receive_exact_run fuel server buf1 (len body) w1)
    as [w' [Hrecv [Hs [Hw _]]]]; try assumption; try lia.
  { now rewrite Hin1. }
  { rewrite Hin1, Hlater, len_app. pose proof (len_nonneg later). lia. }
  { now rewrite Hin1. }
  rewrite Hrecv. cbn [bind]. exists w'.
  rewrite Hin1, Hlater, firstn_len_app in *.
  split; [|split].
  - unfold buf1. rewrite <- Hpre at 1. rewrite skipn_len_app.
    cbn [app]. now rewrite c_string_terminated.
  - now rewrite Hw, Hwire.
  - exact Hs.
Qed.

(** A miss: the header, then "Not found" after an interruption. *)
Lemma binary_get_error_status_witness :
  exists w',
    binary_get 4 fetch_server fresh_item
      (mkWorld [RecvData not_found_header; RecvErr EINTR; RecvData (bytes "Not found")]
         [] [] 0 1024)
    = Ret (-1, set_errmsg fetch_server "Not found", fresh_item, w')
    /\ wire w' = request_header_bytes (binary_get_request fresh_item) ++ bytes "k"
    /\ stream_bytes (net_in w') = [].
Proof.
  refine (binary_get_error_status 4 fetch_server fresh_item
            (mkWorld [RecvData not_found_header; RecvErr EINTR;
                      RecvData (bytes "Not found")] [] [] 0 1024)
            not_found_header (bytes "Not found") _
            _ _ _ _ eq_refl eq_refl _ eq_refl _ _ _ _ _ _).
  - cbn. lia.
  - constructor.
  - cbn. lia.
  - vm_compute. discriminate.
  - discriminate.
  - vm_compute. reflexivity.
  - cbn. intuition discriminate.
  - repeat constructor.
  - exists []. reflexivity.
  - cbn. lia.
  - vm_compute. discriminate.
Defined.

(** The value part of a successful response with 4 bytes of extras, for
    an item that has just been given a buffer of the value's size. *)
Lemma binary_get_payload_hit (fuel : nat) (server : Server) (item : Item) (w : World)
    (fl c1 c2 : list byte) (more : list recv_event) :
  0 <= sock server ->
  List.length fl = 4%nat ->
  size item = len (c1 ++ c2) ->
  size item < 2 ^ 32 ->
  net_in w = RecvData (fl ++ c1) :: more ->
  Forall recv_soft more ->
  starts_with c2 (stream_bytes more) ->
  (List.length more < fuel)%nat ->
  exists w',
    binary_get_payload fuel server item (repeat NUL (Z.to_nat (size item))) 4
      (4 + size item) w
    = Ret (server, c1 ++ c2, w')
    /\ wire w' = wire w
    /\ stream_bytes (net_in w') = skipn (Z.to_nat (len c2)) (stream_bytes more).
Proof.
  intros Hfd Hfl Hsize Hsmall Hin Hsoft [later Hlater] Hfuel.
  pose proof (len_nonneg c1) as H1. pose proof (len_nonneg c2) as H2.
  rewrite len_app in Hsize.
  assert (Hfl4 : len fl = 4) by (unfold len; rewrite Hfl; reflexivity).
  unfold binary_get_payload. change (negb (4 =? 0)) with true.
  change (negb (4 =? 4)) with false. cbv beta iota.
  unfold readv_flags_data.
  rewrite (recv_data w _ _ (fl ++ c1) more Hfd Hin).
  rewrite (firstn_all2 (fl ++ c1))
    by (rewrite length_app; unfold len in *; lia).
  rewrite (@skipn_all2 _ (Z.to_nat (4 + size item)) (fl ++ c1))
    by (rewrite length_app; unfold len in *; lia).
  replace (skipn 4 (fl ++ c1)) with c1
    by (rewrite <- Hfl, skipn_app, skipn_all, Nat.sub_diag; reflexivity).
  assert (Hmem : len (repeat NUL (Z.to_nat (size item))) = size item).
  { unfold len. rewrite repeat_length. lia. }
  rewrite mem_write_ok by lia. cbn [bind].
  change (Z.to_nat 0) with 0%nat. cbn [firstn app]. rewrite Z.add_0_l.
  rewrite len_app, Hfl4.
  set (mem1 := c1 ++ skipn (Z.to_nat (len c1)) (repeat NUL (Z.to_nat (size item)))).
  assert (Htail : len (skipn (Z.to_nat (len c1)) (repeat NUL (Z.to_nat (size item))))
                  = len c2).
  { unfold len. rewrite length_skipn, repeat_length. unfold len in *. lia. }
  destruct (Z.ltb_spec (4 + len c1) (4 + size item)) as [Hlt|Hge].
  - replace (4 + len c1 - 4) with (len c1) by lia.
    replace (size item - len c1) with (len c2) by lia.
    rewrite (u64_small (len c2)) by lia.
    unfold mem1 at 1. rewrite ptr_add_app. cbn [bind].
    destruct (server_receive_exact_run fuel server
                (skipn (Z.to_nat (len c1)) (repeat NUL (Z.to_nat (size item))))
                (len c2) (set_net_in w more))
      as [w' [Hrecv [Hs [Hw _]]]]; try assumption; try lia.
    { cbn [net_in set_net_in]. rewrite Hlater, len_app.
      pose proof (len_nonneg later). lia. }
    rewrite Hrecv. cbn [bind]. rewrite Z.eqb_refl. cbn [negb].
    cbn [net_in set_net_in] in Hs. cbn [wire set_net_in] in Hw.
    exists w'. split; [|split; assumption].
    cbn [net_in set_net_in]. rewrite Hlater, firstn_len_app.
    unfold mem1. rewrite firstn_len_app.
    rewrite <- Htail. unfold len at 1. rewrite Nat2Z.id, skipn_all.
    now rewrite app_nil_r.
  - assert (Hz : len c2 <= 0) by lia. apply len_zero_nil in Hz. subst c2.
    exists (set_net_in w more). split; [|split; reflexivity].
    unfold mem1.
    rewrite (len_zero_nil (skipn (Z.to_nat (len c1)) (repeat NUL (Z.to_nat (size item)))))
      by (rewrite Htail; reflexivity).
    reflexivity.
Qed.

(** A fetch that hits, end to end, into an item with no buffer.  The
    request goes out over a transport with no hard error.  One read
    brings the 24-byte response header, whose status is zero, whose
    extras length is 4 and whose body length, in network byte order, is
    4 plus the length of the value; the next read brings the 4 flag
    bytes and a part [c1] of the value, and the rest [c2] comes in later
    reads, cut in any way.  Then [binary_get] returns 0 with the
    connection as it was; the item holds a fresh buffer with exactly the
    value, [size] is its length and [cas_id] is the token of the header
    read most significant byte first.  The flags of the response are
    read and dropped: the item keeps the flags it had. *)
Theorem binary_get_hit (fuel : nat) (server : Server) (item : Item) (w : World)
    (hdr fl c1 c2 : list byte) (cas : Z) (more : list recv_event) :
  0 <= sock server ->
  Forall send_soft (net_out w) ->
  (List.length (net_out w) < fuel)%nat ->
  u16 (keylen item) <= len (key_mem item) ->
  data item = None ->
  net_in w = RecvData hdr :: RecvData (fl ++ c1) :: more ->
  List.length hdr = 24%nat ->
  slice hdr 4 1 = [x04] ->
  slice hdr 6 2 = [x00; x00] ->
  slice hdr 8 4 = be_bytes 4 (4 + len (c1 ++ c2)) ->
  slice hdr 16 8 = be_bytes 8 cas ->
  0 <= cas < 2 ^ 64 ->
  4 + len (c1 ++ c2) < 2 ^ 32 ->
  List.length fl = 4%nat ->
  Forall recv_soft more ->
  starts_with c2 (stream_bytes more) ->
  (List.length more < fuel)%nat ->
  len (c1 ++ c2) <= malloc_limit w ->
  exists w',
    binary_get fuel server item w
    = Ret (0, server,
           mkItem (key item) (keylen item) (Some (c1 ++ c2)) (len (c1 ++ c2))
             (flags item) (exptime item) cas,
           w')
    /\ wire w' = wire w ++ request_header_bytes (binary_get_request item)
                 ++ firstn (Z.to_nat (u16 (keylen item))) (key_mem item)
    /\ stream_bytes (net_in w') = skipn (Z.to_nat (len c2)) (stream_bytes more).
Proof.
  intros Hfd Hsoft Hfuel Hkey Hdata Hin Hlen Hext Hstatus Hbody Hcas Hcasr Hsmall Hfl
         Hrsoft Hlater Hrfuel Hlim.
  pose proof (len_nonneg (c1 ++ c2)) as Hn.
  destruct (binary_get_header fuel server item w hdr (RecvData (fl ++ c1) :: more)
              Hfd Hsoft Hfuel Hkey Hin Hlen)
    as [w1 [Hrun [Hwire [Hin1 Hm1]]]].
  rewrite Hrun. unfold binary_get_response, response_of_bytes.
  cbn [rsp_status rsp_bodylen rsp_extlen rsp_cas]. cbv zeta.
  rewrite Hbody, ntohl_be_bytes by lia. rewrite Hstatus, Hext, Hcas.
  change (le_val [x00; x00] =? 0) with true. change (le_val [x04]) with 4.
  cbv beta iota. repeat (rewrite Hdata; cbv beta iota).
  replace (4 + len (c1 ++ c2) - 4) with (len (c1 ++ c2)) by lia.
  unfold u32. rewrite !Z.mod_small by lia.
  cbn [size set_size data set_data].
  destruct (malloc_ok w1 (len (c1 ++ c2)) ltac:(lia)) as [Hmalloc _]. rewrite Hmalloc.
  cbn [size set_size data set_data].
  set (item2 := set_data (set_size item (len (c1 ++ c2)))
                  (Some (repeat NUL (Z.to_nat (len (c1 ++ c2)))))).
  destruct (binary_get_payload_hit fuel server item2 w1 fl c1 c2 more)
    as [w' [Hpay [Hw Hs]]]; try assumption; try reflexivity.
  { cbn [size item2 set_data set_size]. lia. }
  change (size item2) with (len (c1 ++ c2)) in Hpay.
  rewrite Hpay. cbn [bind]. rewrite cas_be_bytes by assumption.
  exists w'. split; [reflexivity|]. split; [now rewrite Hw, Hwire | exact Hs].
Qed.

(** The key [k] holds "hello"; the flags come with "he" and the rest
    after an interruption. *)
Lemma binary_get_hit_witness :
  exists w',
    binary_get 4 fetch_server fresh_item
      (mkWorld [RecvData hit_header; RecvData ([x00; x00; x00; x07] ++ bytes "he");
                RecvErr EINTR; RecvData (bytes "llo")] [] [] 0 1024)
    = Ret (0, fetch_server,
           mkItem (Some (literal "k")) 1 (Some (bytes "hello")) 5 0 0 72623859790382856,
           w')
    /\ wire w' = request_header_bytes (binary_get_request fresh_item) ++ bytes "k"
    /\ stream_bytes (net_in w') = [].
Proof.
  refine (binary_get_hit 4 fetch_server fresh_item
            (mkWorld [RecvData hit_header; RecvData ([x00; x00; x00; x07] ++ bytes "he");
                      RecvErr EINTR; RecvData (bytes "llo")] [] [] 0 1024)
            hit_header [x00; x00; x00; x07] (bytes "he") (bytes "llo")
            72623859790382856 _
            _ _ _ _ eq_refl eq_refl eq_refl eq_refl eq_refl eq_refl eq_refl _ _ eq_refl
            _ _ _ _).
  - cbn. lia.
  - constructor.
  - cbn. lia.
  - vm_compute. discriminate.
  - lia.
  - vm_compute. reflexivity.
  - repeat constructor.
  - exists []. reflexivity.
  - cbn. lia.
  - vm_compute. discriminate.
Defined.

Lemma ptr_add_negative (mem : list byte) (n : Z) : n < 0 -> ptr_add mem n = Undef.
Proof. intros H. unfold ptr_add. destruct (Z.leb_spec 0 n); [lia | reflexivity]. Qed.

(** [binary_get] takes for granted that the read after the response
    header brings at least the 4 bytes of the flags.  When that read is
    interrupted, fails, or brings fewer than 4 bytes, the count less 4 is
    negative and the call forms a pointer before the item's buffer to
    receive the rest. *)
Theorem binary_get_short_first_read (fuel : nat) (server : Server) (item : Item)
    (w : World) (hdr : list byte) (n : Z) (ev : recv_event) (more : list recv_event) :
  0 <= sock server ->
  Forall send_soft (net_out w) ->
  (List.length (net_out w) < fuel)%nat ->
  u16 (keylen item) <= len (key_mem item) ->
  data item = None ->
  net_in w = RecvData hdr :: ev :: more ->
  List.length hdr = 24%nat ->
  slice hdr 4 1 = [x04] ->
  slice hdr 6 2 = [x00; x00] ->
  slice hdr 8 4 = be_bytes 4 (4 + n) ->
  0 <= n -> 4 + n < 2 ^ 32 ->
  n <= malloc_limit w ->
  short_read ev ->
  binary_get fuel server item w = Undef.
Proof.
  intros Hfd Hsoft Hfuel Hkey Hdata Hin Hlen Hext Hstatus Hbody Hn Hsmall Hlim Hshort.
  destruct (binary_get_header fuel server item w hdr (ev :: more)
              Hfd Hsoft Hfuel Hkey Hin Hlen)
    as [w1 [Hrun [Hwire [Hin1 Hm1]]]].
  rewrite Hrun. unfold binary_get_response, response_of_bytes.
  cbn [rsp_status rsp_bodylen rsp_extlen rsp_cas]. cbv zeta.
  rewrite Hbody, ntohl_be_bytes by lia. rewrite Hstatus, Hext.
  change (le_val [x00; x00] =? 0) with true. change (le_val [x04]) with 4.
  cbv beta iota. repeat (rewrite Hdata; cbv beta iota).
  replace (4 + n - 4) with n by lia.
  unfold u32. rewrite !Z.mod_small by lia.
  cbn [size set_size data set_data].
  destruct (malloc_ok w1 n ltac:(lia)) as [Hmalloc Hmlen]. rewrite Hmalloc.
  cbn [size set_size data set_data].
  unfold binary_get_payload. change (negb (4 =? 0)) with true.
  change (negb (4 =? 4)) with false. cbv beta iota.
  cbn [size set_size data set_data].
  unfold readv_flags_data.
  destruct ev as [bs|e].
  - cbn [short_read] in Hshort. pose proof (len_nonneg bs) as Hbs.
    rewrite (recv_data w1 _ _ bs more Hfd Hin1).
    rewrite (firstn_all2 bs) by (unfold len in *; lia).
    rewrite (skipn_all2 (n:=4) bs) by (unfold len in *; lia).
    rewrite mem_write_ok by (change (len (@nil byte)) with 0; lia).
    cbn [bind]. destruct (Z.ltb_spec (len bs) (4 + n)); [|lia].
    rewrite ptr_add_negative by lia. reflexivity.
  - rewrite (recv_err w1 _ _ e more Hfd Hin1).
    change (skipn 4 (@nil byte)) with (@nil byte).
    rewrite mem_write_ok by (change (len (@nil byte)) with 0; lia).
    cbn [bind]. destruct (Z.ltb_spec (-1) (4 + n)); [|lia].
    rewrite ptr_add_negative by lia. reflexivity.
Qed.

(** The flags of a hit arrive two bytes at a time. *)
Lemma binary_get_short_first_read_witness :
  binary_get 4 fetch_server fresh_item
    (mkWorld [RecvData hit_header; RecvData [x00; x00];
              RecvData ([x00; x07] ++ bytes "hello")] [] [] 0 1024)
  = Undef.
Proof.
  refine (binary_get_short_first_read 4 fetch_server fresh_item
            (mkWorld [RecvData hit_header; RecvData [x00; x00];
                      RecvData ([x00; x07] ++ bytes "hello")] [] [] 0 1024)
            hit_header 5 (RecvData [x00; x00]) _
            _ _ _ _ eq_refl eq_refl eq_refl eq_refl eq_refl eq_refl _ _ _ _).
  - cbn. lia.
  - constructor.
  - cbn. lia.
  - vm_compute. discriminate.
  - lia.
  - lia.
  - cbn. lia.
  - vm_compute. reflexivity.
Defined.

(** *** Binary store *)

Lemma binary_store_iov_ok (cmd : StoreCommand) (item : Item) (d : list byte) :
  u16 (keylen item) <= len (key_mem item) ->
  data item = Some d ->
  0 <= size item <= len d ->
  Forall iov_ok (binary_store_iovec cmd item)
  /\ message (binary_store_iovec cmd item)
     = request_set_bytes (binary_store_request cmd item)
       ++ firstn (Z.to_nat (u16 (keylen item))) (key_mem item)
       ++ firstn (Z.to_nat (size item)) d.
Proof.
  intros Hk Hd Hs.
  assert (H16 : 0 <= u16 (keylen item)) by (unfold u16; apply Z.mod_pos_bound; lia).
  assert (H32 : len (request_set_bytes (binary_store_request cmd item)) = 32).
  { unfold len. now rewrite length_request_set_bytes. }
  unfold binary_store_iovec. rewrite Hd. split.
  - repeat apply Forall_cons; try apply Forall_nil; unfold iov_ok;
      cbn [iov_len iov_base]; lia.
  - unfold message. cbn [map List.concat]. unfold iov_data. cbn [iov_len iov_base].
    rewrite app_nil_r. reflexivity.
Qed.

(** A store the server accepts, end to end.  Over a transport with no
    hard error [binary_store] puts on the wire its 32-byte request, the
    key (the first [keylen mod 65536] bytes of it) and the first [size]
    bytes of the data; when one read then brings a response header whose
    status and body length are zero, the call returns 0 and leaves the
    connection as it was. *)
Theorem binary_store_stored (fuel : nat) (server : Server) (cmd : StoreCommand)
    (item : Item) (w : World) (hdr d : list byte) (more : list recv_event) :
  0 <= sock server ->
  Forall send_soft (net_out w) ->
  (List.length (net_out w) < fuel)%nat ->
  u16 (keylen item) <= len (key_mem item) ->
  data item = Some d ->
  0 <= size item <= len d ->
  net_in w = RecvData hdr :: more ->
  List.length hdr = 24%nat ->
  slice hdr 6 2 = [x00; x00] ->
  slice hdr 8 4 = [x00; x00; x00; x00] ->
  exists w',
    binary_store fuel server cmd item w = Ret (0, server, w')
    /\ wire w' = wire w ++ request_set_bytes (binary_store_request cmd item)
                 ++ firstn (Z.to_nat (u16 (keylen item))) (key_mem item)
                 ++ firstn (Z.to_nat (size item)) d
    /\ net_in w' = more.
Proof.
  intros Hfd Hsoft Hfuel Hkey Hd Hsize Hin Hlen Hstatus Hbody.
  destruct (binary_store_iov_ok cmd item d Hkey Hd Hsize) as [Hok Hmsg].
  destruct (server_sendv_loop_delivers server (net_out w) fuel _ w eq_refl Hsoft Hfd
              Hok Hfuel) as [w1 [Hsend [Hwire [Hin1 Hm1]]]].
  unfold binary_store, server_sendv. rewrite (iov_total_message _ Hok), Hsend.
  cbn [bind]. destruct fuel as [|fuel]; [inversion Hfuel|].
  rewrite (server_receive_one_read fuel server (repeat NUL 24) hdr 24 w1 more Hfd);
    [| now rewrite Hin1 | unfold len; rewrite Hlen; reflexivity
     | unfold len; cbn; lia].
  cbn [bind]. change (24 =? 24) with true. cbn [negb].
  change (skipn (Z.to_nat 24) (repeat NUL 24)) with (@nil byte). rewrite app_nil_r.
  unfold binary_store_response, response_of_bytes. cbn [rsp_status rsp_bodylen].
  rewrite Hstatus, Hbody.
  change (le_val [x00; x00] =? 0) with true.
  change (le_val [x00; x00; x00; x00] =? 0) with true.
  cbn [negb andb].
  exists (set_net_in w1 more). split; [reflexivity|].
  cbn [wire net_in set_net_in]. rewrite Hwire, Hmsg. now split.
Qed.

(** Storing "hello" under the key [k]. *)
Lemma binary_store_stored_witness :
  exists w',
    binary_store 4 fetch_server set sample_item
      (mkWorld [RecvData success_header] [SendAccept 3] [] 0 1024)
    = Ret (0, fetch_server, w')
    /\ wire w' = request_set_bytes (binary_store_request set sample_item)
                 ++ bytes "k" ++ bytes "hello"
    /\ net_in w' = [].
Proof.
  refine (binary_store_stored 4 fetch_server set sample_item
            (mkWorld [RecvData success_header] [SendAccept 3] [] 0 1024)
            success_header (bytes "hello") [] _ _ _ _ eq_refl _ eq_refl eq_refl
            eq_refl eq_refl).
  - cbn. lia.
  - repeat constructor.
  - cbn. lia.
  - vm_compute. discriminate.
  - unfold len. cbn. lia.
Defined.

(** *** The external interface *)

(** [get_server_slot] is [get_server] with the index kept. *)
Lemma get_server_slot_get_server (cs : bool) (handle : Memcache) (k : cptr) :
  get_server cs handle k
  = (sel <- get_server_slot cs handle k ;; Ret (option_map snd sel)).
Proof.
  unfold get_server, get_server_slot.
  destruct (no_servers handle =? 1).
  - destruct (array_get (servers handle) 0); reflexivity.
  - destruct (0 <? no_servers handle); [|reflexivity].
    destruct (simplehash cs k) as [h| | |]; cbn [bind]; try reflexivity.
    destruct (array_get (servers handle) (h mod no_servers handle)); reflexivity.
Qed.

Lemma array_get_range {A : Type} (a : list A) (idx : Z) (x : A) :
  array_get a idx = Ret x -> 0 <= idx < len a /\ nth_error a (Z.to_nat idx) = Some x.
Proof.
  unfold array_get. destruct (Z.ltb_spec idx 0); [discriminate|].
  destruct (nth_error a (Z.to_nat idx)) as [y|] eqn:E; [|discriminate].
  intros H0. injection H0 as ->. split; [|reflexivity].
  assert (Hlt : (Z.to_nat idx < List.length a)%nat) by (apply nth_error_Some; congruence).
  unfold len. lia.
Qed.

Lemma get_server_slot_range (cs : bool) (handle : Memcache) (k : cptr) (idx : Z)
    (s : Server) :
  get_server_slot cs handle k = Ret (Some (idx, s)) ->
  0 <= idx < len (servers handle) /\ nth_error (servers handle) (Z.to_nat idx) = Some s.
Proof.
  unfold get_server_slot.
  destruct (no_servers handle =? 1).
  - destruct (array_get (servers handle) 0) as [x| | |] eqn:E; cbn [bind]; try discriminate.
    intros H. injection H as <- <-. now apply array_get_range.
  - destruct (0 <? no_servers handle); [|discriminate].
    destruct (simplehash cs k) as [h| | |]; cbn [bind]; try discriminate.
    destruct (array_get (servers handle) (h mod no_servers handle)) as [x| | |] eqn:E;
      cbn [bind]; try discriminate.
    intros H. injection H as <- <-. now apply array_get_range.
Qed.

Lemma length_array_set {A : Type} (a : list A) (idx : Z) (x : A) :
  0 <= idx < len a -> List.length (array_set a idx x) = List.length a.
Proof.
  intros H. unfold array_set, len in *.
  rewrite length_app, length_firstn. cbn [List.length]. rewrite length_skipn. lia.
Qed.

Lemma nth_error_array_set_other {A : Type} (a : list A) (idx : Z) (x : A) (j : nat) :
  0 <= idx < len a -> j <> Z.to_nat idx ->
  nth_error (array_set a idx x) j = nth_error a j.
Proof.
  intros H Hj. unfold array_set, len in *.
  assert (Hl : List.length (firstn (Z.to_nat idx) a) = Z.to_nat idx)
    by (rewrite length_firstn; lia).
  destruct (Nat.lt_ge_cases j (Z.to_nat idx)) as [Hlt|Hge].
  - rewrite nth_error_app1 by lia. rewrite nth_error_firstn.
    destruct (Nat.ltb_spec j (Z.to_nat idx)); [reflexivity | lia].
  - rewrite nth_error_app2 by lia. rewrite Hl.
    destruct (j - Z.to_nat idx)%nat as [|m] eqn:Em; [lia|].
    cbn [nth_error]. rewrite nth_error_skipn. f_equal. lia.
Qed.

Lemma nth_error_array_set_same {A : Type} (a : list A) (idx : Z) (x : A) :
  0 <= idx < len a -> nth_error (array_set a idx x) (Z.to_nat idx) = Some x.
Proof.
  intros H. unfold array_set, len in *.
  assert (Hl : List.length (firstn (Z.to_nat idx) a) = Z.to_nat idx)
    by (rewrite length_firstn; lia).
  rewrite nth_error_app2 by lia. rewrite Hl, Nat.sub_diag. reflexivity.
Qed.

(** What a failed connection attempt leaves. *)
Lemma server_connect_fails (att : attempt) (server : Server) (w : World) :
  attempt_fails att ->
  exists s' w' log,
    server_connect att server w = (-1, s', w', log)
    /\ sock s' = -1
    /\ (errmsg s' = Some ("Failed to create socket: " ++ strerror (errno w'))%string
        \/ errmsg s' = Some ("Failed to connect socket: " ++ strerror (errno w'))%string)
    /\ buffer s' = buffer server /\ buffersize s' = buffersize server
    /\ peername s' = peername server
    /\ wire w' = wire w /\ net_in w' = net_in w /\ net_out w' = net_out w.
Proof.
  intros Hfail. unfold server_connect.
  destruct (Z.eqb_spec (socket_ret att) (-1)) as [E|N].
  - do 3 eexists. split; [reflexivity|].
    cbn [sock errmsg buffer buffersize peername set_errmsg set_sock
         wire net_in net_out set_errno].
    rewrite E. repeat split; auto.
  - destruct Hfail as [Hs|Hc]; [contradiction|].
    destruct (setsockopt_ret att =? -1); rewrite Hc; change (-1 =? -1) with true;
      cbv beta iota; do 3 eexists; (split; [reflexivity|]);
      unfold server_disconnect, set_errmsg, set_sock;
      cbn [sock errmsg buffer buffersize peername];
      destruct (Z.eqb_spec (socket_ret att) (-1)); try contradiction;
      cbn [negb sock errmsg buffer buffersize peername
           wire net_in net_out set_errno];
      repeat split; auto.
Qed.

(** When the server a key selects is not connected and the connection
    attempt fails, in [socket] or in [connect], [libmemc_get] and
    [libmemc_store] both return -1 without sending or receiving
    anything; the server stays disconnected with a message that names
    the failed call, and the item is untouched.  Only [libmemc_get]
    reports the message on [stderr]. *)
Theorem libmemc_connect_failure (cs : bool) (fuel : nat) (att : attempt)
    (handle : Memcache) (cmd : StoreCommand) (item : Item) (w : World)
    (idx : Z) (server : Server) :
  get_server_slot cs handle (key item) = Ret (Some (idx, server)) ->
  sock server = -1 ->
  attempt_fails att ->
  exists s' w' log,
    libmemc_get cs fuel att handle item w
    = Ret (-1, with_server handle idx s', item, w', log ++ [printed (errmsg s')])
    /\ libmemc_store cs fuel att handle cmd item w
       = Ret (-1, with_server handle idx s', w', log)
    /\ sock s' = -1
    /\ (errmsg s' = Some ("Failed to create socket: " ++ strerror (errno w'))%string
        \/ errmsg s' = Some ("Failed to connect socket: " ++ strerror (errno w'))%string)
    /\ buffer s' = buffer server
    /\ wire w' = wire w /\ net_in w' = net_in w /\ net_out w' = net_out w.
Proof.
  intros Hsel Hsock Hfail.
  destruct (server_connect_fails att server w Hfail)
    as [s' [w' [log [Hc [H1 [H2 [H3 [_ [_ [H4 [H5 H6]]]]]]]]]]].
  exists s', w', log. unfold libmemc_get, libmemc_store.
  rewrite Hsel. cbn [bind]. rewrite Hsock. change (-1 =? -1) with true. cbv beta iota.
  rewrite Hc. change (-1 =? -1) with true. cbv beta iota.
  repeat split; auto.
Qed.

(** A refused connection on a handle with one idle server. *)
Lemma libmemc_connect_failure_witness :
  exists s' w' log,
    libmemc_get true 4 refused idle_handle fresh_item (answer hello_response)
    = Ret (-1, with_server idle_handle 0 s', fresh_item, w', log ++ [printed (errmsg s')])
    /\ libmemc_store true 4 refused idle_handle set fresh_item (answer hello_response)
       = Ret (-1, with_server idle_handle 0 s', w', log)
    /\ sock s' = -1
    /\ (errmsg s' = Some ("Failed to create socket: " ++ strerror (errno w'))%string
        \/ errmsg s' = Some ("Failed to connect socket: " ++ strerror (errno w'))%string)
    /\ buffer s' = buffer idle_server
    /\ wire w' = [] /\ net_in w' = [RecvData hello_response] /\ net_out w' = [].
Proof.
  refine (libmemc_connect_failure true 4 refused idle_handle set fresh_item
            (answer hello_response) 0 idle_server eq_refl eq_refl _).
  right. reflexivity.
Defined.

Lemma same_but_selected_refl (cs : bool) (k : cptr) (h : Memcache) :
  same_but_selected cs k h h.
Proof. unfold same_but_selected. repeat split; reflexivity. Qed.

Lemma same_but_selected_with_server (cs : bool) (k : cptr) (h : Memcache) (idx : Z)
    (s s' : Server) :
  get_server_slot cs h k = Ret (Some (idx, s)) ->
  same_but_selected cs k h (with_server h idx s').
Proof.
  intros Hsel. destruct (get_server_slot_range cs h k idx s Hsel) as [Hr _].
  unfold same_but_selected, with_server. cbn [protocol no_servers servers].
  repeat split.
  - now apply length_array_set.
  - intros idx' s0 Hsel' j Hj. rewrite Hsel in Hsel'. injection Hsel' as <- <-.
    now apply nth_error_array_set_other.
Qed.

(** A call of [libmemc_get] or [libmemc_store] touches one server only:
    whatever it returns, the handle keeps its protocol, its number of
    servers and every server but the one the key selects. *)
Theorem libmemc_calls_touch_one_server (cs : bool) (fuel : nat) (att : attempt)
    (handle : Memcache) (cmd : StoreCommand) (item : Item) (w : World) :
  (forall r h' item' w' log,
     libmemc_get cs fuel att handle item w = Ret (r, h', item', w', log) ->
     same_but_selected cs (key item) handle h')
  /\ (forall r h' w' log,
        libmemc_store cs fuel att handle cmd item w = Ret (r, h', w', log) ->
        same_but_selected cs (key item) handle h').
Proof.
  split.
  - intros r h' item' w' log. unfold libmemc_get.
    destruct (get_server_slot cs handle (key item)) as [[[idx server]|]| | |] eqn:Hsel;
      cbn [bind]; try discriminate.
    + destruct (if sock server =? -1 then server_connect att server w
                else (0, server, w, [])) as [[[connected server1] w1] log1].
      destruct (connected =? -1).
      * intros H. injection H as _ <- _ _ _.
        now apply same_but_selected_with_server with (s := server).
      * destruct (match protocol handle with
                  | Binary => binary_get fuel server1 item w1
                  | Textual => textual_get fuel server1 item w1
                  end) as [[[[r2 server2] item2] w2]| | |]; cbn [bind]; try discriminate.
        intros H. injection H as _ <- _ _ _.
        now apply same_but_selected_with_server with (s := server).
    + intros H. injection H as _ <- _ _ _. apply same_but_selected_refl.
  - intros r h' w' log. unfold libmemc_store.
    destruct (get_server_slot cs handle (key item)) as [[[idx server]|]| | |] eqn:Hsel;
      cbn [bind]; try discriminate.
    + destruct (if sock server =? -1 then server_connect att server w
                else (0, server, w, [])) as [[[connected server1] w1] log1].
      destruct (connected =? -1).
      * intros H. injection H as _ <- _ _.
        now apply same_but_selected_with_server with (s := server).
      * destruct (match protocol handle with
                  | Binary => binary_store fuel server1 cmd item w1
                  | Textual => textual_store fuel server1 cmd item w1
                  end) as [[[r2 server2] w2]| | |]; cbn [bind]; try discriminate.
        intros H. injection H as _ <- _ _.
        now apply same_but_selected_with_server with (s := server).
    + intros H. injection H as _ <- _ _. apply same_but_selected_refl.
Qed.











(** The handle that this call leaves. *)
Example libmemc_add_server_refused :
  libmemc_add_server Resolves refused idle_handle "cache2" 11211 roomy_world
  = Ret (0, grown_handle, set_errno roomy_world ECONNRESET, []).
Proof. cbv -[repeat Z.to_nat]. reflexivity. Qed.

(** A handle fresh from [libmemc_create] has no server: its count
    matches its (empty) server list, it has the protocol asked for, and
    every fetch and store on it returns -1 at once, without touching the
    handle, the item or the transport, until a server is added. *)
Theorem libmemc_create_empty (p : Protocol) (w0 : World) (h : Memcache)
    (cs : bool) (fuel : nat) (att : attempt) (cmd : StoreCommand) (item : Item)
    (w : World) :
  libmemc_create p w0 = Some h ->
  handle_ok h /\ protocol h = p
  /\ get_server cs h (key item) = Ret None
  /\ libmemc_get cs fuel att h item w = Ret (-1, h, item, w, [])
  /\ libmemc_store cs fuel att h cmd item w = Ret (-1, h, w, []).
Proof.
  unfold libmemc_create. destruct (calloc w0 1 sizeof_Memcache); [|discriminate].
  intros H. injection H as <-. repeat split.
Qed.

(** A textual handle made where memory is available. *)
Lemma libmemc_create_empty_witness :
  handle_ok (mkMemcache [] Textual 0) /\ protocol (mkMemcache [] Textual 0) = Textual
  /\ get_server true (mkMemcache [] Textual 0) (key fresh_item) = Ret None
  /\ libmemc_get true 4 refused (mkMemcache [] Textual 0) fresh_item (answer hello_response)
     = Ret (-1, mkMemcache [] Textual 0, fresh_item, answer hello_response, [])
  /\ libmemc_store true 4 refused (mkMemcache [] Textual 0) set fresh_item
       (answer hello_response)
     = Ret (-1, mkMemcache [] Textual 0, answer hello_response, []).
Proof.
  refine (libmemc_create_empty Textual roomy_world (mkMemcache [] Textual 0) true 4
            refused set fresh_item (answer hello_response) _).
  reflexivity.
Defined.

(** *** Binary store and fetch, from the call to the wire *)

Lemma server_receive_wire (fuel : nat) (server : Server) (dat : list byte) (sz : Z)
    (line : bool) (w : World) (r : Z) (s' : Server) (d' : list byte) (w' : World) :
  server_receive fuel server dat sz line w = Ret (r, s', d', w') -> wire w' = wire w.
Proof.
  unfold server_receive. intros H.
  destruct (server_receive_loop_stream _ _ _ _ _ _ _ _ _ _ _ _ (Z.le_refl 0) H)
    as [k [_ [_ [_ [_ Hw]]]]]. exact Hw.
Qed.

Lemma binary_store_response_wire (fuel : nat) (server : Server)
    (response : response_header) (w : World) (r : Z) (s' : Server) (w' : World) :
  binary_store_response fuel server response w = Ret (r, s', w') -> wire w' = wire w.
Proof.
  unfold binary_store_response.
  destruct ((rsp_status response =? 0) && negb (rsp_bodylen response =? 0)).
  { intros H. now injection H as _ _ <-. }
  destruct (negb (rsp_bodylen response =? 0)).
  - destruct (malloc w (ntohl (rsp_bodylen response))) as [buf|].
    + destruct (server_receive fuel server buf (ntohl (rsp_bodylen response)) false w)
        as [[[[x s1] b1] w1]| | |] eqn:E; cbn [bind]; try discriminate.
      intros H. injection H as _ _ <-. eapply server_receive_wire. exact E.
    + intros H. now injection H as _ _ <-.
  - intros H. now injection H as _ _ <-.
Qed.

Lemma binary_store_iovec_message (cmd : StoreCommand) (item : Item) :
  u16 (keylen item) <= len (key_mem item) ->
  0 <= size item <= len (data_mem item) ->
  Forall iov_ok (binary_store_iovec cmd item)
  /\ message (binary_store_iovec cmd item) = binary_store_message cmd item.
Proof.
  intros Hk Hs.
  assert (H16 : 0 <= u16 (keylen item)) by (unfold u16; apply Z.mod_pos_bound; lia).
  assert (H32 : len (request_set_bytes (binary_store_request cmd item)) = 32).
  { unfold len. now rewrite length_request_set_bytes. }
  unfold binary_store_iovec, binary_store_message, data_mem in *. split.
  - repeat apply Forall_cons; try apply Forall_nil; unfold iov_ok;
      cbn [iov_len iov_base]; lia.
  - unfold message. cbn [map List.concat]. unfold iov_data. cbn [iov_len iov_base].
    rewrite app_nil_r. reflexivity.
Qed.

(** The request of [binary_store] is on the wire whenever the call
    returns, over a transport that takes it. *)
Lemma binary_store_wire (fuel : nat) (server : Server) (cmd : StoreCommand)
    (item : Item) (w : World) (r : Z) (s' : Server) (w' : World) :
  0 <= sock server ->
  Forall send_soft (net_out w) ->
  (List.length (net_out w) < fuel)%nat ->
  u16 (keylen item) <= len (key_mem item) ->
  0 <= size item <= len (data_mem item) ->
  binary_store fuel server cmd item w = Ret (r, s', w') ->
  wire w' = wire w ++ binary_store_message cmd item.
Proof.
  intros Hfd Hsoft Hfuel Hkey Hsize.
  destruct (binary_store_iovec_message cmd item Hkey Hsize) as [Hok Hmsg].
  destruct (server_sendv_loop_delivers server (net_out w) fuel _ w eq_refl Hsoft Hfd
              Hok Hfuel) as [w1 [Hsend [Hwire _]]].
  unfold binary_store, server_sendv. rewrite (iov_total_message _ Hok), Hsend.
  cbn [bind]. rewrite Hmsg in Hwire.
  destruct (server_receive fuel server (repeat NUL 24) 24 false w1)
    as [[[[nread s2] rbytes] w2]| | |] eqn:Hrecv; cbn [bind]; try discriminate.
  apply server_receive_wire in Hrecv.
  destruct (negb (nread =? 24)).
  - intros H. injection H as _ _ <-. congruence.
  - intros H. apply binary_store_response_wire in H. congruence.
Qed.

(** [binary_store] up to the response header, over a transport with no
    hard error that brings the 24 bytes of the header in any cut. *)
Lemma binary_store_header (fuel : nat) (server : Server) (cmd : StoreCommand)
    (item : Item) (w : World) :
  0 <= sock server ->
  Forall send_soft (net_out w) ->
  (List.length (net_out w) < fuel)%nat ->
  u16 (keylen item) <= len (key_mem item) ->
  0 <= size item <= len (data_mem item) ->
  Forall recv_soft (net_in w) ->
  24 <= len (stream_bytes (net_in w)) ->
  (List.length (net_in w) < fuel)%nat ->
  exists w2,
    binary_store fuel server cmd item w
    = binary_store_response fuel server
        (response_of_bytes (firstn 24 (stream_bytes (net_in w)))) w2
    /\ wire w2 = wire w ++ binary_store_message cmd item
    /\ stream_bytes (net_in w2) = skipn 24 (stream_bytes (net_in w))
    /\ Forall recv_soft (net_in w2)
    /\ (List.length (net_in w2) <= List.length (net_in w))%nat
    /\ malloc_limit w2 = malloc_limit w.
Proof.
  intros Hfd Hsoft Hfuel Hkey Hsize Hrsoft Hstream Hrfuel.
  destruct (binary_store_iovec_message cmd item Hkey Hsize) as [Hok Hmsg].
  destruct (server_sendv_loop_delivers server (net_out w) fuel _ w eq_refl Hsoft Hfd
              Hok Hfuel) as [w1 [Hsend [Hwire [Hin1 Hm1]]]].
  unfold binary_store, server_sendv. rewrite (iov_total_message _ Hok), Hsend.
  cbn [bind]. rewrite Hmsg in Hwire.
  destruct (server_receive_exact_run fuel server (repeat NUL 24) 24 w1)
    as [w2 [Hrecv [Hs [Hw [_ [Hm [Hsoft2 Hlen2]]]]]]]; try assumption.
  { unfold len. cbn. lia. }
  { now rewrite Hin1. }
  { now rewrite Hin1. }
  { now rewrite Hin1. }
  rewrite Hrecv. cbn [bind]. change (24 =? 24) with true. cbn [negb].
  change (skipn (Z.to_nat 24) (repeat NUL 24)) with (@nil byte). rewrite app_nil_r.
  rewrite Hin1 in *. change (Z.to_nat 24) with 24%nat in *.
  exists w2. repeat split; try assumption; congruence.
Qed.

Lemma slice_app_prefix (a b : list byte) (off n : nat) :
  (off + n <= List.length a)%nat -> slice (a ++ b) off n = slice a off n.
Proof.
  intros H. unfold slice. rewrite skipn_app, firstn_app, length_skipn.
  replace (n - (List.length a - off))%nat with 0%nat by lia.
  rewrite firstn_O. apply app_nil_r.
Qed.

Lemma sent_app (w w' : World) (msg : list byte) :
  wire w' = wire w ++ msg -> sent w w' = msg.
Proof.
  intros H. unfold sent. rewrite H, skipn_app, skipn_all, Nat.sub_diag. reflexivity.
Qed.

Lemma binary_store_message_slice (cmd : StoreCommand) (item : Item) (off n : nat) :
  (off + n <= 32)%nat ->
  slice (binary_store_message cmd item) off n
  = slice (request_set_bytes (binary_store_request cmd item)) off n.
Proof.
  intros H. unfold binary_store_message. apply slice_app_prefix.
  rewrite length_request_set_bytes. exact H.
Qed.

Lemma binary_store_message_flags (cmd : StoreCommand) (item : Item) :
  slice (binary_store_message cmd item) 24 4 = [x00; x00; x00; x00].
Proof.
  rewrite binary_store_message_slice by lia. rewrite request_set_flags_bytes. reflexivity.
Qed.

Lemma binary_store_message_expiration (cmd : StoreCommand) (item : Item) :
  slice (binary_store_message cmd item) 28 4 = rev (le_bytes 4 (exptime item)).
Proof.
  rewrite binary_store_message_slice by lia. rewrite request_set_expiration_bytes.
  apply htonl_wire_bytes.
Qed.

Lemma binary_store_message_cas (cmd : StoreCommand) (item : Item) :
  slice (binary_store_message cmd item) 16 8
  = le_bytes 8 (u64 (swap64 (s64 (cas_id item)))).
Proof.
  rewrite binary_store_message_slice by lia. now rewrite request_set_cas_bytes.
Qed.

Lemma response_fields (hdr : list byte) :
  rsp_status (response_of_bytes hdr) = status_field hdr
  /\ rsp_bodylen (response_of_bytes hdr) = bodylen_field hdr.
Proof. split; reflexivity. Qed.

(** A store whose response announces no body returns, with 0 for the
    status 0 and -1 for any other. *)
Lemma binary_store_empty_body (fuel : nat) (server : Server) (cmd : StoreCommand)
    (item : Item) (w : World) (hdr rest : list byte) :
  0 <= sock server ->
  Forall send_soft (net_out w) ->
  (List.length (net_out w) < fuel)%nat ->
  u16 (keylen item) <= len (key_mem item) ->
  0 <= size item <= len (data_mem item) ->
  Forall recv_soft (net_in w) ->
  stream_bytes (net_in w) = hdr ++ rest ->
  List.length hdr = 24%nat ->
  (List.length (net_in w) < fuel)%nat ->
  bodylen_field hdr = 0 ->
  exists w',
    binary_store fuel server cmd item w
    = Ret (if status_field hdr =? 0 then 0 else -1, server, w')
    /\ wire w' = wire w ++ binary_store_message cmd item
    /\ stream_bytes (net_in w') = rest.
Proof.
  intros Hfd Hsoft Hfuel Hkey Hsize Hrsoft Hstream Hlen Hrfuel Hbody.
  destruct (binary_store_header fuel server cmd item w)
    as [w2 [Hrun [Hwire [Hs _]]]]; try assumption.
  { rewrite Hstream, len_app. unfold len. rewrite Hlen. lia. }
  rewrite Hstream in Hrun, Hs.
  rewrite (firstn_app_exact hdr rest 24 Hlen) in Hrun.
  rewrite <- Hlen, skipn_app, skipn_all, Nat.sub_diag in Hs. cbn [skipn app] in Hs.
  rewrite Hrun.
  destruct (binary_store_response_cases fuel server (response_of_bytes hdr) w2)
    as [_ [_ [Hempty _]]].
  rewrite Hempty by exact Hbody.
  exists w2. now repeat split.
Qed.

(** C7.  The response to a binary store, on the call itself.  The
    request has gone out over a transport with no hard error and the 24
    bytes of the response header have come in, cut in any way.  A status
    of 0 with an empty body makes [binary_store] return 0.  A status of 0
    with a body is a protocol error: the call returns -1 at once with the
    message "Unexpected data returned", the connection closed and the
    body left unread.  Any other status makes the call return -1 with the
    connection kept, after reading and dropping exactly the announced
    body (when it arrives and its buffer can be allocated); when the
    buffer cannot be allocated the call returns -1 with the connection
    closed.  And whenever the call returns, it returns 0 exactly when the
    status is 0 and the body is empty. *)
Theorem binary_store_response_result (fuel : nat) (server : Server)
    (cmd : StoreCommand) (item : Item) (w : World) (hdr rest : list byte) :
  0 <= sock server ->
  Forall send_soft (net_out w) ->
  (List.length (net_out w) < fuel)%nat ->
  u16 (keylen item) <= len (key_mem item) ->
  0 <= size item <= len (data_mem item) ->
  Forall recv_soft (net_in w) ->
  stream_bytes (net_in w) = hdr ++ rest ->
  List.length hdr = 24%nat ->
  (List.length (net_in w) < fuel)%nat ->
  (status_field hdr = 0 -> bodylen_field hdr = 0 ->
   exists w',
     binary_store fuel server cmd item w = Ret (0, server, w')
     /\ stream_bytes (net_in w') = rest)
  /\ (status_field hdr = 0 -> bodylen_field hdr <> 0 ->
      exists w',
        binary_store fuel server cmd item w = Ret (-1, unexpected_data server, w')
        /\ sock (unexpected_data server) = -1
        /\ errmsg (unexpected_data server)
           = Some ("Unexpected data returned" ++ nl)%string
        /\ stream_bytes (net_in w') = rest)
  /\ (status_field hdr <> 0 -> bodylen_field hdr = 0 ->
      exists w',
        binary_store fuel server cmd item w = Ret (-1, server, w')
        /\ stream_bytes (net_in w') = rest)
  /\ (status_field hdr <> 0 -> bodylen_field hdr <> 0 ->
      announced_body hdr <= malloc_limit w ->
      announced_body hdr <= len rest ->
      exists w',
        binary_store fuel server cmd item w = Ret (-1, server, w')
        /\ stream_bytes (net_in w') = skipn (Z.to_nat (announced_body hdr)) rest)
  /\ (status_field hdr <> 0 -> bodylen_field hdr <> 0 ->
      malloc_limit w < announced_body hdr ->
      exists w',
        binary_store fuel server cmd item w = Ret (-1, allocation_failed server, w')
        /\ sock (allocation_failed server) = -1
        /\ stream_bytes (net_in w') = rest)
  /\ (forall r s' w',
        binary_store fuel server cmd item w = Ret (r, s', w') ->
        (r = 0 \/ r = -1)
        /\ (r = 0 <-> status_field hdr = 0 /\ bodylen_field hdr = 0)).
Proof.
  intros Hfd Hsoft Hfuel Hkey Hsize Hrsoft Hstream Hlen Hrfuel.
  destruct (binary_store_header fuel server cmd item w)
    as [w2 [Hrun [Hwire [Hs [Hsoft2 [Hlen2 Hm2]]]]]]; try assumption.
  { rewrite Hstream, len_app. unfold len. rewrite Hlen. lia. }
  rewrite Hstream in Hrun, Hs.
  rewrite (firstn_app_exact hdr rest 24 Hlen) in Hrun.
  rewrite <- Hlen, skipn_app, skipn_all, Nat.sub_diag in Hs. cbn [skipn app] in Hs.
  rewrite Hrun.
  destruct (response_fields hdr) as [Hst Hbd].
  destruct (binary_store_response_cases fuel server (response_of_bytes hdr) w2)
    as [Hunexp [Hdrain [Hempty [Hcode _]]]].
  rewrite Hst, Hbd in Hunexp, Hdrain, Hempty, Hcode.
  split; [|split; [|split; [|split; [|split]]]].
  - intros H0 Hb. rewrite (Hempty Hb), H0. change (0 =? 0) with true.
    exists w2. now split.
  - intros H0 Hb. destruct (Hunexp H0 Hb) as [Hr [H1 H2]]. rewrite Hr.
    exists w2. now repeat split.
  - intros H0 Hb. rewrite (Hempty Hb).
    destruct (Z.eqb_spec (status_field hdr) 0); [contradiction|].
    exists w2. now split.
  - intros H0 Hb Hroom Hcome.
    destruct (Hdrain H0 Hb Hfd) as [w' [Hr Hs']]; try assumption.
    + unfold announced_body in Hroom. now rewrite Hm2.
    + rewrite Hs. exact Hcome.
    + lia.
    + rewrite Hr. exists w'. split; [reflexivity|]. rewrite Hs', Hs. reflexivity.
  - intros H0 Hb Hfull. unfold binary_store_response. rewrite Hst, Hbd.
    destruct (Z.eqb_spec (status_field hdr) 0); [contradiction|].
    destruct (Z.eqb_spec (bodylen_field hdr) 0); [contradiction|].
    cbn [andb negb]. unfold malloc. fold (announced_body hdr). rewrite Hm2.
    destruct (Z.leb_spec (announced_body hdr) (malloc_limit w)); [lia|].
    exists w2. split; [reflexivity|]. split; [|exact Hs].
    unfold allocation_failed, server_disconnect, set_errmsg, set_sock. cbn [sock].
    destruct (Z.eqb_spec (sock server) (-1)); cbn [negb sock]; auto.
  - intros r s' w'. apply Hcode.
Qed.

(** A store rejected with status 1 and the message "Not found": the 9
    bytes are read and dropped, the next response stays in the stream. *)
Lemma binary_store_response_result_witness :
  exists w',
    binary_store 6 fetch_server set sample_item rejecting_world
    = Ret (-1, fetch_server, w')
    /\ stream_bytes (net_in w') = bytes "NEXT".
Proof.
  refine (proj1 (proj2 (proj2 (proj2
            (binary_store_response_result 6 fetch_server set sample_item rejecting_world
               not_found_header (bytes "Not foundNEXT") _ _ _ _ _ _ eq_refl eq_refl _))))
            _ _ _ _).
  - cbn. lia.
  - repeat constructor.
  - cbn. lia.
  - vm_compute. discriminate.
  - unfold len. cbn. lia.
  - repeat constructor.
  - cbn. lia.
  - vm_compute. discriminate.
  - vm_compute. discriminate.
  - vm_compute. discriminate.
  - vm_compute. discriminate.
Defined.

(** C8.  Whatever the item and the store command, what [binary_store]
    transmits carries 0 in the four bytes of the flags field (bytes 24 to
    27 of the request) and the item's expiration time, most significant
    byte first, in the four bytes after them.  The item's flags play no
    part: the call is the same with any other flags.  This holds of every
    call that returns, over a transport that takes the request, and a
    call whose response announces no body does return. *)
Theorem binary_store_flags_zero (fuel : nat) (server : Server) (cmd : StoreCommand)
    (item : Item) (w : World) :
  0 <= sock server ->
  Forall send_soft (net_out w) ->
  (List.length (net_out w) < fuel)%nat ->
  u16 (keylen item) <= len (key_mem item) ->
  0 <= size item <= len (data_mem item) ->
  (forall r s' w',
     binary_store fuel server cmd item w = Ret (r, s', w') ->
     sent w w' = binary_store_message cmd item
     /\ slice (sent w w') 24 4 = [x00; x00; x00; x00]
     /\ slice (sent w w') 28 4 = rev (le_bytes 4 (exptime item)))
  /\ (forall f,
        binary_store fuel server cmd (with_flags item f) w
        = binary_store fuel server cmd item w)
  /\ (forall hdr rest,
        Forall recv_soft (net_in w) ->
        stream_bytes (net_in w) = hdr ++ rest ->
        List.length hdr = 24%nat ->
        (List.length (net_in w) < fuel)%nat ->
        bodylen_field hdr = 0 ->
        exists w',
          binary_store fuel server cmd item w
          = Ret (if status_field hdr =? 0 then 0 else -1, server, w')
          /\ slice (sent w w') 24 4 = [x00; x00; x00; x00]
          /\ slice (sent w w') 28 4 = rev (le_bytes 4 (exptime item))).
Proof.
  intros Hfd Hsoft Hfuel Hkey Hsize. split; [|split].
  - intros r s' w' Hrun.
    apply binary_store_wire in Hrun; try assumption.
    apply sent_app in Hrun. rewrite Hrun.
    split; [reflexivity|].
    split; [apply binary_store_message_flags | apply binary_store_message_expiration].
  - intros f. reflexivity.
  - intros hdr rest Hrsoft Hstream Hlen Hrfuel Hbody.
    destruct (binary_store_empty_body fuel server cmd item w hdr rest)
      as [w' [Hrun [Hwire _]]]; try assumption.
    exists w'. split; [exact Hrun|].
    apply sent_app in Hwire. rewrite Hwire.
    split; [apply binary_store_message_flags | apply binary_store_message_expiration].
Qed.

(** An item whose flags are 7 and whose expiration time is 60. *)
Lemma binary_store_flags_zero_witness :
  exists w',
    binary_store 4 fetch_server set sample_item accepting_world
    = Ret (0, fetch_server, w')
    /\ slice (sent accepting_world w') 24 4 = [x00; x00; x00; x00]
    /\ slice (sent accepting_world w') 28 4 = [x00; x00; x00; x3c].
Proof.
  refine (proj2 (proj2
            (binary_store_flags_zero 4 fetch_server set sample_item accepting_world
               _ _ _ _ _))
            success_header [] _ eq_refl eq_refl _ eq_refl).
  - cbn. lia.
  - repeat constructor.
  - cbn. lia.
  - vm_compute. discriminate.
  - unfold len. cbn. lia.
  - repeat constructor.
  - cbn. lia.
Defined.

(** A binary fetch that hits, with any eight bytes in the cas field of
    the response header. *)
Lemma binary_get_hit_decodes (fuel : nat) (server : Server) (item : Item) (w : World)
    (hdr fl c1 c2 : list byte) (more : list recv_event) :
  0 <= sock server ->
  Forall send_soft (net_out w) ->
  (List.length (net_out w) < fuel)%nat ->
  u16 (keylen item) <= len (key_mem item) ->
  data item = None ->
  net_in w = RecvData hdr :: RecvData (fl ++ c1) :: more ->
  List.length hdr = 24%nat ->
  slice hdr 4 1 = [x04] ->
  slice hdr 6 2 = [x00; x00] ->
  slice hdr 8 4 = be_bytes 4 (4 + len (c1 ++ c2)) ->
  4 + len (c1 ++ c2) < 2 ^ 32 ->
  List.length fl = 4%nat ->
  Forall recv_soft more ->
  starts_with c2 (stream_bytes more) ->
  (List.length more < fuel)%nat ->
  len (c1 ++ c2) <= malloc_limit w ->
  exists w',
    binary_get fuel server item w
    = Ret (0, server,
           mkItem (key item) (keylen item) (Some (c1 ++ c2)) (len (c1 ++ c2))
             (flags item) (exptime item)
             (u64 (swap64 (s64 (le_val (slice hdr 16 8))))),
           w').
Proof.
  intros Hfd Hsoft Hfuel Hkey Hdata Hin Hlen Hext Hstatus Hbody Hsmall Hfl
         Hrsoft Hlater Hrfuel Hlim.
  pose proof (len_nonneg (c1 ++ c2)) as Hn.
  destruct (binary_get_header fuel server item w hdr (RecvData (fl ++ c1) :: more)
              Hfd Hsoft Hfuel Hkey Hin Hlen)
    as [w1 [Hrun [Hwire [Hin1 Hm1]]]].
  rewrite Hrun. unfold binary_get_response, response_of_bytes.
  cbn [rsp_status rsp_bodylen rsp_extlen rsp_cas]. cbv zeta.
  rewrite Hbody, ntohl_be_bytes by lia. rewrite Hstatus, Hext.
  change (le_val [x00; x00] =? 0) with true. change (le_val [x04]) with 4.
  cbv beta iota. repeat (rewrite Hdata; cbv beta iota).
  replace (4 + len (c1 ++ c2) - 4) with (len (c1 ++ c2)) by lia.
  unfold u32. rewrite !Z.mod_small by lia.
  cbn [size set_size data set_data].
  destruct (malloc_ok w1 (len (c1 ++ c2)) ltac:(lia)) as [Hmalloc _]. rewrite Hmalloc.
  cbn [size set_size data set_data].
  set (item2 := set_data (set_size item (len (c1 ++ c2)))
                  (Some (repeat NUL (Z.to_nat (len (c1 ++ c2)))))).
  destruct (binary_get_payload_hit fuel server item2 w1 fl c1 c2 more)
    as [w' [Hpay [Hw Hs]]]; try assumption; try reflexivity.
  { cbn [size item2 set_data set_size]. lia. }
  change (size item2) with (len (c1 ++ c2)) in Hpay.
  rewrite Hpay. cbn [bind]. exists w'. reflexivity.
Qed.

(** C4.  On a little-endian host [swap64] is a full 8-byte reversal of a
    64-bit value: byte [i] of the result is byte [7 - i] of the argument,
    so that applying it twice gives the argument back.  [binary_store]
    applies it to the item's cas token: the eight bytes it transmits at
    offset 16 of the request are the host layout of [swap64] of the
    token (as the [int64_t] the function takes), which is the token most
    significant byte first.  [binary_get]
    applies the same function to the cas field of the response: the
    token it stores in the item is [swap64] of the eight bytes it
    received as the host reads them, which is their big-endian value; so
    a token that comes back as it was sent is stored as it was. *)
Theorem swap64_full_byte_reversal (x : Z) :
  in_s64 x ->
  (forall i, 0 <= i < 8 -> byte_at i (swap64 x) = byte_at (7 - i) x)
  /\ swap64 (swap64 x) = x
  /\ (forall fuel server cmd item w hdr rest,
        0 <= sock server ->
        Forall send_soft (net_out w) ->
        (List.length (net_out w) < fuel)%nat ->
        u16 (keylen item) <= len (key_mem item) ->
        0 <= size item <= len (data_mem item) ->
        Forall recv_soft (net_in w) ->
        stream_bytes (net_in w) = hdr ++ rest ->
        List.length hdr = 24%nat ->
        (List.length (net_in w) < fuel)%nat ->
        bodylen_field hdr = 0 ->
        s64 (cas_id item) = x ->
        exists w',
          binary_store fuel server cmd item w
          = Ret (if status_field hdr =? 0 then 0 else -1, server, w')
          /\ slice (sent w w') 16 8 = le_bytes 8 (u64 (swap64 x))
          /\ slice (sent w w') 16 8 = rev (le_bytes 8 (cas_id item)))
  /\ (forall fuel server item w hdr fl c1 c2 more,
        0 <= sock server ->
        Forall send_soft (net_out w) ->
        (List.length (net_out w) < fuel)%nat ->
        u16 (keylen item) <= len (key_mem item) ->
        data item = None ->
        net_in w = RecvData hdr :: RecvData (fl ++ c1) :: more ->
        List.length hdr = 24%nat ->
        slice hdr 4 1 = [x04] ->
        slice hdr 6 2 = [x00; x00] ->
        slice hdr 8 4 = be_bytes 4 (4 + len (c1 ++ c2)) ->
        4 + len (c1 ++ c2) < 2 ^ 32 ->
        List.length fl = 4%nat ->
        Forall recv_soft more ->
        starts_with c2 (stream_bytes more) ->
        (List.length more < fuel)%nat ->
        len (c1 ++ c2) <= malloc_limit w ->
        s64 (le_val (slice hdr 16 8)) = x ->
        exists item' w',
          binary_get fuel server item w = Ret (0, server, item', w')
          /\ cas_id item' = u64 (swap64 x)
          /\ cas_id item' = le_val (rev (slice hdr 16 8))
          /\ (forall c, 0 <= c < 2 ^ 64 ->
                        slice hdr 16 8 = le_bytes 8 (u64 (swap64 (s64 c))) ->
                        cas_id item' = c)).
Proof.
  intros Hx. split; [|split; [|split]].
  - intros i Hi. now apply byte_at_swap64.
  - now apply swap64_involutive.
  - intros fuel server cmd item w hdr rest Hfd Hsoft Hfuel Hkey Hsize Hrsoft Hstream
           Hlen Hrfuel Hbody Hcas.
    destruct (binary_store_empty_body fuel server cmd item w hdr rest)
      as [w' [Hrun [Hwire _]]]; try assumption.
    exists w'. split; [exact Hrun|].
    apply sent_app in Hwire. rewrite Hwire, binary_store_message_cas.
    split; [now rewrite Hcas | apply cas_wire_bytes].
  - intros fuel server item w hdr fl c1 c2 more Hfd Hsoft Hfuel Hkey Hdata Hin Hlen
           Hext Hstatus Hbody Hsmall Hfl Hrsoft Hlater Hrfuel Hlim Hcas.
    destruct (binary_get_hit_decodes fuel server item w hdr fl c1 c2 more)
      as [w' Hrun]; try assumption.
    eexists. exists w'. split; [exact Hrun|]. cbn [cas_id]. rewrite Hcas.
    assert (Hl8 : List.length (slice hdr 16 8) = 8%nat)
      by (apply length_slice; rewrite Hlen; lia).
    split; [reflexivity|]. split.
    + rewrite <- Hcas. now apply cas_of_wire_bytes.
    + intros c Hrange Hc. rewrite <- Hcas, (cas_of_wire_bytes _ Hl8), Hc, cas_wire_bytes.
      rewrite rev_involutive. apply le_val_le_bytes. exact Hrange.
Qed.

(** The token 0x0102030405060708 of the sample item goes out as the bytes
    01 to 08, and a response that carries these bytes brings it back. *)
Lemma swap64_full_byte_reversal_witness :
  (swap64 (swap64 72623859790382856) = 72623859790382856
   /\ exists w',
        binary_store 4 fetch_server set sample_item accepting_world
        = Ret (0, fetch_server, w')
        /\ slice (sent accepting_world w') 16 8
           = [x01; x02; x03; x04; x05; x06; x07; x08])
  /\ exists item' w',
       binary_get 4 fetch_server fresh_item hit_world = Ret (0, fetch_server, item', w')
       /\ cas_id item' = 72623859790382856.
Proof.
  split.
  - assert (Hx : in_s64 72623859790382856) by (unfold in_s64; lia).
    destruct (swap64_full_byte_reversal 72623859790382856 Hx) as [_ [Hinv [Hstore _]]].
    split; [exact Hinv|].
    destruct (Hstore 4%nat fetch_server set sample_item accepting_world success_header [])
      as [w' [Hrun [_ Hcas]]].
    + cbn. lia.
    + repeat constructor.
    + cbn. lia.
    + vm_compute. discriminate.
    + unfold len. cbn. lia.
    + repeat constructor.
    + reflexivity.
    + reflexivity.
    + cbn. lia.
    + reflexivity.
    + reflexivity.
    + exists w'. split; [exact Hrun | exact Hcas].
  - assert (Hx : in_s64 578437695752307201) by (unfold in_s64; lia).
    destruct (swap64_full_byte_reversal 578437695752307201 Hx) as [_ [_ [_ Hfetch]]].
    destruct (Hfetch 4%nat fetch_server fresh_item hit_world hit_header
                [x00; x00; x00; x07] (bytes "he") (bytes "llo")
                [RecvErr EINTR; RecvData (bytes "llo")])
      as [item' [w' [Hrun [_ [Hcas _]]]]].
    + cbn. lia.
    + constructor.
    + cbn. lia.
    + vm_compute. discriminate.
    + reflexivity.
    + reflexivity.
    + reflexivity.
    + reflexivity.
    + reflexivity.
    + reflexivity.
    + vm_compute. reflexivity.
    + reflexivity.
    + repeat constructor.
    + exists []. reflexivity.
    + cbn. lia.
    + vm_compute. discriminate.
    + vm_compute. reflexivity.
    + exists item', w'. split; [exact Hrun | exact Hcas].
Defined.

(** *** Hard errors of the transport *)

Lemma disconnect_with_message (server : Server) (msg : string) :
  0 <= sock server ->
  server_disconnect (set_errmsg server msg)
  = mkServer (-1) (Some msg) (peername server) (buffer server) (buffersize server).
Proof.
  intros Hfd. unfold server_disconnect, set_errmsg, set_sock. cbn [sock errmsg peername
    buffer buffersize].
  destruct (Z.eqb_spec (sock server) (-1)) as [E|N]; [lia | reflexivity].
Qed.

Lemma mem_read_inside (mem : list byte) (off n : Z) :
  0 <= off -> 0 <= n -> off + n <= len mem ->
  mem_read mem off n = Ret (firstn (Z.to_nat n) (skipn (Z.to_nat off) mem)).
Proof.
  intros H0 H1 H2. unfold mem_read.
  destruct (Z.leb_spec 0 off); [|lia].
  destruct (Z.leb_spec 0 n); [|lia].
  destruct (Z.leb_spec (off + n) (len mem)); [|lia].
  reflexivity.
Qed.

(** On an open connection, a call of the transport that fails with an
    error other than [EINTR] ends [server_send], [server_sendv] and
    [server_receive] at once, at whatever point of the transfer it
    strikes: the call returns -1 (as a [size_t] for the receive), the
    message names the operation and the error, the socket is closed and
    marked not connected, nothing more is sent or taken from the
    transport, and the bytes received so far stay in the buffer. *)
Theorem io_hard_error_fails (fuel : nat) (server : Server) (w : World) (e : Z) :
  0 <= sock server ->
  e <> EINTR ->
  (forall dat sz offset rest,
     0 <= offset <= sz -> sz <= len dat ->
     net_out w = SendErr e :: rest ->
     server_send_loop (S fuel) server dat sz offset w
     = Ret (-1,
            mkServer (-1) (Some ("Failed to send data to server: " ++ strerror e)%string)
              (peername server) (buffer server) (buffersize server),
            set_errno (set_net_out w rest) e))
  /\ (forall dat sz rest,
        0 <= sz <= len dat ->
        net_out w = SendErr e :: rest ->
        server_send (S fuel) server dat sz w
        = Ret (-1,
               mkServer (-1) (Some ("Failed to send data to server: " ++ strerror e)%string)
                 (peername server) (buffer server) (buffersize server),
               set_errno (set_net_out w rest) e))
  /\ (forall iov sz rest,
        Forall iov_ok iov ->
        net_out w = SendErr e :: rest ->
        server_sendv_loop (S fuel) server iov sz w
        = Ret (-1,
               mkServer (-1) (Some ("Failed to send data to server: " ++ strerror e)%string)
                 (peername server) (buffer server) (buffersize server),
               set_errno (set_net_out w rest) e))
  /\ (forall iov rest,
        Forall iov_ok iov ->
        net_out w = SendErr e :: rest ->
        server_sendv (S fuel) server iov w
        = Ret (-1,
               mkServer (-1) (Some ("Failed to send data to server: " ++ strerror e)%string)
                 (peername server) (buffer server) (buffersize server),
               set_errno (set_net_out w rest) e))
  /\ (forall dat sz line offset stop rest,
        net_in w = RecvErr e :: rest ->
        server_receive_loop (S fuel) server dat sz line offset stop w
        = Ret (SIZE_MAX,
               mkServer (-1)
                 (Some ("Failed to receive data from server: " ++ strerror e)%string)
                 (peername server) (buffer server) (buffersize server),
               dat, set_errno (set_net_in w rest) e))
  /\ (forall dat sz line rest,
        net_in w = RecvErr e :: rest ->
        server_receive (S fuel) server dat sz line w
        = Ret (SIZE_MAX,
               mkServer (-1)
                 (Some ("Failed to receive data from server: " ++ strerror e)%string)
                 (peername server) (buffer server) (buffersize server),
               dat, set_errno (set_net_in w rest) e)).
Proof.
  intros Hfd He.
  assert (Hsend : forall dat sz offset rest,
            0 <= offset <= sz -> sz <= len dat ->
            net_out w = SendErr e :: rest ->
            server_send_loop (S fuel) server dat sz offset w
            = Ret (-1,
                   mkServer (-1)
                     (Some ("Failed to send data to server: " ++ strerror e)%string)
                     (peername server) (buffer server) (buffersize server),
                   set_errno (set_net_out w rest) e)).
  { intros dat sz offset rest Hoff Hsz Hout.
    rewrite <- (disconnect_with_message server _ Hfd).
    change (server_disconnect (set_errmsg server _))
      with (send_failed server (set_errno (set_net_out w rest) e)).
    apply server_send_hard_error
      with (bs := firstn (Z.to_nat (sz - offset)) (skipn (Z.to_nat offset) dat)).
    - apply mem_read_inside; lia.
    - unfold sock_send. destruct (Z.ltb_spec (sock server) 0); [lia|].
      rewrite Hout. reflexivity.
    - exact He. }
  assert (Hsendv : forall iov sz rest,
            Forall iov_ok iov ->
            net_out w = SendErr e :: rest ->
            server_sendv_loop (S fuel) server iov sz w
            = Ret (-1,
                   mkServer (-1)
                     (Some ("Failed to send data to server: " ++ strerror e)%string)
                     (peername server) (buffer server) (buffersize server),
                   set_errno (set_net_out w rest) e)).
  { intros iov sz rest Hok Hout.
    rewrite <- (disconnect_with_message server _ Hfd).
    change (server_disconnect (set_errmsg server _))
      with (send_failed server (set_errno (set_net_out w rest) e)).
    apply server_sendv_hard_error; [|exact He].
    unfold writev. rewrite (gather_ok iov Hok). cbn [bind].
    unfold sock_send. destruct (Z.ltb_spec (sock server) 0); [lia|].
    rewrite Hout. reflexivity. }
  assert (Hrecv : forall dat sz line offset stop rest,
            net_in w = RecvErr e :: rest ->
            server_receive_loop (S fuel) server dat sz line offset stop w
            = Ret (SIZE_MAX,
                   mkServer (-1)
                     (Some ("Failed to receive data from server: " ++ strerror e)%string)
                     (peername server) (buffer server) (buffersize server),
                   dat, set_errno (set_net_in w rest) e)).
  { intros dat sz line offset stop rest Hin.
    rewrite <- (disconnect_with_message server _ Hfd).
    change (server_disconnect (set_errmsg server _))
      with (receive_failed server (set_errno (set_net_in w rest) e)).
    apply server_receive_hard_error with (bs := []); [|exact He].
    unfold recv. destruct (Z.ltb_spec (sock server) 0); [lia|].
    rewrite Hin. reflexivity. }
  split; [exact Hsend|]. split.
  { intros dat sz rest Hsz Hout. apply Hsend; [lia | lia | exact Hout]. }
  split; [exact Hsendv|]. split.
  { intros iov rest Hok Hout. now apply Hsendv. }
  split; [exact Hrecv|].
  intros dat sz line rest Hin. now apply Hrecv.
Qed.

(** A pipe that breaks at the first write of five bytes. *)
Lemma io_hard_error_fails_witness :
  server_send 1 small_server (bytes "hello") 5
    (mkWorld [] [SendErr EPIPE; SendAccept 5] [] 0 1024)
  = Ret (-1,
         mkServer (-1) (Some "Failed to send data to server: Broken pipe"%string)
           "localhost:11211" (repeat NUL 8) 8,
         mkWorld [] [SendAccept 5] [] EPIPE 1024).
Proof.
  refine (proj1 (proj2
            (io_hard_error_fails 0 small_server
               (mkWorld [] [SendErr EPIPE; SendAccept 5] [] 0 1024) EPIPE _ _))
            (bytes "hello") 5 [SendAccept 5] _ eq_refl).
  - cbn. lia.
  - discriminate.
  - unfold len. cbn. lia.
Defined.

(** A transfer that is interrupted and then cut: three bytes leave, the
    next write is interrupted and retried, the retry meets a broken
    pipe; three bytes arrive, the next read is interrupted and the one
    after meets a reset. *)
Example server_send_broken_pipe :
  server_send 4 small_server (bytes "hello") 5 broken_pipe_world
  = Ret (-1,
         mkServer (-1) (Some "Failed to send data to server: Broken pipe"%string)
           "localhost:11211" (repeat NUL 8) 8,
         mkWorld [RecvData (bytes "abc"); RecvErr EINTR; RecvErr ECONNRESET] []
           (bytes "hel") EPIPE 1024).
Proof. vm_compute. reflexivity. Qed.

Example server_sendv_broken_pipe :
  server_sendv 4 small_server [mkIovec (bytes "he") 2; mkIovec (bytes "llo") 3]
    broken_pipe_world
  = Ret (-1,
         mkServer (-1) (Some "Failed to send data to server: Broken pipe"%string)
           "localhost:11211" (repeat NUL 8) 8,
         mkWorld [RecvData (bytes "abc"); RecvErr EINTR; RecvErr ECONNRESET] []
           (bytes "hel") EPIPE 1024).
Proof. vm_compute. reflexivity. Qed.

Example server_receive_reset_after_interrupt :
  server_receive 4 small_server (buffer small_server) 8 false broken_pipe_world
  = Ret (SIZE_MAX,
         mkServer (-1)
           (Some "Failed to receive data from server: Connection reset by peer"%string)
           "localhost:11211" (repeat NUL 8) 8,
         bytes "abc" ++ repeat NUL 5,
         mkWorld [] [SendAccept 3; SendErr EINTR; SendErr EPIPE] [] ECONNRESET 1024).
Proof. vm_compute. reflexivity. Qed.
